(** * A shallow embedding of [server.py]

    The bot's pure and stateful functions are embedded module by module:
    - [Url]      : [is_valid_youtube_url] and [extract_video_id], over a
                   backtracking matcher for the fragment of Python's [re]
                   syntax that the two functions use;
    - [Provider] : the streams and queries of the metadata provider, and
                   the exceptions the source tells apart;
    - [Catalog]  : [get_video_info], the stream option lists;
    - [Retry]    : [get_video_info_with_retry];
    - [Db]       : [update_log_status] and [get_user_stats] over the two
                   SQL tables;
    - [Pipeline] : [merge_video_audio], [convert_to_mp3], [download_youtube]
                   over a file-system and usage-log state;
    - [Scenario] : concrete videos, collaborators and stores.

    Python [str] values are modelled as [string] (byte strings: the regular
    expressions of the source only mention ASCII characters, so matching on
    the UTF-8 bytes agrees with matching on code points). *)

From Stdlib Require Import ZArith Ascii String DecimalString List Bool Lia Sorted.
From stdpp Require Import base option list sorting gmap strings.

Local Open Scope Z_scope.
Local Open Scope stdpp_scope.

(** ** Strings *)

(** [s[:n]] and [s[n:]] for [0 <= n]. *)
Fixpoint stake (n : nat) (s : string) : string :=
  match n, s with
  | S n', String c s' => String c (stake n' s')
  | _, _ => ""
  end.

Fixpoint sdrop (n : nat) (s : string) : string :=
  match n, s with
  | S n', String c s' => sdrop n' s'
  | _, _ => s
  end.

(** [c in s] for a character [c]. *)
Fixpoint has_char (c : ascii) (s : string) : bool :=
  match s with
  | EmptyString => false
  | String a s' => Ascii.eqb a c || has_char c s'
  end.

(** ** Sorting

    Python's [sorted] and the provider's [order_by] are stable: an element
    goes before the elements that came after it and are not below it. *)

Fixpoint insert_by {A : Type} (le : A → A → bool) (x : A) (l : list A) : list A :=
  match l with
  | [] => [x]
  | y :: l' => if le x y then x :: y :: l' else y :: insert_by le x l'
  end.

Fixpoint sort_by {A : Type} (le : A → A → bool) (l : list A) : list A :=
  match l with
  | [] => []
  | x :: l' => insert_by le x (sort_by le l')
  end.

(** ** URL validation and video id extraction *)

Module Url.

(** The regular expressions of the source, as syntax trees. [Opt] and
    [ClassPlus] are greedy, [Alt] tries its left branch first, [Group i] is
    the capturing group number [i]; a non-capturing group [(?:r)] is [r]. *)
Inductive regex : Type :=
| Lit (s : string)
| Opt (r : regex)
| Alt (r1 r2 : regex)
| Seq (r1 r2 : regex)
| ClassPlus (p : ascii → bool)
| Group (i : nat) (r : regex).

(** A match object: the text captured by each group that took part. *)
Abbreviation captures := (gmap nat string).

Fixpoint strip_prefix (lit s : string) : option string :=
  match lit, s with
  | EmptyString, _ => Some s
  | String a lit', String b s' =>
      if Ascii.eqb a b then strip_prefix lit' s' else None
  | String _ _, EmptyString => None
  end.

(** [p+] from the start of [s]: one character of the class, then as many
    more as possible, giving them back one by one while [k] fails. *)
Fixpoint run_plus (p : ascii → bool) (s : string)
    (k : string → option captures) : option captures :=
  match s with
  | String c s' =>
      if p c then
        match run_plus p s' k with
        | Some m => Some m
        | None => k s'
        end
      else None
  | EmptyString => None
  end.

(** The backtracking matcher: [run r s caps k] matches [r] at the start of
    [s] and hands what is left, with the groups captured so far, to the
    continuation [k]; the first success in priority order is returned. *)
Fixpoint run (r : regex) (s : string) (caps : captures)
    (k : string → captures → option captures) : option captures :=
  match r with
  | Lit lit =>
      match strip_prefix lit s with
      | Some s' => k s' caps
      | None => None
      end
  | Opt r1 =>
      match run r1 s caps k with
      | Some m => Some m
      | None => k s caps
      end
  | Alt r1 r2 =>
      match run r1 s caps k with
      | Some m => Some m
      | None => run r2 s caps k
      end
  | Seq r1 r2 => run r1 s caps (λ s' caps', run r2 s' caps' k)
  | ClassPlus p => run_plus p s (λ s', k s' caps)
  | Group i r1 =>
      run r1 s caps (λ s' caps',
        k s' (<[i := stake (String.length s - String.length s') s]> caps'))
  end.

(** [re.match(r, s)]: a match anchored at the start of [s], not at its end. *)
Definition re_match (r : regex) (s : string) : option captures :=
  run r s ∅ (λ _ caps, Some caps).

(** [re.search(r, s)]: the match at the leftmost position that has one. *)
Fixpoint re_search (r : regex) (s : string) : option captures :=
  match re_match r s with
  | Some m => Some m
  | None =>
      match s with
      | String _ s' => re_search r s'
      | EmptyString => None
      end
  end.

(** [m.group(i)] *)
Definition group (m : captures) (i : nat) : option string := m !! i.

Definition in_range (lo hi c : ascii) : bool :=
  (nat_of_ascii lo <=? nat_of_ascii c)%nat && (nat_of_ascii c <=? nat_of_ascii hi)%nat.

(** The class [[a-zA-Z0-9_-]]. *)
Definition id_char (c : ascii) : bool :=
  in_range "a" "z" c || in_range "A" "Z" c || in_range "0" "9" c
  || Ascii.eqb c "_" || Ascii.eqb c "-".

(** [(https?://)?(www\.)?(youtube\.com/watch\?v=|youtu\.be/)[a-zA-Z0-9_-]+] *)
Definition youtube_regex : regex :=
  Seq (Opt (Group 1 (Seq (Lit "http") (Seq (Opt (Lit "s")) (Lit "://")))))
 (Seq (Opt (Group 2 (Lit "www.")))
 (Seq (Group 3 (Alt (Lit "youtube.com/watch?v=") (Lit "youtu.be/")))
      (ClassPlus id_char))).

Definition is_valid_youtube_url (url : string) : bool :=
  match re_match youtube_regex url with
  | Some _ => true
  | None => false
  end.

(** [(?:https?:\/\/)?(?:www\.)?youtube\.com\/watch\?v=([a-zA-Z0-9_-]+)] *)
Definition pattern1 : regex :=
  Seq (Opt (Seq (Lit "http") (Seq (Opt (Lit "s")) (Lit "://"))))
 (Seq (Opt (Lit "www."))
 (Seq (Lit "youtube.com/watch?v=")
      (Group 1 (ClassPlus id_char)))).

(** [(?:https?:\/\/)?(?:www\.)?youtu\.be\/([a-zA-Z0-9_-]+)] *)
Definition pattern2 : regex :=
  Seq (Opt (Seq (Lit "http") (Seq (Opt (Lit "s")) (Lit "://"))))
 (Seq (Opt (Lit "www."))
 (Seq (Lit "youtu.be/")
      (Group 1 (ClassPlus id_char)))).

(** The result is [None] for Python's [None]. *)
Definition extract_video_id (url : string) : option string :=
  match re_search pattern1 url with
  | Some m => group m 1
  | None =>
      match re_search pattern2 url with
      | Some m => group m 1
      | None => None
      end
  end.

(** *** What the patterns denote

    The language of a pattern, independent of the matcher's search order. *)

Fixpoint all_chars (p : ascii → bool) (s : string) : bool :=
  match s with
  | EmptyString => true
  | String c s' => p c && all_chars p s'
  end.

Inductive Matches : regex → string → Prop :=
| M_Lit (l : string) : Matches (Lit l) l
| M_Opt_skip (r : regex) : Matches (Opt r) ""
| M_Opt_take (r : regex) (s : string) : Matches r s → Matches (Opt r) s
| M_Alt_l (r1 r2 : regex) (s : string) : Matches r1 s → Matches (Alt r1 r2) s
| M_Alt_r (r1 r2 : regex) (s : string) : Matches r2 s → Matches (Alt r1 r2) s
| M_Seq (r1 r2 : regex) (s1 s2 : string) :
    Matches r1 s1 → Matches r2 s2 → Matches (Seq r1 r2) (s1 +:+ s2)
| M_ClassPlus (p : ascii → bool) (s : string) :
    s ≠ "" → all_chars p s = true → Matches (ClassPlus p) s
| M_Group (i : nat) (r : regex) (s : string) :
    Matches r s → Matches (Group i r) s.

(** A continuation whose success does not depend on the groups captured. *)
Definition blind (k : string → captures → option captures) : Prop :=
  ∀ rest c1 c2, is_Some (k rest c1) → is_Some (k rest c2).

(** The two canonical forms as the specification words them: an optional
    scheme, an optional [www.], one of the two hosts with its path, and a
    non-empty video id, with nothing after it. *)
Definition canonical_url (s : string) : Prop :=
  ∃ scheme www host vid : string,
    scheme ∈ [""; "http://"; "https://"] ∧
    www ∈ [""; "www."] ∧
    host ∈ ["youtube.com/watch?v="; "youtu.be/"] ∧
    vid ≠ "" ∧ all_chars id_char vid = true ∧
    s = scheme +:+ www +:+ host +:+ vid.

(** An id ends where the text ends or a character outside the class
    follows. *)
Definition ends_id (rest : string) : bool :=
  match rest with
  | EmptyString => true
  | String c _ => negb (id_char c)
  end.

(** [vid] is a video id that [url] carries: a non-empty run of id
    characters that stands right after one of the two markers
    ([youtube.com/watch?v=] or [youtu.be/]) and is not continued by a
    further id character. *)
Definition carries_id (url vid : string) : Prop :=
  ∃ pre host rest : string,
    host ∈ ["youtube.com/watch?v="; "youtu.be/"] ∧
    url = pre +:+ host +:+ vid +:+ rest ∧
    vid ≠ "" ∧ all_chars id_char vid = true ∧ ends_id rest = true.

(** The run of id characters at the start of [s]. *)
Fixpoint leading_id (s : string) : string :=
  match s with
  | EmptyString => EmptyString
  | String c s' => if id_char c then String c (leading_id s') else EmptyString
  end.

(** A reference for the search of the extraction patterns: the run of id
    characters after the leftmost occurrence of [marker] that an id
    character follows. *)
Fixpoint find_id (marker s : string) : option string :=
  match s with
  | EmptyString => None
  | String _ s' =>
      match strip_prefix marker s with
      | Some t =>
          match leading_id t with
          | EmptyString => find_id marker s'
          | vid => Some vid
          end
      | None => find_id marker s'
      end
  end.

End Url.


(** ** The metadata provider (pytubefix) and Python exceptions

    The provider is an external library: its streams carry the attributes
    the source reads, and its queries are modelled by what they return. *)

Module Provider.

(** The exception classes the source distinguishes; [OtherException] stands
    for any other subclass of [Exception]. *)
Inductive exn : Type :=
| RegexMatchError (msg : string)
| VideoUnavailable (msg : string)
| HTTPError (code : Z) (reason : string)
| CalledProcessError (msg : string)
| FileNotFoundError (msg : string)
| UnboundLocalError (msg : string)
| OtherException (msg : string).

Definition str_of_Z (z : Z) : string := NilZero.string_of_int (Z.to_int z).

(** [str(e)] *)
Definition str_exn (e : exn) : string :=
  match e with
  | RegexMatchError msg | VideoUnavailable msg | CalledProcessError msg
  | FileNotFoundError msg | UnboundLocalError msg | OtherException msg => msg
  | HTTPError code reason =>
      "HTTP Error " +:+ str_of_Z code +:+ ": " +:+ reason
  end.

(** The outcome of an expression that may raise. *)
Inductive res (A : Type) : Type :=
| Ok (a : A)
| Raise (e : exn).
Global Arguments Ok {A} a.
Global Arguments Raise {A} e.

Global Instance res_ret : MRet res := λ A a, Ok a.
Global Instance res_bind : MBind res := λ A B f m,
  match m with
  | Ok a => f a
  | Raise e => Raise e
  end.

(** [Stream.type] *)
Inductive media : Type := audio | video.

(** The attributes of a pytubefix [Stream] that the source reads, and the
    two that its queries filter on ([type], [is_progressive]). *)
Record Stream : Type := mkStream {
  itag : Z;
  type : media;
  is_progressive : bool;
  abr : option string;
  resolution : option string;
  subtype : string;
  default_filename : string
}.

Definition includes_audio_track (s : Stream) : bool :=
  is_progressive s || match type s with audio => true | video => false end.

Definition includes_video_track (s : Stream) : bool :=
  is_progressive s || match type s with video => true | audio => false end.

(** [.filter(only_audio=True)] *)
Definition only_audio (l : list Stream) : list Stream :=
  List.filter (λ s, includes_audio_track s && negb (includes_video_track s)) l.

(** [.filter(progressive=True, file_extension='mp4')] *)
Definition progressive_mp4 (l : list Stream) : list Stream :=
  List.filter (λ s, is_progressive s && String.eqb (subtype s) "mp4") l.

(** [.filter(only_video=True, file_extension='mp4')] *)
Definition only_video_mp4 (l : list Stream) : list Stream :=
  List.filter (λ s, (includes_video_track s && negb (includes_audio_track s))
                    && String.eqb (subtype s) "mp4") l.

Section Ordering.
(** The integer by which the provider ranks a quality label (a bitrate
    such as 128kbps, a resolution such as 720p). *)
Variable rank : string → Z.

Definition attr_rank (attr : Stream → option string) (s : Stream) : Z :=
  match attr s with
  | Some q => rank q
  | None => 0
  end.

(** [.order_by(attr)]: the streams that have the attribute, in ascending
    rank order. *)
Definition order_by (attr : Stream → option string) (l : list Stream)
    : list Stream :=
  sort_by (λ x y, attr_rank attr x <=? attr_rank attr y)
          (List.filter (λ s, match attr s with Some _ => true | None => false end) l).

(** [.desc()] *)
Definition desc (l : list Stream) : list Stream := rev l.

(** [.first()] *)
Definition first (l : list Stream) : option Stream := head l.
End Ordering.

(** The rank the provider computes from a label: the integer spelled by
    its decimal digits (128kbps gives 128, 1080p gives 1080). *)
Definition digit_value (c : ascii) : option Z :=
  let n := Z.of_nat (nat_of_ascii c) in
  if (48 <=? n) && (n <=? 57) then Some (n - 48) else None.

Fixpoint digits_acc (acc : Z) (s : string) : Z :=
  match s with
  | EmptyString => acc
  | String c s' =>
      match digit_value c with
      | Some d => digits_acc (10 * acc + d) s'
      | None => digits_acc acc s'
      end
  end.

Definition digit_rank (q : string) : Z := digits_acc 0 q.

(** [.get_by_itag(i)]: the query indexes its streams by itag in a dict, so
    the last stream of a given itag is the one found. *)
Definition get_by_itag (i : Z) (l : list Stream) : option Stream :=
  last (List.filter (λ s, itag s =? i) l).

(** A [YouTube] object: every attribute is fetched on access and may raise. *)
Record YouTube : Type := mkYouTube {
  streams : res (list Stream);
  title : res string;
  thumbnail_url : res string;
  length : res Z;
  author : res string
}.

End Provider.

(** ** The stream catalog builder *)

Module Catalog.
Import Provider.

Definition ALLOWED_VIDEO_RESOLUTIONS : gset string :=
  {[ "144p"; "240p"; "360p"; "480p"; "720p"; "1080p" ]}.

(** One entry of [audio_options] or [video_options]; audio entries have no
    ['ptype'] key. *)
Record StreamOption : Type := mkOption {
  o_itag : Z;
  o_format : string;
  quality : string;
  extension : string;
  ptype : option string
}.

Record VideoCatalog : Type := mkCatalog {
  c_title : string;
  thumbnail : string;
  duration : Z;
  c_author : string;
  audio_options : list StreamOption;
  video_options : list StreamOption
}.

(** What [get_video_info] returns: [None], a dict with an ['error'] key, or
    a catalog dict. *)
Inductive info : Type :=
| InfoNone
| InfoError (error : string)
| InfoCatalog (c : VideoCatalog).

(** [stream.resolution in ALLOWED_VIDEO_RESOLUTIONS] *)
Definition allowed (s : Stream) : bool :=
  match resolution s with
  | Some r => bool_decide (r ∈ ALLOWED_VIDEO_RESOLUTIONS)
  | None => false
  end.

Definition res_label (s : Stream) : string := default "" (resolution s).

Definition audio_option (s : Stream) : list StreamOption :=
  match abr s with
  | Some q => if String.eqb q "" then [] else [mkOption (itag s) "audio" q (subtype s) None]
  | None => []
  end.

Definition prog_option (s : Stream) : list StreamOption :=
  if allowed s
  then [mkOption (itag s) "video" (res_label s) (subtype s) (Some "prog")]
  else [].

(** The entry the loop over the adaptive streams builds for a stream,
    before the duplicate check. *)
Definition adapt_option (s : Stream) : list StreamOption :=
  if allowed s
  then [mkOption (itag s) "video" (res_label s) (subtype s) (Some "adapt")]
  else [].

(** One turn of the loop over the adaptive streams. *)
Definition add_adaptive (opts : list StreamOption) (s : Stream)
    : list StreamOption :=
  if allowed s then
    if existsb (λ opt, String.eqb (quality opt) (res_label s)) opts
    then opts
    else opts ++ [mkOption (itag s) "video" (res_label s) (subtype s) (Some "adapt")]
  else opts.


Section Build.
Variable rank : string → Z.

(** Best quality first: no entry ranks above an entry before it. *)
Definition non_increasing (opts : list StreamOption) : Prop :=
  StronglySorted (λ a b, rank (quality b) ≤ rank (quality a)) opts.

Definition build_audio_options (l : list Stream) : list StreamOption :=
  flat_map audio_option (desc (order_by rank abr (only_audio l))).

Definition build_prog_options (l : list Stream) : list StreamOption :=
  flat_map prog_option (desc (order_by rank resolution (progressive_mp4 l))).

Definition build_video_options (l : list Stream) : list StreamOption :=
  fold_left add_adaptive
            (desc (order_by rank resolution (only_video_mp4 l)))
            (build_prog_options l).

(** The body of the [try] block. *)
Definition get_video_info_body (yt : res YouTube) : res info :=
  yt ← yt;
  l ← streams yt;
  let audio := build_audio_options l in
  let video := build_video_options l in
  match audio, video with
  | [], [] => Ok InfoNone
  | _, _ =>
      t ← title yt;
      th ← thumbnail_url yt;
      d ← length yt;
      a ← author yt;
      Ok (InfoCatalog (mkCatalog t th d a (take 3 audio) (take 10 video)))
  end.

(** [get_video_info(url)], given what the [YouTube(url, ...)] constructor
    of this call does; logging is left out. *)
Definition get_video_info (yt : res YouTube) : info :=
  match get_video_info_body yt with
  | Ok i => i
  | Raise (RegexMatchError _ as e) | Raise (VideoUnavailable _ as e) =>
      InfoError ("Video tidak tersedia atau dibatasi: " +:+ str_exn e)
  | Raise (HTTPError code reason) =>
      InfoError ("HTTP Error " +:+ str_of_Z code +:+ ": " +:+ reason)
  | Raise e =>
      InfoError ("Error tidak terduga: " +:+ str_exn e)
  end.
End Build.

End Catalog.


(** ** The retry wrapper *)

Module Retry.
Import Provider Catalog.

(** What the wrapper can observe change: how many times the builder has
    been called, and how many seconds were slept. *)
Record world : Type := mkWorld {
  calls : nat;
  slept : Z
}.

(** [bool(info)]: [None] is false, a non-empty dict is true. *)
Definition truthy (i : info) : bool :=
  match i with
  | InfoNone => false
  | InfoError _ | InfoCatalog _ => true
  end.

(** ["error" not in info] *)
Definition error_not_in (i : info) : bool :=
  match i with
  | InfoError _ => false
  | InfoNone | InfoCatalog _ => true
  end.

(** An attempt fails when the loop does not return on it. *)
Definition failed (i : info) : bool := negb (truthy i && error_not_in i).

(** [return info] after the loop: reading the variable while it is
    unbound raises. *)
Definition return_var (info_var : option info) : res info :=
  match info_var with
  | Some i => Ok i
  | None => Raise (UnboundLocalError "info")
  end.

Section Wrapper.
Variable rank : string → Z.
(** [YouTube_new n url]: what the constructor does on the builder's
    call number [n] (counted from 0). *)
Variable YouTube_new : nat → string → res YouTube.

Definition get_video_info_call (url : string) (w : world) : info * world :=
  (get_video_info rank (YouTube_new (calls w) url),
   mkWorld (S (calls w)) (slept w)).

Definition sleep (secs : Z) (w : world) : world :=
  mkWorld (calls w) (slept w + secs).

(** The [for] loop with [n] turns left, followed by [return info]; the
    local variable [info] is [None] while it is unbound. *)
Fixpoint retry_loop (n : nat) (url : string) (info_var : option info)
    (w : world) : res info * world :=
  match n with
  | O => (return_var info_var, w)
  | S n' =>
      let '(i, w1) := get_video_info_call url w in
      if truthy i && error_not_in i then (Ok i, w1)
      else retry_loop n' url (Some i) (sleep 1 w1)
  end.

(** [range(retries)] is empty when [retries <= 0]. *)
Definition get_video_info_with_retry (url : string) (retries : Z)
    (w : world) : res info * world :=
  retry_loop (Z.to_nat retries) url None w.

Definition get_video_info_by_id (video_id : string) (w : world)
    : res info * world :=
  get_video_info_with_retry ("https://youtu.be/" +:+ video_id) 3 w.
End Wrapper.

End Retry.

(** ** The usage store *)

Module Db.

Record UserRow : Type := mkUser {
  user_id : Z;
  username : option string;
  first_name : option string;
  last_name : option string;
  join_date : string
}.

Record LogRow : Type := mkLog {
  id : Z;
  log_user_id : Z;
  action : string;
  video_url : string;
  format : string;
  log_quality : string;
  timestamp : string;
  status : string;
  error_message : string
}.

Record database : Type := mkDb {
  users : list UserRow;
  usage_logs : list LogRow
}.

(** [UPDATE usage_logs SET status = ?, error_message = ? WHERE id = ?] *)
Definition update_log_status (log_id : Z) (new_status new_error : string)
    (db : database) : database :=
  mkDb (users db)
       (map (λ r, if id r =? log_id
                  then mkLog (id r) (log_user_id r) (action r) (video_url r)
                             (format r) (log_quality r) (timestamp r)
                             new_status new_error
                  else r)
            (usage_logs db)).

Record stats : Type := mkStats {
  total_users : nat;
  total_downloads : nat;
  top_users : list (option string * nat);
  recent_errors : list (string * string * string * string)
}.

(** [WHERE action = 'download' AND status = 'completed'] *)
Definition completed_download (l : LogRow) : bool :=
  String.eqb (action l) "download" && String.eqb (status l) "completed".

(** The completed downloads logged for the user [u]. *)
Definition completed_by (db : database) (u : UserRow) : nat :=
  List.length (List.filter (λ l, log_user_id l =? user_id u)
                           (List.filter completed_download (usage_logs db))).

(** [usage_logs JOIN users ON usage_logs.user_id = users.user_id], filtered
    by the [WHERE] clause. *)
Definition joined (db : database) : list (LogRow * UserRow) :=
  flat_map (λ l, map (λ u, (l, u))
                     (List.filter (λ u, log_user_id l =? user_id u) (users db)))
           (List.filter completed_download (usage_logs db)).

(** [GROUP BY users.user_id] with the selected columns: the username of a
    row of the group, and [COUNT( * )]. *)
Definition grouped (db : database) : list (option string * nat) :=
  map (λ k, let rows := List.filter (λ lu, user_id (snd lu) =? k) (joined db) in
            (from_option (λ lu, username (snd lu)) None (head rows),
             List.length rows))
      (remove_dups (map (λ lu, user_id (snd lu)) (joined db))).

(** [ORDER BY download_count DESC] *)
Definition by_count_desc (x y : option string * nat) : bool :=
  (snd y <=? snd x)%nat.

Definition get_user_stats (db : database) : stats :=
  mkStats
    (List.length (remove_dups (map user_id (users db))))
    (List.length (List.filter (λ l, String.eqb (action l) "download") (usage_logs db)))
    (take 5 (sort_by by_count_desc (grouped db)))
    (take 5 (map (λ l, (action l, video_url l, error_message l, timestamp l))
                 (sort_by (λ x y, String.leb (timestamp y) (timestamp x))
                          (List.filter (λ l, negb (String.eqb (error_message l) ""))
                                       (usage_logs db))))).

(** [save_user]: a row is inserted, with the time of the call as
    [join_date], only when [SELECT user_id FROM users WHERE user_id = ?]
    finds none. *)
Definition save_user (uid : Z) (uname fname lname : option string)
    (now : string) (db : database) : database :=
  match List.filter (λ u, user_id u =? uid) (users db) with
  | [] => mkDb (users db ++ [mkUser uid uname fname lname now]) (usage_logs db)
  | _ :: _ => db
  end.

(** The [id] an [INSERT] into [usage_logs] gets ([INTEGER PRIMARY KEY
    AUTOINCREMENT]): one above the largest id the table has held. The
    program never deletes a row, so that is the largest id in the table. *)
Definition next_id (db : database) : Z :=
  1 + fold_right Z.max 0 (map id (usage_logs db)).

(** [log_usage]; [now] is the time of the call, and the result is
    [cursor.lastrowid] with the new store. *)
Definition log_usage (uid : Z) (act url fmt qual : string) (now : string)
    (st err : string) (db : database) : Z * database :=
  let last_id := next_id db in
  (last_id,
   mkDb (users db)
        (usage_logs db ++ [mkLog last_id uid act url fmt qual now st err])).

End Db.

(** ** The fetch-and-assemble pipeline *)

Module Pipeline.
Import Provider Url.

(** *** [os.path] and [str] helpers *)

Fixpoint rfind_from (c : ascii) (i : Z) (s : string) (found : Z) : Z :=
  match s with
  | EmptyString => found
  | String a s' => rfind_from c (i + 1) s' (if Ascii.eqb a c then i else found)
  end.

(** [s.rfind(c)]: the last index of [c] in [s], or [-1]. *)
Definition rfind (c : ascii) (s : string) : Z := rfind_from c 0 s (-1).

Fixpoint all_dots (s : string) : bool :=
  match s with
  | EmptyString => true
  | String a s' => Ascii.eqb a "." && all_dots s'
  end.

(** [os.path.splitext(p)]: split at the last dot of the last component,
    unless only dots come before it in that component. *)
Definition splitext (p : string) : string * string :=
  let sepIndex := rfind "/" p in
  let dotIndex := rfind "." p in
  if (sepIndex <? dotIndex)
     && negb (all_dots (stake (Z.to_nat (dotIndex - (sepIndex + 1)))
                              (sdrop (Z.to_nat (sepIndex + 1)) p)))
  then (stake (Z.to_nat dotIndex) p, sdrop (Z.to_nat dotIndex) p)
  else (p, "").

Definition lower_char (c : ascii) : ascii :=
  let n := nat_of_ascii c in
  if (65 <=? n)%nat && (n <=? 90)%nat then ascii_of_nat (n + 32) else c.

(** [s.lower()] *)
Fixpoint lower (s : string) : string :=
  match s with
  | EmptyString => EmptyString
  | String c s' => String (lower_char c) (lower s')
  end.

Fixpoint ends_with_slash (s : string) : bool :=
  match s with
  | EmptyString => false
  | String c EmptyString => Ascii.eqb c "/"
  | String _ s' => ends_with_slash s'
  end.

(** [os.path.join(a, b)] *)
Definition os_path_join (a b : string) : string :=
  match b with
  | String "/" _ => b
  | _ => if String.eqb a "" || ends_with_slash a then a +:+ b else a +:+ "/" +:+ b
  end.

(** [f"{x}"] for [x] a [str] or [None]. *)
Definition str_opt (x : option string) : string := default "None" x.

(** *** The state the pipeline acts on *)

Record world : Type := mkWorld {
  files : gset string;
  dirs : gset string;
  db : Db.database
}.

(** A computation that may raise, over the world. *)
Definition M (A : Type) : Type := world → res A * world.

Global Instance M_ret : MRet M := λ A a w, (Ok a, w).
Global Instance M_bind : MBind M := λ A B f m w,
  match m w with
  | (Ok a, w') => f a w'
  | (Raise e, w') => (Raise e, w')
  end.

Definition raise {A : Type} (e : exn) : M A := λ w, (Raise e, w).

Definition lift {A : Type} (r : res A) : M A := λ w, (r, w).

(** [try: m except Exception as e: h e] *)
Definition try_except {A : Type} (m : M A) (h : exn → M A) : M A := λ w,
  match m w with
  | (Ok a, w') => (Ok a, w')
  | (Raise e, w') => h e w'
  end.

(** [f] is inside directory [d]. *)
Definition inside (d f : string) : bool :=
  match strip_prefix (d +:+ "/") f with
  | Some _ => true
  | None => false
  end.

(** [os.remove(path)] *)
Definition os_remove (path : string) : M () := λ w,
  if bool_decide (path ∈ files w)
  then (Ok (), mkWorld (files w ∖ {[path]}) (dirs w) (db w))
  else (Raise (FileNotFoundError path), w).

(** [shutil.rmtree(d)]: the directory goes with everything inside it. *)
Definition rmtree (d : string) : M () := λ w,
  if bool_decide (d ∈ dirs w)
  then (Ok (), mkWorld (filter (λ f, inside d f = false) (files w))
                       (filter (λ f, inside d f = false) (dirs w ∖ {[d]}))
                       (db w))
  else (Raise (FileNotFoundError d), w).

Definition update_log_status (log_id : Z) (status error_message : string)
    : M () := λ w,
  (Ok (), mkWorld (files w) (dirs w)
                  (Db.update_log_status log_id status error_message (db w))).

(** *** The collaborators *)

Record env : Type := mkEnv {
  (** the ranks behind [order_by] *)
  rank : string → Z;
  (** [YouTube(url, use_po_token=True, client="WEB")] *)
  YouTube_new : string → res YouTube;
  (** the directory [tempfile.mkdtemp()] creates *)
  mkdtemp_name : string;
  (** the exception a download of this stream ends in, if any *)
  download_error : Stream → option exn;
  (** the exit status of [ffmpeg -y -i video -i audio -c:v copy -c:a aac output] *)
  ffmpeg_returncode : string → string → string → Z;
  (** the exception [AudioSegment.from_file(path)] raises, if any *)
  from_file_error : string → option exn;
  (** the exception [audio.export(path, format="mp3")] raises, if any *)
  export_error : string → option exn
}.

Section WithEnv.
Variable E : env.

Definition mkdtemp : M string := λ w,
  (Ok (mkdtemp_name E),
   mkWorld (files w) ({[mkdtemp_name E]} ∪ dirs w) (db w)).

(** [stream.download(output_path=dir, filename_prefix=prefix)]: the file
    is written under its default name and its path returned. *)
Definition download (s : Stream) (dir prefix : string) : M string := λ w,
  match download_error E s with
  | Some e => (Raise e, w)
  | None =>
      let path := os_path_join dir (prefix +:+ default_filename s) in
      (Ok path, mkWorld ({[path]} ∪ files w) (dirs w) (db w))
  end.

(** [subprocess.run(cmd, capture_output=True, check=True)]: ffmpeg needs
    its two inputs, refuses an output that is one of them, and a non-zero
    exit status raises. *)
Definition merge_video_audio (video_file audio_file output_file : string)
    : M () := λ w,
  if bool_decide (video_file ∈ files w) && bool_decide (audio_file ∈ files w)
     && negb (String.eqb output_file video_file)
     && negb (String.eqb output_file audio_file)
     && (ffmpeg_returncode E video_file audio_file output_file =? 0)
  then (Ok (), mkWorld ({[output_file]} ∪ files w) (dirs w) (db w))
  else (Raise (CalledProcessError "ffmpeg returned non-zero exit status"), w).

Definition from_file (path : string) : M () := λ w,
  if bool_decide (path ∈ files w) then
    match from_file_error E path with
    | Some e => (Raise e, w)
    | None => (Ok (), w)
    end
  else (Raise (FileNotFoundError path), w).

Definition export (path : string) : M () := λ w,
  match export_error E path with
  | Some e => (Raise e, w)
  | None => (Ok (), mkWorld ({[path]} ∪ files w) (dirs w) (db w))
  end.

Definition convert_to_mp3 (file_path : string) : M string :=
  let '(base, ext) := splitext file_path in
  if negb (String.eqb (lower ext) ".mp3") then
    try_except
      (from_file file_path;;
       let mp3_path := base +:+ ".mp3" in
       export mp3_path;;
       os_remove file_path;;
       mret mp3_path)
      (λ e, mret file_path)
  else mret file_path.

Definition stream_missing (itag : Z) : string :=
  "Stream dengan itag " +:+ str_of_Z itag +:+ " tidak tersedia".

(** The body of the [try] block of [download_youtube]. *)
Definition download_youtube_body (url : string) (itag : Z)
    (format_type : string) (log_id : Z) (ptype : string)
    : M (option string * option string) :=
  let video_id := extract_video_id url in
  yt ← lift (YouTube_new E url);
  temp_dir ← mkdtemp;
  if String.eqb format_type "video" && String.eqb ptype "adapt" then
    l ← lift (streams yt);
    match get_by_itag itag l with
    | None =>
        update_log_status log_id "failed" (stream_missing itag);;
        rmtree temp_dir;;
        mret (None, None)
    | Some video_stream =>
        video_path ← download video_stream temp_dir "video_";
        match first (desc (order_by (rank E) abr (only_audio l))) with
        | None =>
            update_log_status log_id "failed"
              "Audio stream tidak tersedia untuk penggabungan adaptive video";;
            rmtree temp_dir;;
            mret (None, None)
        | Some audio_stream =>
            audio_path ← download audio_stream temp_dir "audio_";
            t ← lift (title yt);
            let output_path :=
              os_path_join temp_dir (t +:+ "_" +:+ str_opt video_id +:+ ".mp4") in
            merge_video_audio video_path audio_path output_path;;
            os_remove video_path;;
            os_remove audio_path;;
            update_log_status log_id "completed" "";;
            mret (Some output_path, Some temp_dir)
        end
    end
  else
    l ← lift (streams yt);
    match get_by_itag itag l with
    | None =>
        update_log_status log_id "failed" (stream_missing itag);;
        rmtree temp_dir;;
        mret (None, None)
    | Some stream =>
        file_path ← download stream temp_dir "";
        file_path ← (if String.eqb format_type "audio"
                     then convert_to_mp3 file_path
                     else mret file_path);
        update_log_status log_id "completed" "";;
        mret (Some file_path, Some temp_dir)
    end.

(** [download_youtube]: both handlers log the failure and return
    [(None, None)], so nothing is raised to the caller. *)
Definition download_youtube (url : string) (itag : Z) (format_type : string)
    (user_id log_id : Z) (ptype : string) (w : world)
    : (option string * option string) * world :=
  match download_youtube_body url itag format_type log_id ptype w with
  | (Ok r, w') => (r, w')
  | (Raise (VideoUnavailable _ as e), w') =>
      ((None, None),
       snd (update_log_status log_id "failed"
              ("Video tidak tersedia: " +:+ str_exn e) w'))
  | (Raise e, w') =>
      ((None, None),
       snd (update_log_status log_id "failed"
              ("Error mengunduh video: " +:+ str_exn e) w'))
  end.
End WithEnv.

(** What [tempfile.mkdtemp()] guarantees of the directory it is about to
    create: a proper directory path that does not exist yet, so that no
    file is inside it. *)
Definition fresh_workspace (E : env) (w : world) : Prop :=
  mkdtemp_name E ≠ "" ∧ ends_with_slash (mkdtemp_name E) = false
  ∧ (mkdtemp_name E ∉ dirs w)
  ∧ ∀ f, f ∈ files w → inside (mkdtemp_name E) f = false.

(** What the [try] block of [download_youtube] leaves behind, by the way
    it ends. *)
Definition body_outcome (E : env) (log_id : Z) (w : world)
    (r : res (option string * option string) * world) : Prop :=
  match r with
  | (Raise e, w') =>
      db w' = db w
      ∨ ∃ m, db w' = Db.update_log_status log_id "failed" m (db w)
  | (Ok (None, None), w') =>
      ∃ m, m ≠ "" ∧ db w' = Db.update_log_status log_id "failed" m (db w)
  | (Ok (Some p, Some d), w') =>
      d = mkdtemp_name E ∧ p ∈ files w' ∧ d ∈ dirs w'
      ∧ db w' = Db.update_log_status log_id "completed" "" (db w)
  | (Ok _, _) => False
  end.

End Pipeline.

(** ** The chat handlers *)

Module Bot.
Import Provider Url Catalog.

(** *** Python helpers *)

(** The newline character. *)
Definition nl : string := String (ascii_of_nat 10) EmptyString.

(** [s.split(sep)] for a one-character separator. *)
Fixpoint split (sep : ascii) (s : string) : list string :=
  match s with
  | EmptyString => [EmptyString]
  | String c s' =>
      if Ascii.eqb c sep then EmptyString :: split sep s'
      else
        match split sep s' with
        | h :: t => String c h :: t
        | [] => [String c EmptyString]
        end
  end.

(** [l[i]]: an index out of range raises [IndexError]. *)
Definition item (l : list string) (i : nat) : res string :=
  match l !! i with
  | Some x => Ok x
  | None => Raise (OtherException "list index out of range")
  end.

(** [needle in s] *)
Fixpoint contains (needle s : string) : bool :=
  match strip_prefix needle s with
  | Some _ => true
  | None =>
      match s with
      | EmptyString => false
      | String _ s' => contains needle s'
      end
  end.

(** A byte that continues a UTF-8 character. *)
Definition is_continuation (c : ascii) : bool :=
  (128 <=? nat_of_ascii c)%nat && (nat_of_ascii c <? 192)%nat.

(** [s[:n]], counting characters: the bytes before character number [n]. *)
Fixpoint take_chars (n : nat) (s : string) : string :=
  match s with
  | EmptyString => EmptyString
  | String c s' =>
      if is_continuation c then String c (take_chars n s')
      else
        match n with
        | O => EmptyString
        | S n' => String c (take_chars n' s')
        end
  end.

(** [bool(s)] for a string. *)
Definition nonempty (s : string) : bool := negb (String.eqb s "").

(** *** Telegram *)

(** [telegram.User]: the attributes the handlers read. *)
Record User : Type := mkUser {
  id : Z;
  username : option string;
  first_name : string;
  last_name : option string
}.

Record InlineKeyboardButton : Type := mkButton {
  text : string;
  callback_data : string
}.

Abbreviation InlineKeyboardMarkup := (list (list InlineKeyboardButton)).

(** The calls the handlers make on the transport. *)
Inductive call : Type :=
| reply_text (text : string) (reply_markup : option InlineKeyboardMarkup)
    (parse_mode : option string)
| answer
| edit_message_text (text : string) (reply_markup : option InlineKeyboardMarkup)
    (parse_mode : option string)
| send_audio (chat_id : Z) (audio : string) (caption : string)
| send_video (chat_id : Z) (video : string) (caption : string).

(** *** State and collaborators *)

Record world : Type := mkWorld {
  (** the files, the directories and the usage store *)
  disk : Pipeline.world;
  (** the catalog builder's calls to the provider, and the time slept *)
  net : Retry.world;
  (** how many times the clock was read *)
  ticks : nat;
  (** the transport calls that went through, oldest first *)
  outbox : list call;
  (** how many transport calls were made *)
  attempts : nat
}.

Record env : Type := mkEnv {
  (** the collaborators of a download *)
  pipeline : Pipeline.env;
  (** [YouTube(url, ...)] on the catalog builder's call number [n] *)
  provider : nat → string → res YouTube;
  (** [datetime.now(WIB).strftime("%Y-%m-%d %H:%M:%S")] on reading
      number [n] of the clock *)
  now : nat → string;
  (** the exception transport call number [n] ends in, if any (a network
      error, a refused upload, the one-hour timeout of [wait_for]) *)
  transport_error : nat → call → option exn;
  (** [int(s)] *)
  int : string → res Z;
  (** [s.capitalize()] *)
  capitalize : string → string;
  (** [escape_markdown(s, version=2)] *)
  escape_markdown : string → string
}.

(** A computation that may raise, over the world. *)
Definition M (A : Type) : Type := world → res A * world.

Global Instance M_ret : MRet M := λ A a w, (Ok a, w).
Global Instance M_bind : MBind M := λ A B f m w,
  match m w with
  | (Ok a, w') => f a w'
  | (Raise e, w') => (Raise e, w')
  end.

Definition lift {A : Type} (r : res A) : M A := λ w, (r, w).

(** [try: m except Exception as e: h e] *)
Definition try_except {A : Type} (m : M A) (h : exn → M A) : M A := λ w,
  match m w with
  | (Ok a, w') => (Ok a, w')
  | (Raise e, w') => h e w'
  end.

Definition with_db (f : Db.database → Db.database) (w : world) : world :=
  mkWorld (Pipeline.mkWorld (Pipeline.files (disk w)) (Pipeline.dirs (disk w))
                            (f (Pipeline.db (disk w))))
          (net w) (ticks w) (outbox w) (attempts w).

Section WithEnv.
Variable E : env.

(** A call on the transport: it goes through or raises. *)
Definition transport (c : call) : M () := λ w,
  match transport_error E (attempts w) c with
  | Some e =>
      (Raise e, mkWorld (disk w) (net w) (ticks w) (outbox w) (S (attempts w)))
  | None =>
      (Ok (), mkWorld (disk w) (net w) (ticks w) (outbox w ++ [c])
                      (S (attempts w)))
  end.

(** [save_user]; the clock is read only for a new user. *)
Definition save_user (user : User) : M () := λ w,
  let db := Pipeline.db (disk w) in
  match List.filter (λ u, Db.user_id u =? id user) (Db.users db) with
  | [] =>
      (Ok (),
       mkWorld (Pipeline.mkWorld
                  (Pipeline.files (disk w)) (Pipeline.dirs (disk w))
                  (Db.save_user (id user) (username user)
                     (Some (first_name user)) (last_name user)
                     (now E (ticks w)) db))
               (net w) (S (ticks w)) (outbox w) (attempts w))
  | _ :: _ => (Ok (), w)
  end.

Definition log_usage (user_id : Z) (action video_url format quality : string)
    : M Z := λ w,
  let '(last_id, db') :=
    Db.log_usage user_id action video_url format quality (now E (ticks w))
                 "started" "" (Pipeline.db (disk w)) in
  (Ok last_id,
   mkWorld (Pipeline.mkWorld (Pipeline.files (disk w)) (Pipeline.dirs (disk w)) db')
           (net w) (S (ticks w)) (outbox w) (attempts w)).

Definition update_log_status (log_id : Z) (status error_message : string)
    : M () := λ w,
  (Ok (), with_db (Db.update_log_status log_id status error_message) w).

Definition get_user_stats : M Db.stats := λ w,
  (Ok (Db.get_user_stats (Pipeline.db (disk w))), w).

Definition get_video_info_with_retry (url : string) (retries : Z) : M info := λ w,
  let '(r, net') :=
    Retry.get_video_info_with_retry (Pipeline.rank (pipeline E)) (provider E)
                                    url retries (net w) in
  (r, mkWorld (disk w) net' (ticks w) (outbox w) (attempts w)).

Definition get_video_info_by_id (video_id : string) : M info :=
  get_video_info_with_retry ("https://youtu.be/" +:+ video_id) 3.

Definition download_youtube (url : string) (itag : Z) (format_type : string)
    (user_id log_id : Z) (ptype : string) : M (option string * option string) :=
  λ w,
  let '(r, disk') :=
    Pipeline.download_youtube (pipeline E) url itag format_type user_id log_id
                              ptype (disk w) in
  (Ok r, mkWorld disk' (net w) (ticks w) (outbox w) (attempts w)).

(** [open(path, 'rb')] *)
Definition open_rb (path : string) : M () := λ w,
  if bool_decide (path ∈ Pipeline.files (disk w)) then (Ok (), w)
  else (Raise (FileNotFoundError path), w).

Definition os_remove (path : string) : M () := λ w,
  let '(r, disk') := Pipeline.os_remove path (disk w) in
  (r, mkWorld disk' (net w) (ticks w) (outbox w) (attempts w)).

Definition rmtree (d : string) : M () := λ w,
  let '(r, disk') := Pipeline.rmtree d (disk w) in
  (r, mkWorld disk' (net w) (ticks w) (outbox w) (attempts w)).

(** [os.path.exists(path)] *)
Definition os_path_exists (path : string) (w : world) : bool :=
  bool_decide (path ∈ Pipeline.dirs (disk w))
  || bool_decide (path ∈ Pipeline.files (disk w)).

(** *** [/start] *)

Definition start_command (user : User) : M () :=
  try_except
    (save_user user;;
     log_usage (id user) "start" "" "" "";;
     transport (reply_text
       ("Halo " +:+ first_name user
        +:+ "! Selamat datang di YouTube Downloader Bot." +:+ nl +:+ nl
        +:+ "Silakan kirim URL video YouTube untuk mengunduh video atau audio.")
       None None))
    (λ e, transport (reply_text
       "Terjadi kesalahan saat memulai bot. Silakan coba lagi." None None)).

(** *** [/stats] *)

Definition ADMIN_IDS : list Z := [1390557485].

Definition top_user_line (i : nat) (row : option string * nat) : string :=
  let username :=
    match fst row with
    | Some u => if nonempty u then u else "Tanpa Username"
    | None => "Tanpa Username"
    end in
  str_of_Z (Z.of_nat i) +:+ ". " +:+ username +:+ ": "
  +:+ str_of_Z (Z.of_nat (snd row)) +:+ " unduhan" +:+ nl.

Definition error_line (row : string * string * string * string) : string :=
  let '(action, url, error, timestamp) := row in
  let vid := if nonempty url then Pipeline.str_opt (extract_video_id url) else "N/A" in
  "• [" +:+ timestamp +:+ "] " +:+ action +:+ ": " +:+ vid +:+ " - "
  +:+ take_chars 50 error +:+ "..." +:+ nl.

Definition stats_message (stats : Db.stats) : string :=
  "📊 *Statistik Bot*" +:+ nl +:+ nl
  +:+ "👥 Total Pengguna: " +:+ str_of_Z (Z.of_nat (Db.total_users stats)) +:+ nl
  +:+ "⬇️ Total Unduhan: " +:+ str_of_Z (Z.of_nat (Db.total_downloads stats))
  +:+ nl +:+ nl
  +:+ "🏆 *Pengguna Teratas*:" +:+ nl
  +:+ String.concat "" (imap (λ i row, top_user_line (S i) row) (Db.top_users stats))
  +:+ nl +:+ "❌ *Error Terbaru*:" +:+ nl
  +:+ String.concat "" (map error_line (Db.recent_errors stats)).

Definition stats_command (user : User) : M () :=
  try_except
    (if negb (bool_decide (id user ∈ ADMIN_IDS)) then
       transport (reply_text
         "Maaf, Anda tidak memiliki izin untuk mengakses statistik." None None)
     else
       log_usage (id user) "stats" "" "" "";;
       stats ← get_user_stats;
       transport (reply_text (escape_markdown E (stats_message stats))
                             None (Some "MarkdownV2")))
    (λ e, transport (reply_text
       "Terjadi kesalahan saat mengambil statistik. Silakan coba lagi."
       None None)).

(** *** A message with a URL *)

Definition format_keyboard (vid_id : option string) : InlineKeyboardMarkup :=
  [ [mkButton "🎵 Audio" ("option|" +:+ Pipeline.str_opt vid_id +:+ "|audio")];
    [mkButton "🎬 Video" ("option|" +:+ Pipeline.str_opt vid_id +:+ "|video")];
    [mkButton "❌ Batal" "cancel"] ].

Definition url_handler (user : User) (message_text : string) : M () :=
  let url := message_text in
  log_id ← log_usage (id user) "url_check" url "" "";
  try_except
    (if negb (is_valid_youtube_url url) then
       update_log_status log_id "invalid_url" "URL tidak valid";;
       transport (reply_text
         ("❌ URL tidak valid. Harap kirim URL YouTube yang valid." +:+ nl
          +:+ "Contoh: https://youtube.com/watch?v=xxxx atau https://youtu.be/xxxx")
         None None)
     else
       transport (reply_text
         "🔍 Mengambil informasi video... Mohon tunggu sebentar." None None);;
       video_info ← get_video_info_with_retry url 3;
       match video_info with
       | InfoNone =>
           update_log_status log_id "failed_to_get_info"
             "Tidak dapat mengambil informasi video";;
           transport (reply_text
             "❌ Gagal mendapatkan informasi video. Silakan coba lagi nanti atau gunakan URL lain."
             None None)
       | InfoError error =>
           update_log_status log_id "error_getting_info" error;;
           transport (reply_text
             ("❌ Error: " +:+ error +:+ nl +:+ nl
              +:+ "Silakan coba URL video lain.")
             None None)
       | InfoCatalog c =>
           update_log_status log_id "info_retrieved" "";;
           let vid_id := extract_video_id url in
           transport (reply_text
             ("📹 *" +:+ c_title c +:+ "*" +:+ nl +:+ nl
              +:+ "👤 *Channel*: " +:+ c_author c +:+ nl
              +:+ "⏱️ *Durasi*: " +:+ str_of_Z (duration c) +:+ " detik"
              +:+ nl +:+ nl
              +:+ "Pilih format yang diinginkan:")
             (Some (format_keyboard vid_id)) (Some "Markdown"))
       end)
    (λ e,
       update_log_status log_id "unexpected_error"
         ("Error tidak terduga: " +:+ str_exn e);;
       transport (reply_text
         ("❌ Terjadi kesalahan yang tidak terduga. Silakan coba lagi nanti."
          +:+ nl +:+ "Jika masalah berlanjut, hubungi admin bot.")
         None None)).

(** *** A button press *)

Definition cancel_row : list InlineKeyboardButton :=
  [mkButton "❌ Batal" "cancel"].

Definition audio_row (vid_id : string) (audio : StreamOption)
    : list InlineKeyboardButton :=
  [mkButton
     ("🎵 Audio " +:+ quality audio +:+ " (" +:+ extension audio +:+ ")")
     ("download|" +:+ vid_id +:+ "|" +:+ str_of_Z (o_itag audio)
      +:+ "|audio|" +:+ quality audio)].

Definition video_row (vid_id : string) (video : StreamOption)
    : list InlineKeyboardButton :=
  [mkButton
     ("🎬 " +:+ quality video +:+ " (" +:+ default "prog" (ptype video) +:+ ")")
     ("download|" +:+ vid_id +:+ "|" +:+ str_of_Z (o_itag video)
      +:+ "|video|" +:+ quality video +:+ "|" +:+ default "prog" (ptype video))].

Definition option_keyboard (vid_id choice : string) (c : VideoCatalog)
    : InlineKeyboardMarkup :=
  (if String.eqb choice "audio" then map (audio_row vid_id) (audio_options c)
   else if String.eqb choice "video" then map (video_row vid_id) (video_options c)
   else [])
  ++ [cancel_row].

(** The upload of the finished file and the cleanup that follows it: the
    body of the inner [try]. *)
Definition send_and_clean (user : User) (format_type quality file_path : string)
    (temp_dir : option string) : M () :=
  (if String.eqb format_type "audio" then
     open_rb file_path;;
     transport (send_audio (id user) file_path ("🎵 Audio " +:+ quality))
   else
     open_rb file_path;;
     transport (send_video (id user) file_path ("🎬 Video " +:+ quality)));;
  os_remove file_path;;
  (λ w,
     match temp_dir with
     | Some d => if nonempty d && os_path_exists d w then rmtree d w
                 else (Ok (), w)
     | None => (Ok (), w)
     end);;
  transport (edit_message_text
    "✅ File berhasil dikirim! Kirim URL lain untuk mengunduh video/audio lainnya."
    None None).

(** The handler of the inner [try]. *)
Definition delivery_failed (log_id : Z) (e : exn) : M () :=
  update_log_status log_id "failed_to_send"
    ("Error mengirim file: " +:+ str_exn e);;
  if contains "Request Entity Too Large" (str_exn e) then
    transport (edit_message_text
      ("❌ File terlalu besar untuk dikirim melalui Telegram (batas 50MB)."
       +:+ nl +:+ "Coba pilih kualitas yang lebih rendah.")
      None None)
  else
    transport (edit_message_text
      ("❌ Pengunduhan berhasil, tetapi gagal mengirim file."
       +:+ nl +:+ "Silakan coba lagi nanti atau pilih format lain.")
      None None).

Definition deliver (user : User) (format_type quality file_path : string)
    (temp_dir : option string) (log_id : Z) : M () :=
  try_except (send_and_clean user format_type quality file_path temp_dir)
             (delivery_failed log_id).

(** The download branch, from the parsed fields on. *)
Definition download_request (user : User) (vid_id : string) (itag : Z)
    (format_type quality ptype : string) : M () :=
  let url := "https://youtu.be/" +:+ vid_id in
  log_id ← log_usage (id user) "download" url format_type quality;
  transport (edit_message_text
    ("⬇️ Mengunduh "
     +:+ (if String.eqb format_type "audio" then "audio" else "video")
     +:+ " dengan kualitas " +:+ quality +:+ "..." +:+ nl
     +:+ "Proses ini mungkin memerlukan waktu beberapa saat.")
    None None);;
  '(file_path, temp_dir) ←
    download_youtube url itag format_type (id user) log_id ptype;
  match file_path with
  | Some p =>
      if nonempty p then
        transport (edit_message_text
          "✅ Pengunduhan selesai! Mengirim file..." None None);;
        deliver user format_type quality p temp_dir log_id
      else
        transport (edit_message_text
          "❌ Gagal mengunduh file. Silakan coba format lain atau URL video yang berbeda."
          None None)
  | None =>
      transport (edit_message_text
        "❌ Gagal mengunduh file. Silakan coba format lain atau URL video yang berbeda."
        None None)
  end.

Definition button_handler (user : User) (query_data : string) : M () :=
  try_except
    (transport answer;;
     let data := split "|" query_data in
     d0 ← lift (item data 0);
     if String.eqb d0 "cancel" then
       transport (edit_message_text
         "❌ Operasi dibatalkan. Kirim URL YouTube lain untuk mencoba lagi."
         None None)
     else if String.eqb d0 "option" then
       vid_id ← lift (item data 1);
       choice ← lift (item data 2);
       video_info ← get_video_info_by_id vid_id;
       match video_info with
       | InfoNone | InfoError _ =>
           transport (edit_message_text
             "❌ Gagal mengambil opsi. Silakan coba URL lain." None None)
       | InfoCatalog c =>
           transport (edit_message_text
             ("📹 *" +:+ c_title c +:+ "*" +:+ nl +:+ nl
              +:+ "Pilih opsi " +:+ capitalize E choice +:+ ":")
             (Some (option_keyboard vid_id choice c)) (Some "Markdown"))
       end
     else if String.eqb d0 "download" then
       vid_id ← lift (item data 1);
       itag_text ← lift (item data 2);
       itag ← lift (int E itag_text);
       format_type ← lift (item data 3);
       quality ← lift (item data 4);
       ptype ← (if (5 <? List.length data)%nat then lift (item data 5)
                else mret "prog");
       download_request user vid_id itag format_type quality ptype
     else mret ())
    (λ e,
       try_except
         (transport (edit_message_text
            ("❌ Terjadi kesalahan yang tidak terduga." +:+ nl
             +:+ "Silakan kirim URL video lain atau hubungi admin bot.")
            None None))
         (λ _, mret ())).
End WithEnv.

(** The states of the row a download request logs, in the store [db0] the
    request found. *)
Definition download_row (db0 : Db.database) (user_id : Z)
    (url format quality now : string) (db : Db.database) : Prop :=
  ∃ st err,
    db = Db.mkDb (Db.users db0)
           (Db.usage_logs db0
            ++ [Db.mkLog (Db.next_id db0) user_id "download" url format quality
                  now st err])
    ∧ st ∈ ["started"; "completed"; "failed"; "failed_to_send"].

End Bot.

(** ** Concrete runs *)

Module Scenario.
Import Provider Catalog.

(** The streams of the specification's scenario for
    [https://youtu.be/abc123]: two audio tracks, a progressive 720p, and
    adaptive 720p and 1080p. *)
Definition streams : list Stream :=
  [ mkStream 140 audio false (Some "160kbps") None "mp4" "clip.m4a";
    mkStream 139 audio false (Some "128kbps") None "mp4" "clip.m4a";
    mkStream 22 video true (Some "192kbps") (Some "720p") "mp4" "clip.mp4";
    mkStream 136 video false None (Some "720p") "mp4" "clip.mp4";
    mkStream 137 video false None (Some "1080p") "mp4" "clip.mp4" ].

Definition yt : YouTube :=
  mkYouTube (Ok streams) (Ok "clip") (Ok "https://i.ytimg.com/vi/abc123/0.jpg")
            (Ok 212) (Ok "channel").

(** The catalog the specification expects for it. *)
Definition catalog : VideoCatalog :=
  mkCatalog "clip" "https://i.ytimg.com/vi/abc123/0.jpg" 212 "channel"
    [ mkOption 140 "audio" "160kbps" "mp4" None;
      mkOption 139 "audio" "128kbps" "mp4" None ]
    [ mkOption 22 "video" "720p" "mp4" (Some "prog");
      mkOption 137 "video" "1080p" "mp4" (Some "adapt") ].

(** A provider that is unavailable on its first [n] calls and serves the
    scenario's video afterwards. *)
Definition flaky (n : nat) (call : nat) (url : string) : res YouTube :=
  if (call <? n)%nat then Raise (VideoUnavailable "abc123 is unavailable")
  else Ok yt.


(** A usage store: two users; the first has one completed and one failed
    download, the second two completed downloads. *)
Definition store : Db.database :=
  Db.mkDb
    [ Db.mkUser 11 (Some "ani") (Some "Ani") None "2025-01-01 10:00:00";
      Db.mkUser 12 None (Some "Budi") None "2025-01-02 10:00:00" ]
    [ Db.mkLog 1 11 "start" "" "" "" "2025-01-01 10:00:00" "started" "";
      Db.mkLog 2 11 "download" "https://youtu.be/abc123" "video" "720p"
        "2025-01-01 10:01:00" "completed" "";
      Db.mkLog 3 11 "download" "https://youtu.be/abc123" "video" "1080p"
        "2025-01-01 10:02:00" "failed" "Error mengunduh video: ffmpeg";
      Db.mkLog 4 12 "download" "https://youtu.be/abc123" "audio" "128kbps"
        "2025-01-02 10:01:00" "completed" "";
      Db.mkLog 5 12 "download" "https://youtu.be/abc123" "audio" "160kbps"
        "2025-01-02 10:02:00" "completed" "" ].

(** The collaborators of a download: the scenario's video, a temporary
    directory, downloads that go through; [ffmpeg_status] is the exit
    status of the muxer and [pydub_error] what the audio decoder raises. *)
Definition collaborators (ffmpeg_status : Z) (pydub_error : option exn)
    : Pipeline.env :=
  Pipeline.mkEnv digit_rank (λ _, Ok yt) "/tmp/tmpk3v9x_1a" (λ _, None)
    (λ _ _ _, ffmpeg_status) (λ _, pydub_error) (λ _, None).

(** No file yet, and the row [log_usage] has just written for the job. *)
Definition world0 : Pipeline.world :=
  Pipeline.mkWorld ∅ ∅
    (Db.mkDb [Db.mkUser 11 (Some "ani") (Some "Ani") None "2025-01-01 10:00:00"]
             [Db.mkLog 7 11 "download" "https://youtu.be/abc123" "video" "1080p"
                "2025-01-01 10:01:00" "started" ""]).

(** A video with no audio-only stream, and the collaborators of a download
    of it. *)
Definition silent_yt : YouTube :=
  mkYouTube (Ok [mkStream 137 video false None (Some "1080p") "mp4" "clip.mp4"])
            (Ok "clip") (Ok "https://i.ytimg.com/vi/abc123/0.jpg")
            (Ok 212) (Ok "channel").

Definition silent : Pipeline.env :=
  Pipeline.mkEnv digit_rank (λ _, Ok silent_yt) "/tmp/tmpk3v9x_1a" (λ _, None)
    (λ _ _ _, 0) (λ _, None) (λ _, None).

(** The scenario's video under a title that starts with a slash, and the
    collaborators of a download of it: the downloads go through and the
    muxer exits with status 0. *)
Definition slash_yt : YouTube :=
  mkYouTube (Ok streams) (Ok "/clip") (Ok "https://i.ytimg.com/vi/abc123/0.jpg")
            (Ok 212) (Ok "channel").

Definition slash : Pipeline.env :=
  Pipeline.mkEnv digit_rank (λ _, Ok slash_yt) "/tmp/tmpk3v9x_1a" (λ _, None)
    (λ _ _ _, 0) (λ _, None) (λ _, None).




(** [int(s)] on the decimal literals the buttons carry. *)
Definition decimal (s : string) : res Z :=
  match NilZero.int_of_string s with
  | Some d => Ok (Z.of_int d)
  | None =>
      Raise (OtherException
               ("invalid literal for int() with base 10: '" +:+ s +:+ "'"))
  end.

(** The collaborators of the handlers: the provider serves the scenario's
    video, the clock stands still, and every call on the transport ends
    in [refused], or goes through when that is [None]. The two text
    helpers are the identity. *)
Definition handlers (refused : option exn) : Bot.env :=
  Bot.mkEnv (collaborators 0 None) (flaky 0) (λ _, "2025-01-03 10:00:00")
            (λ _ _, refused) decimal (λ s, s) (λ s, s).

Definition ani : Bot.User := Bot.mkUser 11 (Some "ani") "Ani" None.

Definition admin : Bot.User := Bot.mkUser 1390557485 (Some "admin") "Admin" None.

(** A chat that starts on the usage store [store], with nothing on disk. *)
Definition chat0 : Bot.world :=
  Bot.mkWorld (Pipeline.mkWorld ∅ ∅ store) (Retry.mkWorld 0 0) 0 [] 0.

(** The chat after a download: the file waits in its workspace. *)
Definition downloaded : Bot.world :=
  Bot.mkWorld
    (Pipeline.mkWorld {["/tmp/tmpk3v9x_1a/clip.mp4"]} {["/tmp/tmpk3v9x_1a"]} store)
    (Retry.mkWorld 1 0) 1 [] 3.

End Scenario.

(** * Properties *)

(** ** Strings *)

Lemma sapp_nil_l (s : string) : "" +:+ s = s.
Proof. reflexivity. Qed.

Lemma sapp_cons (c : ascii) (s t : string) :
  String c s +:+ t = String c (s +:+ t).
Proof. reflexivity. Qed.

Lemma sapp_nil_r (s : string) : s +:+ "" = s.
Proof. induction s as [|c s IH]; [done|]. by rewrite sapp_cons, IH. Qed.

Lemma sapp_assoc (s t u : string) : (s +:+ t) +:+ u = s +:+ (t +:+ u).
Proof. induction s as [|c s IH]; [done|]. by rewrite !sapp_cons, IH. Qed.

Lemma slength_app (s t : string) :
  String.length (s +:+ t) = (String.length s + String.length t)%nat.
Proof. induction s as [|c s IH]; [done|]. rewrite sapp_cons. simpl. by rewrite IH. Qed.

Lemma sapp_inv_head (s t u : string) : s +:+ t = s +:+ u → t = u.
Proof.
  induction s as [|c s IH]; [done|].
  rewrite !sapp_cons. intros [= H]. auto.
Qed.

Lemma stake_sdrop (n : nat) (s : string) : stake n s +:+ sdrop n s = s.
Proof.
  revert s. induction n as [|n IH]; intros [|c s]; simpl; try done.
  by rewrite sapp_cons, IH.
Qed.

Lemma stake_app (p rest : string) : stake (String.length p) (p +:+ rest) = p.
Proof.
  induction p as [|c p IH]; [done|].
  rewrite sapp_cons. simpl. by rewrite IH.
Qed.

(** ** The matcher against the language of a pattern *)

Section UrlFacts.
Import Url.

Lemma strip_prefix_spec (lit s s' : string) :
  strip_prefix lit s = Some s' ↔ s = lit +:+ s'.
Proof.
  revert s. induction lit as [|a lit IH]; intros s; simpl.
  - rewrite sapp_nil_l. split; [by intros [= ->] | by intros ->].
  - rewrite sapp_cons. destruct s as [|b s]; [done|].
    destruct (Ascii.eqb_spec a b) as [->|Hne].
    + rewrite IH. split; [by intros -> | by intros [= ->]].
    + split; [done | intros [= -> _]; done].
Qed.

Lemma run_plus_inv (p : ascii → bool) (s : string)
    (k : string → option captures) (m : captures) :
  run_plus p s k = Some m →
  ∃ x rest, s = x +:+ rest ∧ x ≠ "" ∧ all_chars p x = true ∧ k rest = Some m.
Proof.
  induction s as [|c s IH]; simpl; [done|].
  destruct (p c) eqn:Hc; [|done].
  destruct (run_plus p s k) as [m'|] eqn:Hrec.
  - intros [= ->]. destruct (IH eq_refl) as (x & rest & -> & _ & Hall & Hk).
    exists (String c x), rest. simpl. by rewrite Hc, Hall.
  - intros Hk. exists (String c ""), s. by simpl; rewrite Hc.
Qed.

Lemma run_plus_complete (p : ascii → bool) (x rest : string)
    (k : string → option captures) :
  x ≠ "" → all_chars p x = true → is_Some (k rest) →
  is_Some (run_plus p (x +:+ rest) k).
Proof.
  intros Hx Hall Hk. induction x as [|c x IH]; [done|].
  rewrite sapp_cons. simpl in *.
  apply andb_true_iff in Hall as [Hc Hall]. rewrite Hc.
  destruct x as [|c' x].
  - rewrite sapp_nil_l. by destruct (run_plus p rest k).
  - destruct (IH ltac:(done) Hall) as [m ->]. done.
Qed.

(** Soundness: a successful run consumed a word of the pattern's language
    and got its result from the continuation. *)
Lemma run_inv (r : regex) : ∀ (s : string) (caps : captures)
    (k : string → captures → option captures) (m : captures),
  run r s caps k = Some m →
  ∃ x rest caps', s = x +:+ rest ∧ Matches r x ∧ k rest caps' = Some m.
Proof.
  induction r as [l | r IH | r1 IH1 r2 IH2 | r1 IH1 r2 IH2 | p | i r IH];
    intros s caps k m; simpl.
  - destruct (strip_prefix l s) as [s'|] eqn:Hs; [|done].
    apply strip_prefix_spec in Hs as ->. intros Hk.
    exists l, s', caps. eauto using Matches.
  - destruct (run r s caps k) as [m'|] eqn:Hr.
    + intros [= ->]. destruct (IH _ _ _ _ Hr) as (x & rest & c' & -> & Hm & Hk).
      exists x, rest, c'. eauto using Matches.
    + intros Hk. exists "", s, caps. eauto using Matches.
  - destruct (run r1 s caps k) as [m'|] eqn:Hr.
    + intros [= ->]. destruct (IH1 _ _ _ _ Hr) as (x & rest & c' & -> & Hm & Hk).
      exists x, rest, c'. eauto using Matches.
    + intros Hr2. destruct (IH2 _ _ _ _ Hr2) as (x & rest & c' & -> & Hm & Hk).
      exists x, rest, c'. eauto using Matches.
  - intros Hr. destruct (IH1 _ _ _ _ Hr) as (x1 & rest1 & c1 & -> & Hm1 & Hr2).
    destruct (IH2 _ _ _ _ Hr2) as (x2 & rest & c2 & -> & Hm2 & Hk).
    exists (x1 +:+ x2), rest, c2. rewrite sapp_assoc. eauto using Matches.
  - intros Hr. apply run_plus_inv in Hr as (x & rest & -> & Hx & Hall & Hk).
    exists x, rest, caps. eauto using Matches.
  - intros Hr. destruct (IH _ _ _ _ Hr) as (x & rest & c' & -> & Hm & Hk).
    exists x, rest. eexists. eauto using Matches.
Qed.

(** Completeness: if some word of the language is a prefix after which
    the continuation succeeds, the run succeeds. *)
Lemma run_complete (r : regex) : ∀ (x rest : string) (caps c : captures)
    (k : string → captures → option captures),
  blind k → Matches r x → is_Some (k rest c) →
  is_Some (run r (x +:+ rest) caps k).
Proof.
  induction r as [l | r IH | r1 IH1 r2 IH2 | r1 IH1 r2 IH2 | p | i r IH];
    intros x rest caps c k Hb Hm Hk; simpl.
  - inversion Hm; subst.
    rewrite (proj2 (strip_prefix_spec _ (_ +:+ rest) rest) eq_refl). eauto.
  - inversion Hm; subst.
    + rewrite sapp_nil_l. destruct (run r rest caps k); eauto.
    + destruct (IH _ rest caps c k Hb ltac:(eassumption) Hk) as [m' ->]. done.
  - inversion Hm; subst.
    + destruct (IH1 _ rest caps c k Hb ltac:(eassumption) Hk) as [m' ->]. done.
    + destruct (run r1 (x +:+ rest) caps k); [done|]. eauto.
  - inversion Hm; subst. rewrite sapp_assoc.
    apply IH1 with (c := c); [| done |].
    + intros t c1 c2 [m' Hr].
      apply run_inv in Hr as (x2 & rest2 & c' & -> & Hm2 & Hk2). eauto.
    + eauto.
  - inversion Hm; subst. apply run_plus_complete; eauto.
  - inversion Hm; subst. apply IH with (c := c); [| done |].
    + intros t c1 c2. apply Hb.
    + eauto.
Qed.

Lemma re_match_iff (r : regex) (s : string) :
  is_Some (re_match r s) ↔ ∃ x rest, s = x +:+ rest ∧ Matches r x.
Proof.
  unfold re_match. split.
  - intros [m Hr]. apply run_inv in Hr as (x & rest & _ & -> & Hm & _). eauto.
  - intros (x & rest & -> & Hm).
    apply run_complete with (c := ∅); [by intros ???; eauto | done | eauto].
Qed.

Lemma re_search_of_match (r : regex) (s : string) :
  is_Some (re_match r s) → is_Some (re_search r s).
Proof. intros [m Hm]. destruct s; simpl; rewrite Hm; eauto. Qed.

Lemma re_search_inv (r : regex) (s : string) (m : captures) :
  re_search r s = Some m → ∃ pre t, s = pre +:+ t ∧ re_match r t = Some m.
Proof.
  induction s as [|c s IH]; simpl.
  - destruct (re_match r "") eqn:H; [|done]. intros [= ->]. by exists "", "".
  - destruct (re_match r (String c s)) eqn:H.
    + intros [= ->]. by exists "", (String c s).
    + intros Hs. destruct (IH Hs) as (pre & t & -> & Ht).
      by exists (String c pre), t.
Qed.

(** With nothing after it, a group holds the text its pattern matched. *)
Lemma run_group_last (i : nat) (r : regex) (s : string) (caps m : captures) :
  run (Group i r) s caps (λ _ c, Some c) = Some m →
  ∃ x, group m i = Some x ∧ Matches r x.
Proof.
  simpl. intros Hr.
  apply run_inv in Hr as (x & rest & c' & -> & Hm & [= <-]).
  exists x. split; [|done]. unfold group.
  rewrite slength_app.
  replace (String.length x + String.length rest - String.length rest)%nat
    with (String.length x) by lia.
  by rewrite stake_app, lookup_insert_eq.
Qed.

Lemma run_seq_tail (r1 r2 : regex) (s : string) (caps m : captures)
    (k : string → captures → option captures) :
  run (Seq r1 r2) s caps k = Some m → ∃ s' caps', run r2 s' caps' k = Some m.
Proof.
  simpl. intros Hr. apply run_inv in Hr as (x & rest & c' & _ & _ & Hr2). eauto.
Qed.

Lemma matches_lit (l s : string) : Matches (Lit l) s ↔ s = l.
Proof. split; [by inversion 1 | intros ->; constructor]. Qed.

Lemma matches_opt (r : regex) (s : string) :
  Matches (Opt r) s ↔ s = "" ∨ Matches r s.
Proof.
  split; [inversion 1; subst; eauto | intros [->|?]; eauto using Matches].
Qed.

Lemma matches_alt (r1 r2 : regex) (s : string) :
  Matches (Alt r1 r2) s ↔ Matches r1 s ∨ Matches r2 s.
Proof.
  split; [inversion 1; subst; eauto | intros [?|?]; eauto using Matches].
Qed.

Lemma matches_seq (r1 r2 : regex) (s : string) :
  Matches (Seq r1 r2) s ↔
  ∃ s1 s2, s = s1 +:+ s2 ∧ Matches r1 s1 ∧ Matches r2 s2.
Proof.
  split; [inversion 1; subst; eauto | intros (?&?&->&?&?); eauto using Matches].
Qed.

Lemma matches_plus (p : ascii → bool) (s : string) :
  Matches (ClassPlus p) s ↔ s ≠ "" ∧ all_chars p s = true.
Proof.
  split; [inversion 1; subst; eauto | intros [??]; eauto using Matches].
Qed.

Lemma matches_group (i : nat) (r : regex) (s : string) :
  Matches (Group i r) s ↔ Matches r s.
Proof. split; [by inversion 1 | eauto using Matches]. Qed.

(** [https?://] *)
Lemma matches_scheme (s : string) :
  Matches (Seq (Lit "http") (Seq (Opt (Lit "s")) (Lit "://"))) s ↔
  s = "http://" ∨ s = "https://".
Proof.
  rewrite matches_seq. split.
  - intros (s1 & s2 & -> & H1 & H2).
    apply matches_lit in H1 as ->.
    apply matches_seq in H2 as (t1 & t2 & -> & H2 & H3).
    apply matches_lit in H3 as ->.
    apply matches_opt in H2 as [->|H2]; [by left|].
    apply matches_lit in H2 as ->. by right.
  - intros [->| ->].
    + exists "http", "://". split; [done|]. split; [constructor|].
      apply matches_seq. exists "", "://". eauto using Matches.
    + exists "http", "s://". split; [done|]. split; [constructor|].
      apply matches_seq. exists "s", "://". eauto using Matches.
Qed.

(** Membership in a list literal. *)
Ltac in_list := rewrite ?list_elem_of_In in *; simpl in *; intuition (subst; auto).

(** The three patterns share their shape: scheme, [www.], host, id. *)
Lemma matches_shape (g1 g2 : regex → regex) (host : regex) (g4 : regex → regex)
    (s : string) :
  (∀ r t, Matches (g1 r) t ↔ Matches r t) →
  (∀ r t, Matches (g2 r) t ↔ Matches r t) →
  (∀ r t, Matches (g4 r) t ↔ Matches r t) →
  Matches
    (Seq (Opt (g1 (Seq (Lit "http") (Seq (Opt (Lit "s")) (Lit "://")))))
    (Seq (Opt (g2 (Lit "www.")))
    (Seq host (g4 (ClassPlus id_char))))) s ↔
  ∃ scheme www h vid : string,
    scheme ∈ [""; "http://"; "https://"] ∧ www ∈ [""; "www."] ∧
    Matches host h ∧ vid ≠ "" ∧ all_chars id_char vid = true ∧
    s = scheme +:+ www +:+ h +:+ vid.
Proof.
  intros G1 G2 G4. split.
  - intros H.
    apply matches_seq in H as (s1 & t1 & -> & H1 & H).
    apply matches_seq in H as (s2 & t2 & -> & H2 & H).
    apply matches_seq in H as (s3 & s4 & -> & H3 & H4).
    apply G4, matches_plus in H4 as [Hne Hall].
    exists s1, s2, s3, s4. repeat split; try done.
    + apply matches_opt in H1 as [->|H1]; [in_list|].
      apply G1, matches_scheme in H1 as [->| ->]; in_list.
    + apply matches_opt in H2 as [->|H2]; [in_list|].
      apply G2, matches_lit in H2 as ->. in_list.
  - intros (scheme & www & h & vid & Hs & Hw & Hh & Hne & Hall & ->).
    apply matches_seq. exists scheme, (www +:+ h +:+ vid). split; [done|]. split.
    { apply matches_opt. rewrite G1, matches_scheme. clear -Hs. in_list. }
    apply matches_seq. exists www, (h +:+ vid). split; [done|]. split.
    { apply matches_opt. rewrite G2, matches_lit. clear -Hw. in_list. }
    apply matches_seq. exists h, vid. split; [done|]. split; [done|].
    by apply G4, matches_plus.
Qed.

Lemma matches_host (i : nat) (h : string) :
  Matches (Group i (Alt (Lit "youtube.com/watch?v=") (Lit "youtu.be/"))) h ↔
  h ∈ ["youtube.com/watch?v="; "youtu.be/"].
Proof.
  rewrite matches_group, matches_alt, !matches_lit, list_elem_of_In. simpl.
  intuition.
Qed.

Lemma matches_youtube_regex (s : string) :
  Matches youtube_regex s ↔ canonical_url s.
Proof.
  unfold youtube_regex, canonical_url.
  rewrite (matches_shape (Group 1) (Group 2) _ (λ r, r));
    [| apply matches_group | apply matches_group | done].
  by setoid_rewrite matches_host.
Qed.

Lemma matches_pattern (s : string) :
  Matches youtube_regex s → Matches pattern1 s ∨ Matches pattern2 s.
Proof.
  unfold youtube_regex, pattern1, pattern2.
  rewrite (matches_shape (Group 1) (Group 2) _ (λ r, r));
    [| apply matches_group | apply matches_group | done].
  rewrite !(matches_shape (λ r, r) (λ r, r) _ (Group 1));
    [| done | done | apply matches_group | done | done | apply matches_group].
  intros (scheme & www & h & vid & Hs & Hw & Hh & Hrest).
  apply matches_group, matches_alt in Hh as [Hh|Hh]; [left|right];
    exists scheme, www, h, vid; tauto.
Qed.

(** A successful search with either extraction pattern captured a
    non-empty id. *)
Lemma search_group_nonempty (host : string) (s : string) (m : captures) :
  re_search
    (Seq (Opt (Seq (Lit "http") (Seq (Opt (Lit "s")) (Lit "://"))))
    (Seq (Opt (Lit "www."))
    (Seq (Lit host) (Group 1 (ClassPlus id_char))))) s = Some m →
  ∃ vid, group m 1 = Some vid ∧ vid ≠ "" ∧ all_chars id_char vid = true.
Proof.
  intros Hs. apply re_search_inv in Hs as (pre & t & _ & Hm).
  unfold re_match in Hm.
  apply run_seq_tail in Hm as (t1 & c1 & Hm).
  apply run_seq_tail in Hm as (t2 & c2 & Hm).
  apply run_seq_tail in Hm as (t3 & c3 & Hm).
  apply run_group_last in Hm as (vid & Hg & Hv).
  apply matches_plus in Hv as [??]. eauto.
Qed.

(** With a continuation that accepts whatever is left, the greedy [p+]
    stops only where the class characters stop. *)
Lemma run_plus_last (p : ascii → bool) (s : string) (f : string → captures)
    (m : captures) :
  run_plus p s (λ s', Some (f s')) = Some m →
  ∃ x rest, s = x +:+ rest ∧ x ≠ "" ∧ all_chars p x = true
            ∧ match rest with
              | EmptyString => true
              | String c _ => negb (p c)
              end = true
            ∧ m = f rest.
Proof.
  revert m. induction s as [|c s IH]; intros m; simpl; [done|].
  destruct (p c) eqn:Hc; [|done].
  destruct (run_plus p s _) as [m'|] eqn:Hrec.
  - intros [= ->]. destruct (IH _ eq_refl) as (x & rest & -> & _ & Hall & Hend & ->).
    exists (String c x), rest. simpl. by rewrite Hc, Hall.
  - intros [= <-]. exists (String c ""), s. simpl. rewrite Hc.
    split_and!; try done.
    destruct s as [|d s]; [done|]. simpl in Hrec.
    destruct (p d); [|done]. by destruct (run_plus p s _).
Qed.

(** The last group of an extraction pattern holds the whole run of id
    characters at its position. *)
Lemma run_group_id (s : string) (caps m : captures) :
  run (Group 1 (ClassPlus id_char)) s caps (λ _ c, Some c) = Some m →
  ∃ vid rest, s = vid +:+ rest ∧ group m 1 = Some vid ∧ vid ≠ ""
              ∧ all_chars id_char vid = true ∧ ends_id rest = true.
Proof.
  simpl. intros Hr.
  apply (run_plus_last id_char s
           (λ s', <[1%nat := stake (String.length s - String.length s') s]> caps))
    in Hr as (x & rest & -> & Hne & Hall & Hend & ->).
  exists x, rest. split_and!; try done. unfold group.
  rewrite slength_app.
  replace (String.length x + String.length rest - String.length rest)%nat
    with (String.length x) by lia.
  by rewrite stake_app, lookup_insert_eq.
Qed.

Lemma run_seq_inv (r1 r2 : regex) (s : string) (caps m : captures)
    (k : string → captures → option captures) :
  run (Seq r1 r2) s caps k = Some m →
  ∃ x rest caps', s = x +:+ rest ∧ Matches r1 x ∧ run r2 rest caps' k = Some m.
Proof. simpl. intros Hr. by apply run_inv in Hr. Qed.

Local Abbreviation extraction host :=
  (Seq (Opt (Seq (Lit "http") (Seq (Opt (Lit "s")) (Lit "://"))))
  (Seq (Opt (Lit "www."))
  (Seq (Lit host) (Group 1 (ClassPlus id_char))))).

(** A match of an extraction pattern: scheme, [www.], the marker, and the
    id in group 1. *)
Lemma re_match_id (host t : string) (m : captures) :
  re_match (extraction host) t = Some m →
  ∃ scheme www vid rest,
    scheme ∈ [""; "http://"; "https://"] ∧ www ∈ [""; "www."]
    ∧ t = scheme +:+ www +:+ host +:+ vid +:+ rest
    ∧ group m 1 = Some vid ∧ vid ≠ ""
    ∧ all_chars id_char vid = true ∧ ends_id rest = true.
Proof.
  unfold re_match. intros Hr.
  apply run_seq_inv in Hr as (x1 & t1 & c1 & -> & H1 & Hr).
  apply run_seq_inv in Hr as (x2 & t2 & c2 & -> & H2 & Hr).
  apply run_seq_inv in Hr as (x3 & t3 & c3 & -> & H3 & Hr).
  apply matches_lit in H3 as ->.
  apply run_group_id in Hr as (vid & rest & -> & Hg & Hne & Hall & Hend).
  exists x1, x2, vid, rest. split_and!; try done.
  - apply matches_opt in H1 as [->|H1]; [in_list|].
    apply matches_scheme in H1 as [->| ->]; in_list.
  - apply matches_opt in H2 as [->|H2]; [in_list|].
    apply matches_lit in H2 as ->. in_list.
Qed.

(** The search of an extraction pattern returns an id the text carries. *)
Lemma search_group_id (host s : string) (m : captures) :
  re_search (extraction host) s = Some m →
  ∃ vid pre rest,
    group m 1 = Some vid ∧ s = pre +:+ host +:+ vid +:+ rest
    ∧ vid ≠ "" ∧ all_chars id_char vid = true ∧ ends_id rest = true.
Proof.
  intros Hs. apply re_search_inv in Hs as (pre & t & -> & Hm).
  apply re_match_id in Hm
    as (scheme & www & vid & rest & _ & _ & -> & Hg & Hne & Hall & Hend).
  exists vid, (pre +:+ scheme +:+ www), rest.
  split_and!; try done. by rewrite <- !sapp_assoc.
Qed.

(** Whatever [extract_video_id] returns is an id the text carries. *)
Lemma extract_video_id_carries (url vid : string) :
  extract_video_id url = Some vid → carries_id url vid.
Proof.
  unfold extract_video_id.
  destruct (re_search pattern1 url) as [m|] eqn:H1.
  { apply search_group_id in H1 as (v & pre & rest & -> & -> & ? & ? & ?).
    intros [= <-]. exists pre, "youtube.com/watch?v=", rest.
    split_and!; try done. in_list. }
  destruct (re_search pattern2 url) as [m|] eqn:H2; [|done].
  apply search_group_id in H2 as (v & pre & rest & -> & -> & ? & ? & ?).
  intros [= <-]. exists pre, "youtu.be/", rest.
  split_and!; try done. in_list.
Qed.

(** C9, as stated, would make the validator accept exactly the canonical
    forms. It does not: a canonical URL followed by arbitrary text is
    accepted, because [re.match] anchors the pattern at the start only. *)
Lemma is_valid_youtube_url_not_exact :
  ¬ (∀ url : string, is_valid_youtube_url url = true ↔ canonical_url url).
Proof.
  intros H.
  destruct (proj1 (H "https://youtu.be/abc123 and more text") eq_refl)
    as (scheme & www & host & vid & Hs & Hw & Hh & _ & Hall & Heq).
  apply list_elem_of_In in Hs, Hw, Hh. simpl in Hs, Hw, Hh.
  destruct Hs as [<-|[<-|[<-|[]]]], Hw as [<-|[<-|[]]], Hh as [<-|[<-|[]]];
    vm_compute in Heq; try discriminate Heq;
    injection Heq as <-; vm_compute in Hall; discriminate Hall.
Qed.

(** C9 (amended): the validator accepts exactly the strings that start
    with one of the two canonical forms (optional scheme, optional [www.],
    [youtube.com/watch?v=<id>] or [youtu.be/<id>]); what follows the id is
    not inspected, and every other string is rejected. *)
Theorem is_valid_youtube_url_accepts_prefix (url : string) :
  is_valid_youtube_url url = true ↔
  ∃ x rest, url = x +:+ rest ∧ canonical_url x.
Proof.
  unfold is_valid_youtube_url.
  transitivity (is_Some (re_match youtube_regex url)).
  - destruct (re_match youtube_regex url) as [m|]; split; intros Hm;
      eauto; done.
  - rewrite re_match_iff. by setoid_rewrite matches_youtube_regex.
Qed.

(** C10: every URL the validator accepts has an extractable video id:
    [extract_video_id] does not return [None] on it, and what it returns
    is a video id the URL carries: a non-empty run of id characters that
    stands in the URL right after [youtube.com/watch?v=] or [youtu.be/]
    and ends where the URL ends or another character follows. *)
Theorem valid_url_has_video_id (url : string) :
  is_valid_youtube_url url = true →
  ∃ vid, extract_video_id url = Some vid ∧ carries_id url vid.
Proof.
  intros Hv.
  assert (is_Some (extract_video_id url)) as [vid Hvid].
  { assert (is_Some (re_match youtube_regex url)) as Hm.
    { unfold is_valid_youtube_url in Hv.
      by destruct (re_match youtube_regex url). }
    apply re_match_iff in Hm as (x & rest & -> & Hx).
    unfold extract_video_id.
    destruct (re_search pattern1 (x +:+ rest)) as [m|] eqn:H1.
    { apply search_group_nonempty in H1 as (vid & -> & _). eauto. }
    destruct (re_search pattern2 (x +:+ rest)) as [m|] eqn:H2.
    { apply search_group_nonempty in H2 as (vid & -> & _). eauto. }
    apply matches_pattern in Hx as [Hx|Hx].
    - assert (is_Some (re_search pattern1 (x +:+ rest))) as [? ?]; [|congruence].
      apply re_search_of_match, re_match_iff. eauto.
    - assert (is_Some (re_search pattern2 (x +:+ rest))) as [? ?]; [|congruence].
      apply re_search_of_match, re_match_iff. eauto. }
  exists vid. split; [done|]. by apply extract_video_id_carries.
Qed.

Lemma valid_url_has_video_id_witness :
  is_valid_youtube_url "https://youtu.be/abc123" = true
  ∧ ∃ vid, extract_video_id "https://youtu.be/abc123" = Some vid
           ∧ carries_id "https://youtu.be/abc123" vid.
Proof.
  split; [reflexivity|].
  apply (valid_url_has_video_id "https://youtu.be/abc123"). reflexivity.
Defined.

End UrlFacts.

(** ** Sorting *)

Section SortFacts.
Context {A : Type} (le : A → A → bool).

Lemma insert_by_perm (x : A) (l : list A) : insert_by le x l ≡ₚ x :: l.
Proof.
  induction l as [|y l IH]; simpl; [done|].
  destruct (le x y); [done|]. by rewrite IH, Permutation_swap.
Qed.

Lemma sort_by_perm (l : list A) : sort_by le l ≡ₚ l.
Proof.
  induction l as [|x l IH]; simpl; [done|]. by rewrite insert_by_perm, IH.
Qed.

Hypothesis le_total : ∀ x y, le x y = false → le y x = true.
Hypothesis le_trans : ∀ x y z, le x y = true → le y z = true → le x z = true.

Lemma insert_by_sorted (x : A) (l : list A) :
  StronglySorted (λ a b, le a b = true) l →
  StronglySorted (λ a b, le a b = true) (insert_by le x l).
Proof.
  induction 1 as [|y l Hl IH Hy]; simpl.
  - repeat constructor.
  - destruct (le x y) eqn:Hxy.
    + constructor; [by constructor|].
      constructor; [done|]. eapply Forall_impl; [exact Hy|]. simpl. eauto.
    + constructor; [done|].
      rewrite insert_by_perm. constructor; [by apply le_total | done].
Qed.

Lemma sort_by_sorted (l : list A) :
  StronglySorted (λ a b, le a b = true) (sort_by le l).
Proof.
  induction l as [|x l IH]; simpl; [constructor | by apply insert_by_sorted].
Qed.
End SortFacts.

Lemma StronglySorted_mono {A : Type} (R S : A → A → Prop) (l : list A) :
  (∀ x y, R x y → S x y) → StronglySorted R l → StronglySorted S l.
Proof.
  intros HRS. induction 1 as [|x l Hl IH Hx]; constructor; [done|].
  eapply Forall_impl; eauto.
Qed.

Lemma StronglySorted_rev {A : Type} (R : A → A → Prop) (l : list A) :
  StronglySorted R l → StronglySorted (flip R) (rev l).
Proof.
  induction 1 as [|x l Hl IH Hx]; simpl; [constructor|].
  apply StronglySorted_app. split_and!; [| done | repeat constructor].
  intros x1 x2 H1 ->%list_elem_of_singleton.
  apply list_elem_of_In, in_rev, list_elem_of_In in H1.
  rewrite Forall_forall in Hx. by apply Hx.
Qed.

Lemma StronglySorted_sublist {A : Type} (R : A → A → Prop) (l1 l2 : list A) :
  l1 `sublist_of` l2 → StronglySorted R l2 → StronglySorted R l1.
Proof.
  induction 1 as [|x l1 l2 Hsub IH|x l1 l2 Hsub IH]; intros Hs; [done| |].
  - apply StronglySorted_cons in Hs as [Hx Hs].
    apply StronglySorted_cons. split; [|by apply IH].
    rewrite Forall_forall in *. intros y Hy. eapply Hx, elem_of_sublist; eauto.
  - apply StronglySorted_cons in Hs as [_ Hs]. by apply IH.
Qed.

Lemma StronglySorted_flat_map {A B : Type} (R : A → A → Prop)
    (S : B → B → Prop) (g : A → list B) (l : list A) :
  (∀ a, StronglySorted S (g a)) →
  (∀ a1 a2 b1 b2, R a1 a2 → b1 ∈ g a1 → b2 ∈ g a2 → S b1 b2) →
  StronglySorted R l → StronglySorted S (flat_map g l).
Proof.
  intros Hg HRS. induction 1 as [|x l Hl IH Hx]; simpl; [constructor|].
  apply StronglySorted_app. split_and!; [| done | done].
  intros b1 b2 H1 H2.
  apply list_elem_of_In, in_flat_map in H2 as (a2 & Ha2 & H2).
  rewrite Forall_forall in Hx.
  eapply HRS; [apply Hx; by apply list_elem_of_In | done | by apply list_elem_of_In].
Qed.

(** ** The catalog builder *)

Section CatalogFacts.
Import Provider Catalog.
Variable rank : string → Z.

(** The provider's descending order. *)
Lemma desc_order_by_sorted (attr : Stream → option string) (l : list Stream) :
  StronglySorted (λ a b, attr_rank rank attr b ≤ attr_rank rank attr a)
                 (desc (order_by rank attr l)).
Proof.
  unfold desc, order_by.
  apply (StronglySorted_rev (λ a b, attr_rank rank attr a ≤ attr_rank rank attr b)).
  eapply StronglySorted_mono; [| apply sort_by_sorted].
  - intros a b Hab. simpl in Hab. lia.
  - intros x y Hxy. simpl in *. lia.
  - intros x y z Hxy Hyz. simpl in *. lia.
Qed.

Lemma audio_option_inv (s : Stream) (o : StreamOption) :
  o ∈ audio_option s →
  abr s = Some (quality o) ∧ quality o ≠ "" ∧ ptype o = None.
Proof.
  unfold audio_option. destruct (abr s) as [q|]; [|by intros ?%elem_of_nil].
  destruct (String.eqb_spec q ""); [by intros ?%elem_of_nil|].
  by intros ->%list_elem_of_singleton.
Qed.

Lemma prog_option_inv (s : Stream) (o : StreamOption) :
  o ∈ prog_option s →
  resolution s = Some (quality o) ∧ ptype o = Some "prog".
Proof.
  unfold prog_option, allowed, res_label.
  destruct (resolution s) as [r|]; [|by intros ?%elem_of_nil].
  case_bool_decide; [|by intros ?%elem_of_nil].
  by intros ->%list_elem_of_singleton.
Qed.

Lemma build_audio_options_sorted (l : list Stream) :
  non_increasing rank (build_audio_options rank l).
Proof.
  unfold non_increasing, build_audio_options.
  eapply StronglySorted_flat_map; [| | apply desc_order_by_sorted].
  - intros s. unfold audio_option.
    destruct (abr s) as [q|]; [|constructor].
    destruct (String.eqb q ""); repeat constructor.
  - intros s1 s2 o1 o2 Hs (H1 & _)%audio_option_inv (H2 & _)%audio_option_inv.
    unfold attr_rank in Hs. by rewrite H1, H2 in Hs.
Qed.

Lemma build_prog_options_sorted (l : list Stream) :
  non_increasing rank (build_prog_options rank l).
Proof.
  unfold non_increasing, build_prog_options.
  eapply StronglySorted_flat_map; [| | apply desc_order_by_sorted].
  - intros s. unfold prog_option. destruct (allowed s); repeat constructor.
  - intros s1 s2 o1 o2 Hs (H1 & _)%prog_option_inv (H2 & _)%prog_option_inv.
    unfold attr_rank in Hs. by rewrite H1, H2 in Hs.
Qed.

Lemma build_prog_options_ptype (l : list Stream) (o : StreamOption) :
  o ∈ build_prog_options rank l → ptype o = Some "prog".
Proof.
  unfold build_prog_options.
  intros (s & _ & Ho)%list_elem_of_In%in_flat_map.
  by apply list_elem_of_In, prog_option_inv in Ho as [_ ?].
Qed.

Lemma adapt_option_inv (s : Stream) (o : StreamOption) :
  o ∈ adapt_option s →
  resolution s = Some (quality o) ∧ ptype o = Some "adapt".
Proof.
  unfold adapt_option, allowed, res_label.
  destruct (resolution s) as [r|]; [|by intros ?%elem_of_nil].
  case_bool_decide; [|by intros ?%elem_of_nil].
  by intros ->%list_elem_of_singleton.
Qed.

(** The loop only appends, and what it appends is a selection of the
    adaptive candidates, in their order. *)
Lemma fold_add_adaptive (ss : list Stream) : ∀ opts : list StreamOption,
  ∃ extra, fold_left add_adaptive ss opts = opts ++ extra
           ∧ extra `sublist_of` flat_map adapt_option ss.
Proof.
  induction ss as [|s ss IH]; intros opts; simpl.
  - exists []. by rewrite app_nil_r.
  - unfold add_adaptive at 2, adapt_option at 1. destruct (allowed s).
    + destruct (existsb _ opts).
      * destruct (IH opts) as (extra & -> & Hsub).
        exists extra. split; [done|]. by apply sublist_inserts_l.
      * destruct (IH (opts ++ [mkOption (itag s) "video" (res_label s)
                                        (subtype s) (Some "adapt")]))
          as (extra & -> & Hsub).
        eexists (_ :: extra). rewrite <- app_assoc. split; [done|].
        simpl. by constructor.
    + apply IH.
Qed.

Lemma adaptive_candidates_sorted (l : list Stream) :
  non_increasing rank
    (flat_map adapt_option (desc (order_by rank resolution (only_video_mp4 l)))).
Proof.
  unfold non_increasing.
  eapply StronglySorted_flat_map; [| | apply desc_order_by_sorted].
  - intros s. unfold adapt_option. destruct (allowed s); repeat constructor.
  - intros s1 s2 o1 o2 Hs (H1 & _)%adapt_option_inv (H2 & _)%adapt_option_inv.
    unfold attr_rank in Hs. by rewrite H1, H2 in Hs.
Qed.

(** A catalog's option lists are the capped lists built from the
    provider's streams. *)
Lemma get_video_info_catalog (yt : res YouTube) (c : VideoCatalog) :
  get_video_info rank yt = InfoCatalog c →
  ∃ l, audio_options c = take 3 (build_audio_options rank l)
       ∧ video_options c = take 10 (build_video_options rank l).
Proof.
  unfold get_video_info, get_video_info_body.
  destruct yt as [yt|e]; simpl; [|by destruct e].
  destruct (streams yt) as [l|e]; simpl; [|by destruct e].
  intros H. exists l.
  destruct (build_audio_options rank l) as [|a au],
           (build_video_options rank l) as [|v vi]; try done;
    destruct (title yt) as [t|e]; simpl in H; try (by destruct e);
    destruct (thumbnail_url yt) as [th|e]; simpl in H; try (by destruct e);
    destruct (length yt) as [d|e]; simpl in H; try (by destruct e);
    destruct (author yt) as [au'|e]; simpl in H; try (by destruct e);
    by injection H as <-.
Qed.







(** C3, as stated, would make the video list non-increasing by resolution
    over its full length. The adaptive options come after the progressive
    ones whatever their resolution: in the specification's own scenario
    the list is 720p (progressive), then 1080p (adaptive). *)
Lemma video_options_not_non_increasing :
  ¬ (∀ (rk : string → Z) (yt : res YouTube) (c : VideoCatalog),
       get_video_info rk yt = InfoCatalog c →
       (List.length (audio_options c) ≤ 3)%nat ∧
       (List.length (video_options c) ≤ 10)%nat ∧
       non_increasing rk (audio_options c) ∧
       non_increasing rk (video_options c)).
Proof.
  intros H.
  destruct (H digit_rank (Ok Scenario.yt) Scenario.catalog eq_refl)
    as (_ & _ & _ & Hv).
  unfold non_increasing in Hv. cbn [video_options Scenario.catalog] in Hv.
  apply StronglySorted_cons in Hv as [Hv _].
  apply Forall_cons in Hv as [Hv _]. vm_compute in Hv. by apply Hv.
Qed.

(** C3 (amended): a catalog has at most 3 audio options and at most 10
    video options; the audio options are non-increasing by bitrate rank;
    the video options are a run of progressive options followed by a run
    of adaptive options, each run non-increasing by resolution rank. *)
Theorem catalog_bounded_and_ranked (yt : res YouTube) (c : VideoCatalog) :
  get_video_info rank yt = InfoCatalog c →
  (List.length (audio_options c) ≤ 3)%nat ∧
  (List.length (video_options c) ≤ 10)%nat ∧
  non_increasing rank (audio_options c) ∧
  ∃ prog adapt,
    video_options c = prog ++ adapt ∧
    Forall (λ o, ptype o = Some "prog") prog ∧
    Forall (λ o, ptype o = Some "adapt") adapt ∧
    non_increasing rank prog ∧ non_increasing rank adapt.
Proof.
  intros (l & -> & ->)%get_video_info_catalog.
  split_and!.
  - rewrite length_take. lia.
  - rewrite length_take. lia.
  - eapply StronglySorted_sublist;
      [apply sublist_take | apply build_audio_options_sorted].
  - unfold build_video_options.
    destruct (fold_add_adaptive
                (desc (order_by rank resolution (only_video_mp4 l)))
                (build_prog_options rank l)) as (extra & -> & Hsub).
    rewrite take_app.
    eexists _, _. split; [done|]. split_and!.
    + apply Forall_forall. intros o Ho.
      eapply build_prog_options_ptype, elem_of_sublist; [exact Ho|].
      apply sublist_take.
    + apply Forall_forall. intros o Ho.
      assert (o ∈ flat_map adapt_option
                (desc (order_by rank resolution (only_video_mp4 l)))) as Hin.
      { eapply elem_of_sublist; [exact Ho|].
        etrans; [apply sublist_take | exact Hsub]. }
      apply list_elem_of_In, in_flat_map in Hin as (s & _ & Hs).
      by apply list_elem_of_In, adapt_option_inv in Hs as [_ ?].
    + eapply StronglySorted_sublist;
        [apply sublist_take | apply build_prog_options_sorted].
    + eapply StronglySorted_sublist; [| apply adaptive_candidates_sorted].
      etrans; [apply sublist_take | exact Hsub].
Qed.

End CatalogFacts.


Lemma catalog_bounded_and_ranked_witness :
  Catalog.get_video_info Provider.digit_rank (Provider.Ok Scenario.yt)
    = Catalog.InfoCatalog Scenario.catalog
  ∧ (List.length (Catalog.audio_options Scenario.catalog) ≤ 3)%nat
  ∧ (List.length (Catalog.video_options Scenario.catalog) ≤ 10)%nat
  ∧ Catalog.non_increasing Provider.digit_rank
      (Catalog.audio_options Scenario.catalog)
  ∧ ∃ prog adapt,
      Catalog.video_options Scenario.catalog = prog ++ adapt ∧
      Forall (λ o, Catalog.ptype o = Some "prog") prog ∧
      Forall (λ o, Catalog.ptype o = Some "adapt") adapt ∧
      Catalog.non_increasing Provider.digit_rank prog ∧
      Catalog.non_increasing Provider.digit_rank adapt.
Proof.
  split; [reflexivity|].
  apply (catalog_bounded_and_ranked
           Provider.digit_rank (Provider.Ok Scenario.yt) Scenario.catalog).
  reflexivity.
Defined.

(** ** The retry wrapper *)

Section RetryFacts.
Import Provider Catalog Retry.
Variable rank : string → Z.
Variable YouTube_new : nat → string → res YouTube.

(** The builder's result on call number [k] from now. *)
Local Abbreviation attempt url w k :=
  (get_video_info rank (YouTube_new (calls w + k) url)).



(** C5 fails on the code: with [retries = 0] the loop body never runs,
    [info] is never bound, and [return info] raises [UnboundLocalError]
    instead of returning a result. *)
Theorem retry_zero_attempts_unbound (url : string) (w : world) :
  get_video_info_with_retry rank YouTube_new url 0 w =
    (Raise (UnboundLocalError "info"), w).
Proof. reflexivity. Qed.

End RetryFacts.


(** ** The usage store *)

Section StatsFacts.
Import Db.

Lemma filter_none {A : Type} (p : A → bool) (l : list A) :
  (∀ x, x ∈ l → p x = false) → List.filter p l = [].
Proof.
  induction l as [|x l IH]; intros Hp; simpl; [done|].
  rewrite (Hp x) by constructor. apply IH. intros y Hy. apply Hp. by constructor.
Qed.

(** With [user_id] a primary key, an id selects one row of [users]. *)
Lemma filter_primary_key (us : list UserRow) (u : UserRow) :
  NoDup (map user_id us) → u ∈ us →
  List.filter (λ u', user_id u =? user_id u') us = [u].
Proof.
  induction us as [|x us IH]; intros Hnd Hu; [by apply elem_of_nil in Hu|].
  simpl in Hnd. apply NoDup_cons in Hnd as [Hx Hnd].
  apply elem_of_cons in Hu as [->|Hu]; simpl.
  - rewrite Z.eqb_refl. f_equal. apply filter_none.
    intros y Hy. apply Z.eqb_neq. intros Heq. apply Hx. rewrite Heq.
    by apply list_elem_of_fmap_2.
  - destruct (Z.eqb_spec (user_id u) (user_id x)) as [Heq|_]; [|by apply IH].
    exfalso. apply Hx. rewrite <- Heq. by apply list_elem_of_fmap_2.
Qed.

Lemma joined_iff (db : database) (l : LogRow) (u : UserRow) :
  (l, u) ∈ joined db ↔
  l ∈ List.filter completed_download (usage_logs db) ∧ u ∈ users db
  ∧ log_user_id l = user_id u.
Proof.
  unfold joined. rewrite !list_elem_of_In, in_flat_map. split.
  - intros (l' & Hl' & Hin). apply in_map_iff in Hin as (u' & [= -> ->] & Hu').
    apply filter_In in Hu' as [Hu' Heq]. by apply Z.eqb_eq in Heq.
  - intros (Hl & Hu & Heq). exists l. split; [done|].
    apply in_map_iff. exists u. split; [done|].
    apply filter_In. split; [done | by apply Z.eqb_eq].
Qed.

(** The rows of the group of user [u]: one per completed download. *)
Lemma group_rows (db : database) (u : UserRow) :
  NoDup (map user_id (users db)) → u ∈ users db →
  List.filter (λ lu, user_id (snd lu) =? user_id u) (joined db) =
  map (λ l, (l, u))
      (List.filter (λ l, log_user_id l =? user_id u)
                   (List.filter completed_download (usage_logs db))).
Proof.
  intros Hnd Hu. unfold joined.
  induction (List.filter completed_download (usage_logs db)) as [|l cl IH];
    simpl; [done|].
  rewrite List.filter_app, IH. clear IH.
  destruct (Z.eqb_spec (log_user_id l) (user_id u)) as [Heq|Hne]; simpl.
  - rewrite Heq, filter_primary_key by done. simpl. by rewrite Z.eqb_refl.
  - rewrite filter_none; [done|].
    intros [l' u'] Hin. simpl.
    apply list_elem_of_In, in_map_iff in Hin as (u'' & [= -> ->] & Hin).
    apply filter_In in Hin as [_ Heq]. apply Z.eqb_eq in Heq.
    apply Z.eqb_neq. congruence.
Qed.

Lemma grouped_iff (db : database) (e : option string * nat) :
  NoDup (map user_id (users db)) →
  e ∈ grouped db ↔
  ∃ u, u ∈ users db ∧ (1 ≤ completed_by db u)%nat
       ∧ e = (username u, completed_by db u).
Proof.
  intros Hnd. unfold grouped. rewrite list_elem_of_fmap. split.
  - intros (k & -> & Hk).
    apply elem_of_remove_dups, list_elem_of_fmap in Hk as ([l u] & -> & Hlu).
    simpl. pose proof Hlu as (Hl & Hu & Heq)%joined_iff.
    exists u. rewrite group_rows by done. unfold completed_by.
    assert (l ∈ List.filter (λ l0, log_user_id l0 =? user_id u)
                  (List.filter completed_download (usage_logs db))) as Hin.
    { apply list_elem_of_In, filter_In.
      split; [by apply list_elem_of_In | by apply Z.eqb_eq]. }
    destruct (List.filter (λ l0, log_user_id l0 =? user_id u)
                (List.filter completed_download (usage_logs db))) as [|l0 rows];
      [by apply elem_of_nil in Hin|].
    simpl. rewrite length_map. split_and!; [done | lia | done].
  - intros (u & Hu & Hpos & ->). exists (user_id u).
    unfold completed_by in *. rewrite group_rows by done.
    destruct (List.filter (λ l0, log_user_id l0 =? user_id u)
                (List.filter completed_download (usage_logs db))) as [|l0 rows] eqn:Hrows;
      [simpl in Hpos; lia|].
    simpl. rewrite length_map. split; [done|].
    apply elem_of_remove_dups, list_elem_of_fmap. exists (l0, u). split; [done|].
    assert (In l0 (List.filter (λ l1, log_user_id l1 =? user_id u)
                     (List.filter completed_download (usage_logs db)))) as Hin.
    { rewrite Hrows. by left. }
    apply filter_In in Hin as [Hin Heq]. apply Z.eqb_eq in Heq.
    apply joined_iff. by rewrite list_elem_of_In.
Qed.

Lemma by_count_desc_sorted (l : list (option string * nat)) :
  StronglySorted (λ a b, (snd b ≤ snd a)%nat) (sort_by by_count_desc l).
Proof.
  eapply StronglySorted_mono; [| apply sort_by_sorted].
  - intros a b Hab. simpl in Hab. by apply Nat.leb_le in Hab.
  - intros x y Hxy. unfold by_count_desc in *.
    apply Nat.leb_le. apply Nat.leb_gt in Hxy. lia.
  - intros x y z Hxy Hyz. unfold by_count_desc in *.
    apply Nat.leb_le. apply Nat.leb_le in Hxy, Hyz. lia.
Qed.

(** C8, as stated, would make [total_downloads] the number of completed
    downloads. The query counts every row whose action is a download:
    the store of the scenario has 3 completed downloads and 1 failed one,
    and the figure is 4. *)
Lemma total_downloads_counts_failed :
  ¬ (∀ db : database,
       total_downloads (get_user_stats db) =
       List.length (List.filter completed_download (usage_logs db))).
Proof. intros H. specialize (H Scenario.store). vm_compute in H. discriminate H. Qed.

(** C8 (amended): the total-downloads figure counts the log rows whose
    action is a download, whatever their status. The top-users list has
    at most 5 entries, in non-increasing order of count; each entry is a
    user of the [users] table with the number of completed downloads
    logged for that user, which is at least 1; and a user with completed
    downloads is left out only when the list is full of users with at
    least as many. *)
Theorem stats_totals_and_top_users (db : database) :
  NoDup (map user_id (users db)) →
  let st := get_user_stats db in
  total_downloads st =
    List.length (List.filter (λ l, String.eqb (action l) "download") (usage_logs db))
  ∧ (List.length (top_users st) ≤ 5)%nat
  ∧ StronglySorted (λ a b, (snd b ≤ snd a)%nat) (top_users st)
  ∧ (∀ e, e ∈ top_users st →
       ∃ u, u ∈ users db ∧ (1 ≤ completed_by db u)%nat
            ∧ e = (username u, completed_by db u))
  ∧ (∀ u, u ∈ users db → (1 ≤ completed_by db u)%nat →
       (username u, completed_by db u) ∈ top_users st
       ∨ (List.length (top_users st) = 5%nat
          ∧ ∀ e, e ∈ top_users st → (completed_by db u ≤ snd e)%nat)).
Proof.
  intros Hnd st. subst st. simpl. split_and!.
  - done.
  - rewrite length_take. lia.
  - eapply StronglySorted_sublist; [apply sublist_take | apply by_count_desc_sorted].
  - intros e He. apply grouped_iff; [done|].
    rewrite <- (sort_by_perm by_count_desc).
    eapply elem_of_sublist; [exact He | apply sublist_take].
  - intros u Hu Hpos.
    assert ((username u, completed_by db u) ∈ sort_by by_count_desc (grouped db))
      as Hin.
    { rewrite sort_by_perm. apply grouped_iff; eauto. }
    pose proof (by_count_desc_sorted (grouped db)) as Hs.
    rewrite <- (take_drop 5 (sort_by by_count_desc (grouped db))) in Hin, Hs.
    apply elem_of_app in Hin as [Hin|Hin]; [by left | right].
    split.
    + apply length_take_le.
      destruct (Nat.le_gt_cases 5 (List.length (sort_by by_count_desc (grouped db))))
        as [?|Hlt]; [done|].
      rewrite drop_ge in Hin by lia. by apply elem_of_nil in Hin.
    + intros e He.
      apply (StronglySorted_app_1_elem_of _ _ _ _ _ Hs He Hin).
Qed.

Lemma stats_totals_and_top_users_witness :
  NoDup (map user_id (users Scenario.store))
  ∧ total_downloads (get_user_stats Scenario.store) = 4%nat
  ∧ top_users (get_user_stats Scenario.store) = [(None, 2%nat); (Some "ani", 1%nat)]
  ∧ StronglySorted (λ a b, (snd b ≤ snd a)%nat)
      (top_users (get_user_stats Scenario.store)).
Proof.
  assert (NoDup (map user_id (users Scenario.store))) as Hnd.
  { simpl. repeat constructor; rewrite ?list_elem_of_In; simpl; intuition lia. }
  split; [exact Hnd|].
  destruct (stats_totals_and_top_users Scenario.store Hnd) as (Ht & _ & Hs & _).
  split; [exact Ht|]. split; [reflexivity | exact Hs].
Defined.

End StatsFacts.

(** ** The fetch-and-assemble pipeline *)

Section PipelineFacts.
Import Provider Pipeline.
#[local] Set Warnings "-clear-no-such-hyp".

Lemma splitext_app (p : string) : fst (splitext p) +:+ snd (splitext p) = p.
Proof.
  unfold splitext. destruct (_ && _); simpl.
  - apply stake_sdrop.
  - apply sapp_nil_r.
Qed.

(** A path with an extension other than [.mp3] is not its own [.mp3]
    path. *)
Lemma mp3_path_differs (p : string) :
  lower (snd (splitext p)) ≠ ".mp3" → fst (splitext p) +:+ ".mp3" ≠ p.
Proof.
  intros Hext Heq. apply Hext.
  assert (fst (splitext p) +:+ ".mp3"
          = fst (splitext p) +:+ snd (splitext p)) as Hsame
    by (by rewrite splitext_app).
  apply sapp_inv_head in Hsame. by rewrite <- Hsame.
Qed.

Ltac run_step :=
  cbv beta iota zeta delta [mbind M_bind mret M_ret lift try_except];
  cbn [files dirs db fst snd].

Lemma convert_to_mp3_fallback (E : env) (file_path : string) (w : world) :
  file_path ∈ files w →
  lower (snd (splitext file_path)) ≠ ".mp3" →
  (is_Some (from_file_error E file_path)
   ∨ is_Some (export_error E (fst (splitext file_path) +:+ ".mp3"))) →
  convert_to_mp3 E file_path w = (Ok file_path, w).
Proof.
  intros Hin Hext Hfail. unfold convert_to_mp3.
  destruct (splitext file_path) as [base ext]. simpl in *.
  apply String.eqb_neq in Hext. rewrite Hext. change (negb false) with true. run_step.
  unfold from_file. rewrite bool_decide_eq_true_2 by done.
  destruct (from_file_error E file_path) as [e|]; [done|].
  destruct Hfail as [[? [=]]|[e He]].
  unfold export. by rewrite He.
Qed.

Lemma convert_to_mp3_success (E : env) (file_path : string) (w : world) :
  file_path ∈ files w →
  lower (snd (splitext file_path)) ≠ ".mp3" →
  from_file_error E file_path = None →
  export_error E (fst (splitext file_path) +:+ ".mp3") = None →
  convert_to_mp3 E file_path w =
    (Ok (fst (splitext file_path) +:+ ".mp3"),
     mkWorld (({[fst (splitext file_path) +:+ ".mp3"]} ∪ files w) ∖ {[file_path]})
             (dirs w) (db w)).
Proof.
  intros Hin Hext Hff Hex. unfold convert_to_mp3.
  destruct (splitext file_path) as [base ext]. simpl in *.
  apply String.eqb_neq in Hext. rewrite Hext. change (negb false) with true. run_step.
  unfold from_file. rewrite bool_decide_eq_true_2 by done. rewrite Hff.
  unfold export. rewrite Hex. unfold os_remove. cbn [files dirs db].
  rewrite bool_decide_eq_true_2 by set_solver. done.
Qed.


(** C6: in a progressive audio fulfillment whose fetched file is not an
    [.mp3], a transcoding step that throws makes the pipeline return the
    fetched file as it is, still on disk, with the job logged as completed;
    a transcoding step that succeeds makes it return the [.mp3] file, with
    the fetched file deleted and the job logged as completed. *)
Theorem audio_transcode_fallback (E : env) (url : string)
    (itag user_id log_id : Z) (ptype : string) (w : world)
    (yt : YouTube) (l : list Stream) (stream : Stream) :
  YouTube_new E url = Ok yt →
  streams yt = Ok l →
  get_by_itag itag l = Some stream →
  download_error E stream = None →
  let temp_dir := mkdtemp_name E in
  let file_path := os_path_join temp_dir (default_filename stream) in
  let mp3_path := fst (splitext file_path) +:+ ".mp3" in
  let run := download_youtube E url itag "audio" user_id log_id ptype w in
  lower (snd (splitext file_path)) ≠ ".mp3" →
  ((is_Some (from_file_error E file_path) ∨ is_Some (export_error E mp3_path)) →
   fst run = (Some file_path, Some temp_dir)
   ∧ file_path ∈ files (snd run)
   ∧ db (snd run) = Db.update_log_status log_id "completed" "" (db w))
  ∧
  (from_file_error E file_path = None → export_error E mp3_path = None →
   fst run = (Some mp3_path, Some temp_dir)
   ∧ (file_path ∉ files (snd run))
   ∧ mp3_path ∈ files (snd run)
   ∧ db (snd run) = Db.update_log_status log_id "completed" "" (db w)).
Proof.
  intros Hyt Hl Hs Hd temp_dir file_path mp3_path run Hext.
  assert (file_path ∈ files (mkWorld ({[file_path]} ∪ files w)
                                     ({[temp_dir]} ∪ dirs w) (db w))) as Hin
    by (cbn [files]; set_solver).
  subst run. unfold download_youtube, download_youtube_body. run_step.
  rewrite Hyt. unfold mkdtemp. run_step.
  change (String.eqb "audio" "video") with false. cbn [andb].
  rewrite Hl. run_step. rewrite Hs. unfold download. rewrite Hd. run_step.
  change (String.eqb "audio" "audio") with true. cbv iota.
  unfold update_log_status.
  change ("" +:+ default_filename stream) with (default_filename stream).
  fold temp_dir file_path. split.
  - intros Hfail. rewrite convert_to_mp3_fallback by done.
    cbn [fst snd files dirs db]. done.
  - intros Hff Hex. rewrite convert_to_mp3_success by done.
    cbn [fst snd files dirs db].
    pose proof (mp3_path_differs file_path Hext).
    fold mp3_path.
    split_and!; [done | set_solver | set_solver | done].
Qed.

Lemma os_path_join_relative (a : string) (c : ascii) (s : string) :
  a ≠ "" → ends_with_slash a = false → c ≠ "/"%char →
  os_path_join a (String c s) = a +:+ "/" +:+ String c s.
Proof.
  intros Ha Hs Hc. unfold os_path_join.
  apply String.eqb_neq in Ha. rewrite Ha, Hs. simpl.
  destruct (Ascii.eqb_spec c "/"); [done|].
  destruct c as [[] [] [] [] [] [] [] []]; try done.
Qed.

Lemma inside_join (d b : string) : inside d (d +:+ "/" +:+ b) = true.
Proof.
  unfold inside. rewrite <- sapp_assoc.
  by rewrite (proj2 (strip_prefix_spec (d +:+ "/") _ b) eq_refl).
Qed.

(** What does hold of a successful adaptive run, for a title that does not
    start with a slash: the merged output is inside the temporary
    directory and is the only file there, the files on disk are those
    there before plus the merged output (the two downloaded source files
    are gone), and the job is logged as completed. *)
Lemma adaptive_success_keeps_only_merged (E : env) (url : string)
    (itag user_id log_id : Z) (w : world) (out dir : string)
    (yt : YouTube) (t : string) :
  fresh_workspace E w →
  YouTube_new E url = Ok yt →
  title yt = Ok t →
  match t with String "/" _ => false | _ => true end = true →
  let run := download_youtube E url itag "video" user_id log_id "adapt" w in
  fst run = (Some out, Some dir) →
  dir = mkdtemp_name E
  ∧ inside dir out = true
  ∧ files (snd run) = {[out]} ∪ files w
  ∧ (∀ f, f ∈ files (snd run) → inside dir f = true ↔ f = out)
  ∧ db (snd run) = Db.update_log_status log_id "completed" "" (db w).
Proof.
  intros (Hne & Hslash & Hdir & Hempty) Hyt Ht Hrel run. subst run.
  destruct (download_youtube _ _ _ _ _ _ _ _) as [r w'] eqn:Hrun.
  cbn [fst snd]. intros ->.
  unfold download_youtube, download_youtube_body in Hrun.
  cbv beta iota zeta delta [mbind M_bind mret M_ret lift] in Hrun.
  rewrite Hyt in Hrun.
  unfold mkdtemp in Hrun.
  change (String.eqb "video" "video") with true in Hrun.
  change (String.eqb "adapt" "adapt") with true in Hrun.
  cbn [andb files dirs db] in Hrun.
  destruct (streams yt) as [l|e]; [|by destruct e].
  destruct (get_by_itag itag l) as [video_stream|].
  2:{ unfold update_log_status, rmtree in Hrun. cbn [files dirs db] in Hrun.
      rewrite bool_decide_eq_true_2 in Hrun by set_solver. done. }
  unfold download in Hrun.
  destruct (download_error E video_stream) as [e|]; [by destruct e|].
  destruct (first _) as [audio_stream|].
  2:{ unfold update_log_status, rmtree in Hrun. cbn [files dirs db] in Hrun.
      rewrite bool_decide_eq_true_2 in Hrun by set_solver. done. }
  destruct (download_error E audio_stream) as [e|]; [by destruct e|].
  rewrite Ht in Hrun.
  change ("video_" +:+ default_filename video_stream)
    with (String "v" ("ideo_" +:+ default_filename video_stream)) in *.
  change ("audio_" +:+ default_filename audio_stream)
    with (String "a" ("udio_" +:+ default_filename audio_stream)) in *.
  rewrite !os_path_join_relative in Hrun by done.
  set (video_path := mkdtemp_name E +:+ "/" +:+ String "v" _) in *.
  set (audio_path := mkdtemp_name E +:+ "/" +:+ String "a" _) in *.
  set (output_path := os_path_join (mkdtemp_name E) _) in *.
  assert (inside (mkdtemp_name E) output_path = true) as Hout.
  { subst output_path. destruct t as [|c t].
    - rewrite sapp_nil_l, sapp_cons, os_path_join_relative by done.
      apply inside_join.
    - rewrite sapp_cons, os_path_join_relative; [apply inside_join | done..|].
      intros ->. discriminate Hrel. }
  unfold merge_video_audio in Hrun. cbn [files dirs db] in Hrun.
  destruct (_ && _) eqn:Hmerge in Hrun; [|done].
  apply andb_true_iff in Hmerge as [Hmerge _].
  apply andb_true_iff in Hmerge as [Hmerge Hoa].
  apply andb_true_iff in Hmerge as [_ Hov].
  apply negb_true_iff, String.eqb_neq in Hoa, Hov.
  assert (video_path ≠ audio_path) as Hva.
  { subst video_path audio_path. intros Heq%sapp_inv_head. discriminate Heq. }
  assert (video_path ∉ files w) as Hv.
  { intros Hin%Hempty. subst video_path. by rewrite inside_join in Hin. }
  assert (audio_path ∉ files w) as Ha.
  { intros Hin%Hempty. subst audio_path. by rewrite inside_join in Hin. }
  assert (os_path_join (mkdtemp_name E)
            ("video_" +:+ default_filename video_stream) = video_path) as Hvp.
  { change ("video_" +:+ default_filename video_stream)
      with (String "v" ("ideo_" +:+ default_filename video_stream)).
    by rewrite os_path_join_relative. }
  assert (os_path_join (mkdtemp_name E)
            ("audio_" +:+ default_filename audio_stream) = audio_path) as Hap.
  { change ("audio_" +:+ default_filename audio_stream)
      with (String "a" ("udio_" +:+ default_filename audio_stream)).
    by rewrite os_path_join_relative. }
  clearbody video_path audio_path output_path.
  unfold os_remove, update_log_status in Hrun. cbn [files dirs db] in Hrun.
  rewrite bool_decide_eq_true_2 in Hrun by set_solver.
  cbn [files dirs db] in Hrun.
  rewrite bool_decide_eq_true_2 in Hrun by set_solver.
  injection Hrun as <- <- <-. cbn [files dirs db].
  split_and!; [done | done | set_solver | | done].
  intros f Hf. split; [|by intros ->].
  intros Hin.
  assert (f ∉ files w) by (intros Hfw%Hempty; congruence).
  set_solver.
Qed.

(** The branches for a missing stream do clean up: the run returns
    [(None, None)], the temporary directory is gone and the files are
    those there before. *)
Lemma missing_stream_removes_workspace (E : env) (url : string)
    (itag user_id log_id : Z) (format_type ptype : string) (w : world)
    (yt : YouTube) (l : list Stream) :
  fresh_workspace E w →
  YouTube_new E url = Ok yt →
  streams yt = Ok l →
  get_by_itag itag l = None →
  let run := download_youtube E url itag format_type user_id log_id ptype w in
  fst run = (None, None)
  ∧ (mkdtemp_name E ∉ dirs (snd run))
  ∧ files (snd run) = files w.
Proof.
  intros (_ & _ & _ & Hempty) Hyt Hl Hs run. subst run.
  assert (filter (λ f, inside (mkdtemp_name E) f = false) (files w) = files w)
    as Hfiles.
  { apply set_eq. intros f. rewrite elem_of_filter. naive_solver. }
  unfold download_youtube, download_youtube_body. run_step.
  rewrite Hyt. unfold mkdtemp. run_step.
  destruct (_ && _); rewrite Hl; run_step; rewrite Hs;
    unfold update_log_status, rmtree; run_step;
    (rewrite bool_decide_eq_true_2 by set_solver);
    cbn [fst snd files dirs db]; rewrite Hfiles;
    (split_and!; [done | | done]);
    rewrite elem_of_filter, elem_of_difference; set_solver.
Qed.

(** C1 fails on the code: when the muxer exits with a non-zero status the
    exception is caught by the last handler, which logs the failure and
    returns [(None, None)] without removing the temporary directory,
    while the branches for a missing stream do remove it. Here the
    directory is left behind with the two downloaded files in it. *)
Theorem merge_failure_leaves_workspace :
  let run := download_youtube (Scenario.collaborators 1 None)
               "https://youtu.be/abc123" 137 "video" 11 7 "adapt" Scenario.world0 in
  fst run = (None, None)
  ∧ "/tmp/tmpk3v9x_1a" ∈ dirs (snd run)
  ∧ "/tmp/tmpk3v9x_1a/video_clip.mp4" ∈ files (snd run)
  ∧ "/tmp/tmpk3v9x_1a/audio_clip.m4a" ∈ files (snd run)
  ∧ map Db.status (Db.usage_logs (db (snd run))) = ["failed"].
Proof.
  intros run. subst run.
  split_and!; [reflexivity | | | | reflexivity];
    refine (bool_decide_unpack _ _); vm_compute; exact I.
Qed.

(** C7 fails on the code: the name of the merged file is built from the
    raw title, and [os.path.join] drops the temporary directory when its
    second argument starts with a slash. For a video titled [/clip] the
    adaptive run succeeds, the two source files are deleted, and the
    merged output is written to [/clip_abc123.mp4], outside the
    temporary directory, which is left empty: the merged file does not
    remain in the workspace. The two source files, by contrast, get their
    names from the provider and are written inside the directory. *)
Theorem merged_output_outside_workspace :
  let dir := "/tmp/tmpk3v9x_1a" in
  let run := download_youtube Scenario.slash
               "https://youtu.be/abc123" 137 "video" 11 7 "adapt" Scenario.world0 in
  fresh_workspace Scenario.slash Scenario.world0
  ∧ fst run = (Some "/clip_abc123.mp4", Some dir)
  ∧ inside dir "/clip_abc123.mp4" = false
  ∧ files (snd run) = {["/clip_abc123.mp4"]}
  ∧ dir ∈ dirs (snd run)
  ∧ map Db.status (Db.usage_logs (db (snd run))) = ["completed"].
Proof.
  intros dir run. subst dir run.
  split_and!; [ | reflexivity | reflexivity | | | reflexivity].
  - split; [done|]. split; [reflexivity|]. split.
    + apply not_elem_of_empty.
    + intros f Hf. by apply not_elem_of_empty in Hf.
  - refine (bool_decide_unpack _ _). vm_compute. exact I.
  - refine (bool_decide_unpack _ _). vm_compute. exact I.
Qed.

End PipelineFacts.

Lemma audio_transcode_fallback_witness :
  let url := "https://youtu.be/abc123" in
  let broken := Scenario.collaborators 0
                  (Some (Provider.OtherException "ffprobe not found")) in
  let sound := Scenario.collaborators 0 None in
  Pipeline.lower
    (snd (Pipeline.splitext "/tmp/tmpk3v9x_1a/clip.m4a")) ≠ ".mp3"
  ∧ fst (Pipeline.download_youtube broken url 139 "audio" 11 7 "prog"
           Scenario.world0)
    = (Some "/tmp/tmpk3v9x_1a/clip.m4a", Some "/tmp/tmpk3v9x_1a")
  ∧ fst (Pipeline.download_youtube sound url 139 "audio" 11 7 "prog"
           Scenario.world0)
    = (Some "/tmp/tmpk3v9x_1a/clip.mp3", Some "/tmp/tmpk3v9x_1a").
Proof.
  intros url broken sound.
  assert (Pipeline.lower
            (snd (Pipeline.splitext "/tmp/tmpk3v9x_1a/clip.m4a")) ≠ ".mp3")
    as Hext by (vm_compute; discriminate).
  split; [exact Hext|]. split.
  - refine (proj1 (proj1 (audio_transcode_fallback broken url 139 11 7 "prog"
                            Scenario.world0 Scenario.yt Scenario.streams
                            (Provider.mkStream 139 Provider.audio false
                               (Some "128kbps") None "mp4" "clip.m4a")
                            eq_refl eq_refl eq_refl eq_refl Hext) _)).
    left. eexists. reflexivity.
  - exact (proj1 (proj2 (audio_transcode_fallback sound url 139 11 7 "prog"
                           Scenario.world0 Scenario.yt Scenario.streams
                           (Provider.mkStream 139 Provider.audio false
                              (Some "128kbps") None "mp4" "clip.m4a")
                           eq_refl eq_refl eq_refl eq_refl Hext)
                        eq_refl eq_refl)).
Defined.

Lemma adaptive_success_keeps_only_merged_witness :
  let run := Pipeline.download_youtube (Scenario.collaborators 0 None)
               "https://youtu.be/abc123" 137 "video" 11 7 "adapt"
               Scenario.world0 in
  Pipeline.fresh_workspace (Scenario.collaborators 0 None) Scenario.world0
  ∧ fst run = (Some "/tmp/tmpk3v9x_1a/clip_abc123.mp4", Some "/tmp/tmpk3v9x_1a")
  ∧ Pipeline.files (snd run)
    = {["/tmp/tmpk3v9x_1a/clip_abc123.mp4"]} ∪ Pipeline.files Scenario.world0.
Proof.
  intros run.
  assert (Pipeline.fresh_workspace (Scenario.collaborators 0 None)
            Scenario.world0) as Hfresh.
  { split; [done|]. split; [reflexivity|]. split.
    - apply not_elem_of_empty.
    - intros f Hf. by apply not_elem_of_empty in Hf. }
  split; [exact Hfresh|]. split; [reflexivity|].
  exact (proj1 (proj2 (proj2 (adaptive_success_keeps_only_merged
                                (Scenario.collaborators 0 None)
                                "https://youtu.be/abc123" 137 11 7
                                Scenario.world0
                                "/tmp/tmpk3v9x_1a/clip_abc123.mp4"
                                "/tmp/tmpk3v9x_1a" Scenario.yt "clip"
                                Hfresh eq_refl eq_refl eq_refl eq_refl)))).
Defined.

(** * Further properties *)

(** Pairwise distinct integer keys of a list literal. *)
Ltac distinct :=
  simpl; repeat constructor; rewrite ?list_elem_of_In; simpl; intuition lia.

(** Membership in a list literal. *)
Ltac list_mem := rewrite ?list_elem_of_In in *; simpl in *; intuition (subst; auto).

(** ** The usage store: users and log rows *)

Section StoreFacts.
Import Db.

Lemma filter_nil_inv {A : Type} (p : A → bool) (l : list A) (x : A) :
  List.filter p l = [] → x ∈ l → p x = false.
Proof.
  intros Hnil Hx. destruct (p x) eqn:Hp; [|done].
  assert (In x (List.filter p l)) as Hin
    by (apply filter_In; split; [by apply list_elem_of_In | done]).
  by rewrite Hnil in Hin.
Qed.

Lemma map_id_on {A : Type} (f : A → A) (l : list A) :
  (∀ x, x ∈ l → f x = x) → map f l = l.
Proof.
  induction l as [|x l IH]; intros Hf; simpl; [done|].
  rewrite Hf by constructor. f_equal. apply IH. intros y Hy. apply Hf. by constructor.
Qed.

Lemma max_id_bound (l : list Z) (x : Z) :
  x ∈ l → x ≤ fold_right Z.max 0 l.
Proof.
  induction l as [|y l IH]; [by intros ?%elem_of_nil|].
  intros [->|Hx]%elem_of_cons; simpl; [lia|]. specialize (IH Hx). lia.
Qed.

Lemma next_id_above (db : database) (r : LogRow) :
  r ∈ usage_logs db → id r < next_id db.
Proof.
  intros Hr. unfold next_id.
  pose proof (max_id_bound (map id (usage_logs db)) (id r)
                (list_elem_of_fmap_2 id _ _ Hr)). lia.
Qed.

(** X1: [save_user] keeps [user_id] a key of the users table: when no two
    rows share a [user_id] before the call, none do after it. *)
Theorem save_user_keeps_primary_key (uid : Z) (uname fname lname : option string)
    (now : string) (db : database) :
  NoDup (map user_id (users db)) →
  NoDup (map user_id (users (save_user uid uname fname lname now db))).
Proof.
  intros Hnd. unfold save_user.
  destruct (List.filter _ (users db)) as [|u us] eqn:Hf; [|done].
  simpl. rewrite map_app. simpl. apply NoDup_app. split_and!; [done | | apply NoDup_singleton].
  intros k Hk ->%list_elem_of_singleton.
  apply list_elem_of_fmap in Hk as (u & -> & Hu).
  apply (filter_nil_inv _ _ u Hf) in Hu. simpl in Hu. lia.
Qed.

Lemma save_user_keeps_primary_key_witness :
  NoDup (map Db.user_id (Db.users Scenario.store))
  ∧ NoDup (map Db.user_id
             (Db.users (Db.save_user 13 (Some "citra") (Some "Citra") None
                          "2025-01-03 10:00:00" Scenario.store))).
Proof.
  assert (NoDup (map Db.user_id (Db.users Scenario.store))) as Hnd by distinct.
  split; [exact Hnd|].
  exact (save_user_keeps_primary_key 13 (Some "citra") (Some "Citra") None
           "2025-01-03 10:00:00" Scenario.store Hnd).
Defined.

(** X2: [save_user] records a user once: a second call for the same
    [user_id], with whatever names and at whatever time, changes nothing,
    so a later change of username is never stored. *)
Theorem save_user_first_seen_only (uid : Z)
    (uname fname lname uname' fname' lname' : option string)
    (now now' : string) (db : database) :
  save_user uid uname' fname' lname' now' (save_user uid uname fname lname now db)
  = save_user uid uname fname lname now db.
Proof.
  unfold save_user at 2 3.
  destruct (List.filter _ (users db)) as [|u us] eqn:Hf.
  - unfold save_user. simpl. rewrite List.filter_app, Hf. simpl.
    by rewrite Z.eqb_refl.
  - unfold save_user. by rewrite Hf.
Qed.

(** X3: The id [log_usage] returns is larger than the id of every row
    already in [usage_logs], and the ids stay pairwise distinct. *)
Theorem log_usage_fresh_id (uid : Z) (act url fmt qual now st err : string)
    (db : database) :
  let '(last_id, db') := log_usage uid act url fmt qual now st err db in
  (∀ r, r ∈ usage_logs db → id r < last_id)
  ∧ (NoDup (map id (usage_logs db)) → NoDup (map id (usage_logs db'))).
Proof.
  simpl. split; [apply next_id_above|].
  intros Hnd. rewrite map_app. simpl.
  apply NoDup_app. split_and!; [done | | apply NoDup_singleton].
  intros k Hk ->%list_elem_of_singleton.
  apply list_elem_of_fmap in Hk as (r & Hid & Hr).
  apply next_id_above in Hr. lia.
Qed.

Lemma log_usage_fresh_id_witness :
  NoDup (map Db.id (Db.usage_logs Scenario.store))
  ∧ NoDup (map Db.id
             (Db.usage_logs
                (snd (Db.log_usage 11 "download" "https://youtu.be/abc123"
                        "audio" "128kbps" "2025-01-03 10:00:00" "started" ""
                        Scenario.store)))).
Proof.
  assert (NoDup (map Db.id (Db.usage_logs Scenario.store))) as Hnd by distinct.
  split; [exact Hnd|].
  exact (proj2 (log_usage_fresh_id 11 "download" "https://youtu.be/abc123"
                  "audio" "128kbps" "2025-01-03 10:00:00" "started" ""
                  Scenario.store) Hnd).
Defined.

(** X4: [update_log_status] on the id [log_usage] has just returned
    rewrites the status and the error message of that new row and of no
    other: every older row and the users table are as before. *)
Theorem log_usage_then_update (uid : Z) (act url fmt qual now st err : string)
    (st' err' : string) (db : database) :
  let '(last_id, db') := log_usage uid act url fmt qual now st err db in
  update_log_status last_id st' err' db'
  = mkDb (users db)
         (usage_logs db ++ [mkLog last_id uid act url fmt qual now st' err']).
Proof.
  simpl. unfold update_log_status. simpl. f_equal.
  rewrite map_app. simpl. rewrite Z.eqb_refl. f_equal.
  apply map_id_on. intros r Hr.
  apply next_id_above in Hr.
  destruct (Z.eqb_spec (id r) (next_id db)); [lia | done].
Qed.

(** An update of an id that no row has changes nothing. *)
Lemma update_log_status_unknown_id (log_id : Z) (st err : string)
    (db : database) :
  (∀ r, r ∈ usage_logs db → id r ≠ log_id) →
  update_log_status log_id st err db = db.
Proof.
  intros Hno. unfold update_log_status. destruct db as [us logs]. simpl in *.
  f_equal. apply map_id_on. intros r Hr.
  destruct (Z.eqb_spec (id r) log_id) as [Heq|]; [|done].
  by apply Hno in Hr.
Qed.

(** X5: Of two updates of the same row the later one wins, and updates
    of different rows commute. *)
Theorem update_log_status_last_wins (i j : Z) (s1 e1 s2 e2 : string)
    (db : database) :
  update_log_status i s2 e2 (update_log_status i s1 e1 db)
  = update_log_status i s2 e2 db
  ∧ (i ≠ j →
     update_log_status i s1 e1 (update_log_status j s2 e2 db)
     = update_log_status j s2 e2 (update_log_status i s1 e1 db)).
Proof.
  unfold update_log_status. simpl. split.
  - f_equal. rewrite map_map. apply map_ext. intros r.
    destruct (id r =? i) eqn:Hi; simpl; by rewrite Hi.
  - intros Hij. f_equal. rewrite !map_map. apply map_ext. intros r.
    destruct (id r =? i) eqn:Hi, (id r =? j) eqn:Hj; simpl;
      rewrite ?Hi, ?Hj; try done.
    apply Z.eqb_eq in Hi, Hj. lia.
Qed.

Lemma update_log_status_last_wins_witness :
  2 ≠ 3
  ∧ Db.update_log_status 2 "failed" "x"
      (Db.update_log_status 3 "completed" "" Scenario.store)
    = Db.update_log_status 3 "completed" ""
        (Db.update_log_status 2 "failed" "x" Scenario.store).
Proof.
  assert (2 ≠ 3) as Hne by lia.
  split; [exact Hne|].
  exact (proj2 (update_log_status_last_wins 2 3 "failed" "x" "completed" ""
                  Scenario.store) Hne).
Defined.

Lemma filter_snoc_false {A : Type} (p : A → bool) (l : list A) (x : A) :
  p x = false → List.filter p (l ++ [x]) = List.filter p l.
Proof. intros Hp. rewrite List.filter_app. simpl. by rewrite Hp, app_nil_r. Qed.

(** X6: A download request counts in [total_downloads] as soon as it is
    logged, whatever becomes of it, while the ranking of the top users is
    not affected until the row is completed. *)
Theorem log_usage_counts_at_once (uid : Z) (url fmt qual now st err : string)
    (db : database) :
  st ≠ "completed" →
  let db' := snd (log_usage uid "download" url fmt qual now st err db) in
  total_downloads (get_user_stats db') = S (total_downloads (get_user_stats db))
  ∧ top_users (get_user_stats db') = top_users (get_user_stats db).
Proof.
  intros Hst. simpl. split.
  - rewrite List.filter_app, length_app. simpl. lia.
  - unfold grouped, joined. simpl.
    rewrite filter_snoc_false; [done|].
    unfold completed_download. simpl. apply String.eqb_neq in Hst. by rewrite Hst.
Qed.

Lemma log_usage_counts_at_once_witness :
  "started" ≠ "completed"
  ∧ Db.total_downloads
      (Db.get_user_stats
         (snd (Db.log_usage 11 "download" "https://youtu.be/abc123" "audio"
                 "128kbps" "2025-01-03 10:00:00" "started" "" Scenario.store)))
    = S (Db.total_downloads (Db.get_user_stats Scenario.store)).
Proof.
  assert ("started" ≠ "completed") as Hne by discriminate.
  split; [exact Hne|].
  exact (proj1 (log_usage_counts_at_once 11 "https://youtu.be/abc123" "audio"
                  "128kbps" "2025-01-03 10:00:00" "started" "" Scenario.store
                  Hne)).
Defined.

(** X7: Marking a download row that was not yet completed as
    ["completed"] adds exactly one to the completed downloads counted
    for its user (the ids of [usage_logs] being distinct). *)
Theorem completing_counts_for_user (log_id : Z) (db : database)
    (r : LogRow) (u : UserRow) :
  NoDup (map id (usage_logs db)) →
  r ∈ usage_logs db → id r = log_id →
  action r = "download" → status r ≠ "completed" →
  log_user_id r = user_id u →
  completed_by (update_log_status log_id "completed" "" db) u
  = S (completed_by db u).
Proof.
  unfold completed_by, update_log_status. cbn [usage_logs].
  set (f := λ r0 : LogRow, if id r0 =? log_id then _ else r0).
  intros Hnd Hr Hid Hact Hst Hu.
  assert (completed_download r = false) as Hcr.
  { unfold completed_download. apply String.eqb_neq in Hst.
    by rewrite Hst, andb_false_r. }
  assert (completed_download (f r) = true) as Hcf.
  { unfold f, completed_download. rewrite Hid, Z.eqb_refl. cbn [action status].
    by rewrite Hact. }
  assert (log_user_id (f r) = user_id u) as Huf.
  { unfold f. by rewrite Hid, Z.eqb_refl. }
  induction (usage_logs db) as [|x l IH]; [by apply elem_of_nil in Hr|].
  cbn [map] in Hnd. apply NoDup_cons in Hnd as [Hx Hnd].
  cbn [map List.filter].
  apply elem_of_cons in Hr as [<-|Hr].
  - rewrite Hcr, Hcf. cbn [List.filter]. rewrite Huf, Z.eqb_refl.
    cbn [List.length]. do 4 f_equal. apply map_id_on. intros y Hy. unfold f.
    destruct (Z.eqb_spec (id y) log_id) as [Heq|]; [|done].
    exfalso. apply Hx. rewrite Hid, <- Heq. by apply list_elem_of_fmap_2.
  - assert (f x = x) as ->.
    { unfold f. destruct (Z.eqb_spec (id x) log_id) as [Heq|]; [|done].
      exfalso. apply Hx. rewrite Heq, <- Hid. by apply list_elem_of_fmap_2. }
    destruct (completed_download x); cbn [List.filter]; [|by apply IH].
    destruct (log_user_id x =? user_id u); cbn [List.length]; [|by apply IH].
    f_equal. by apply IH.
Qed.

Lemma completing_counts_for_user_witness :
  let r := Db.mkLog 3 11 "download" "https://youtu.be/abc123" "video" "1080p"
             "2025-01-01 10:02:00" "failed" "Error mengunduh video: ffmpeg" in
  let u := Db.mkUser 11 (Some "ani") (Some "Ani") None "2025-01-01 10:00:00" in
  NoDup (map Db.id (Db.usage_logs Scenario.store))
  ∧ r ∈ Db.usage_logs Scenario.store
  ∧ Db.completed_by (Db.update_log_status 3 "completed" "" Scenario.store) u
    = S (Db.completed_by Scenario.store u).
Proof.
  intros r u.
  assert (NoDup (map Db.id (Db.usage_logs Scenario.store))) as Hnd by distinct.
  assert (r ∈ Db.usage_logs Scenario.store) as Hr.
  { apply list_elem_of_In. simpl. auto. }
  split; [exact Hnd|]. split; [exact Hr|].
  apply (completing_counts_for_user 3 Scenario.store r u Hnd Hr);
    [reflexivity | reflexivity | discriminate | reflexivity].
Defined.
Lemma ascii_compare_lt (a b : ascii) :
  Ascii.compare a b = Lt ↔ (N_of_ascii a < N_of_ascii b)%N.
Proof. unfold Ascii.compare. apply N.compare_lt_iff. Qed.

Lemma string_leb_trans (x y z : string) :
  String.leb x y = true → String.leb y z = true → String.leb x z = true.
Proof.
  revert y z. induction x as [|a x IH]; intros [|b y] [|c z];
    unfold String.leb; simpl; try done.
  destruct (Ascii.compare a b) eqn:Hab; [| |done].
  - apply Ascii.compare_eq_iff in Hab as ->.
    destruct (Ascii.compare b c); [apply IH | done | done].
  - destruct (Ascii.compare b c) eqn:Hbc; [| |done]; intros _ _.
    + apply Ascii.compare_eq_iff in Hbc as <-. by rewrite Hab.
    + apply ascii_compare_lt in Hab, Hbc.
      assert (Ascii.compare a c = Lt) as ->
        by (apply ascii_compare_lt; eapply N.lt_trans; eauto).
      done.
Qed.

Lemma string_leb_total (x y : string) :
  String.leb x y = false → String.leb y x = true.
Proof. intros H. destruct (String.leb_total x y) as [H'|H']; congruence. Qed.

Lemma remove_dups_NoDup {A : Type} `{EqDecision A} (l : list A) :
  NoDup l → remove_dups l = l.
Proof.
  induction 1 as [|x l Hx Hl IH]; simpl; [done|].
  destruct (decide_rel elem_of x l); [done|]. by rewrite IH.
Qed.

(** X8: [recent_errors] holds at most five entries, ordered by
    timestamp from the newest on, each taken from a row of [usage_logs]
    whose error message is not empty. *)
Theorem recent_errors_newest_first (db : database) :
  let errs := recent_errors (get_user_stats db) in
  (List.length errs ≤ 5)%nat
  ∧ StronglySorted (λ x y, String.leb (snd y) (snd x) = true) errs
  ∧ ∀ a u e t, (a, u, e, t) ∈ errs →
      e ≠ "" ∧ ∃ r, r ∈ usage_logs db ∧ action r = a ∧ video_url r = u
                    ∧ error_message r = e ∧ timestamp r = t.
Proof.
  simpl. split_and!.
  - rewrite length_take. lia.
  - eapply StronglySorted_sublist; [apply sublist_take|].
    set (rows := sort_by _ _).
    assert (StronglySorted (λ x y, String.leb (timestamp y) (timestamp x) = true) rows)
      as Hs.
    { apply (sort_by_sorted (λ x y, String.leb (timestamp y) (timestamp x))).
      - intros x y. apply string_leb_total.
      - intros x y z Hxy Hyz. eapply string_leb_trans; eauto. }
    clearbody rows. induction Hs as [|x l Hl IH Hx]; simpl; constructor; [done|].
    apply Forall_fmap. eapply Forall_impl; [exact Hx|]. done.
  - intros a u e t Hin.
    pose proof (elem_of_sublist _ _ _ Hin (sublist_take _ _)) as Hin'.
    apply list_elem_of_fmap in Hin' as (r & [= -> -> -> ->] & Hr).
    rewrite sort_by_perm in Hr.
    apply list_elem_of_In, filter_In in Hr as [Hr Hne].
    apply negb_true_iff, String.eqb_neq in Hne.
    split; [done|]. exists r. by rewrite list_elem_of_In.
Qed.

(** X9: [save_user] raises [total_users] by one for a user that was not
    yet in the table and leaves it unchanged otherwise ([user_id] being
    a key of the table). *)
Theorem save_user_counts_new_users (uid : Z) (uname fname lname : option string)
    (now : string) (db : database) :
  NoDup (map user_id (users db)) →
  total_users (get_user_stats (save_user uid uname fname lname now db))
  = if bool_decide (uid ∈ map user_id (users db))
    then total_users (get_user_stats db)
    else S (total_users (get_user_stats db)).
Proof.
  intros Hnd. unfold save_user.
  destruct (List.filter _ (users db)) as [|u us] eqn:Hf.
  - rewrite bool_decide_eq_false_2.
    + simpl. rewrite !remove_dups_NoDup, map_app, length_app; [simpl; lia | done |].
      rewrite map_app. simpl. apply NoDup_app. split_and!; [done | | apply NoDup_singleton].
      intros k Hk ->%list_elem_of_singleton.
      apply list_elem_of_fmap in Hk as (u & -> & Hu).
      apply (filter_nil_inv _ _ u Hf) in Hu. simpl in Hu. lia.
    + intros (u & -> & Hu)%list_elem_of_fmap.
      apply (filter_nil_inv _ _ u Hf) in Hu. simpl in Hu. lia.
  - rewrite bool_decide_eq_true_2; [done|].
    assert (In u (List.filter (λ u0, user_id u0 =? uid) (users db))) as Hin
      by (rewrite Hf; by left).
    apply filter_In in Hin as [Hin Heq]. apply Z.eqb_eq in Heq. subst uid.
    by apply list_elem_of_fmap_2, list_elem_of_In.
Qed.

Lemma save_user_counts_new_users_witness :
  NoDup (map Db.user_id (Db.users Scenario.store))
  ∧ Db.total_users
      (Db.get_user_stats
         (Db.save_user 13 (Some "citra") (Some "Citra") None
            "2025-01-03 10:00:00" Scenario.store))
    = 3%nat.
Proof.
  assert (NoDup (map Db.user_id (Db.users Scenario.store))) as Hnd by distinct.
  split; [exact Hnd|].
  exact (save_user_counts_new_users 13 (Some "citra") (Some "Citra") None
           "2025-01-03 10:00:00" Scenario.store Hnd).
Defined.
End StoreFacts.

(** ** Video ids *)

Section UrlMore.
Import Url.

Lemma has_char_app (c : ascii) (s t : string) :
  has_char c (s +:+ t) = has_char c s || has_char c t.
Proof.
  induction s as [|a s IH]; [done|]. rewrite sapp_cons. simpl.
  by rewrite IH, orb_assoc.
Qed.

Lemma all_chars_has_char (p : ascii → bool) (c : ascii) (s : string) :
  all_chars p s = true → p c = false → has_char c s = false.
Proof.
  intros Hall Hc. induction s as [|a s IH]; [done|]. simpl in *.
  apply andb_true_iff in Hall as [Ha Hall]. rewrite IH by done.
  destruct (Ascii.eqb_spec a c) as [->|]; [congruence | done].
Qed.

Lemma all_chars_app (p : ascii → bool) (s t : string) :
  all_chars p (s +:+ t) = all_chars p s && all_chars p t.
Proof.
  induction s as [|a s IH]; [done|]. rewrite sapp_cons. simpl.
  by rewrite IH, andb_assoc.
Qed.

(** The greedy [p+] takes the whole run of class characters when the
    continuation accepts what follows it. *)
Lemma run_plus_greedy (p : ascii → bool) (x rest : string)
    (k : string → option captures) (m : captures) :
  x ≠ "" → all_chars p x = true →
  match rest with EmptyString => true | String c _ => negb (p c) end = true →
  k rest = Some m →
  run_plus p (x +:+ rest) k = Some m.
Proof.
  intros Hx Hall Hrest Hk. induction x as [|c x IH]; [done|].
  rewrite sapp_cons. simpl in *.
  apply andb_true_iff in Hall as [Hc Hall]. rewrite Hc.
  destruct x as [|c' x].
  - rewrite sapp_nil_l.
    assert (run_plus p rest k = None) as ->; [|done].
    destruct rest as [|d rest]; [done|]. simpl.
    apply negb_true_iff in Hrest. by rewrite Hrest.
  - by rewrite IH.
Qed.

Lemma re_search_none (r : regex) (s : string) :
  (∀ pre t, s = pre +:+ t → re_match r t = None) → re_search r s = None.
Proof.
  induction s as [|c s IH]; intros Hno; simpl.
  - by rewrite (Hno "" "").
  - rewrite (Hno "" (String c s)) by done. apply IH.
    intros pre t ->. by apply (Hno (String c pre) t).
Qed.

Lemma re_search_head (r : regex) (s : string) (m : captures) :
  re_match r s = Some m → re_search r s = Some m.
Proof. intros H. destruct s; simpl; by rewrite H. Qed.

Lemma re_search_app (r : regex) (pre s : string) :
  is_Some (re_search r s) → is_Some (re_search r (pre +:+ s)).
Proof.
  intros Hs. induction pre as [|c pre IH]; [done|].
  rewrite sapp_cons. simpl. by destruct (re_match r _).
Qed.

(** A text in which [=] does not occur has no match of the watch pattern. *)
Lemma pattern1_needs_equals (s : string) :
  has_char "=" s = false → re_search pattern1 s = None.
Proof.
  intros Hno. apply re_search_none. intros pre t ->.
  destruct (re_match pattern1 t) as [m|] eqn:Hm; [|done]. exfalso.
  assert (is_Some (re_match pattern1 t)) as Hs by eauto.
  apply re_match_iff in Hs as (x & rest & -> & Hx).
  unfold pattern1 in Hx.
  apply (matches_shape (λ r, r) (λ r, r) _ (Group 1)) in Hx;
    [| done | done | apply matches_group].
  destruct Hx as (scheme & www & h & vid & _ & _ & Hh & _ & _ & ->).
  apply matches_lit in Hh as ->.
  rewrite !has_char_app in Hno.
  apply orb_false_iff in Hno as [_ Hno].
  apply orb_false_iff in Hno as [Hno _].
  apply orb_false_iff in Hno as [_ Hno].
  apply orb_false_iff in Hno as [_ Hno].
  apply orb_false_iff in Hno as [Hno _]. discriminate Hno.
Qed.

(** The match of an extraction pattern on its own canonical form. *)
Lemma re_match_canonical (host : string) (scheme www vid rest : string) :
  scheme ∈ [""; "http://"; "https://"] → www ∈ [""; "www."] →
  host ∈ ["youtube.com/watch?v="; "youtu.be/"] →
  vid ≠ "" → all_chars id_char vid = true →
  match rest with EmptyString => true | String c _ => negb (id_char c) end = true →
  ∃ m, re_match
         (Seq (Opt (Seq (Lit "http") (Seq (Opt (Lit "s")) (Lit "://"))))
         (Seq (Opt (Lit "www."))
         (Seq (Lit host) (Group 1 (ClassPlus id_char)))))
         (scheme +:+ www +:+ host +:+ vid +:+ rest) = Some m
       ∧ group m 1 = Some vid.
Proof.
  intros Hs Hw Hh Hne Hall Hrest.
  assert (run_plus id_char (vid +:+ rest)
            (λ s', Some (<[1%nat := stake (String.length (vid +:+ rest)
                                           - String.length s') (vid +:+ rest)]> ∅))
          = Some (<[1%nat := vid]> ∅)) as Hg.
  { erewrite run_plus_greedy; [| done | done | done | reflexivity].
    rewrite slength_app.
    replace (String.length vid + String.length rest - String.length rest)%nat
      with (String.length vid) by lia.
    by rewrite stake_app. }
  exists (<[1%nat := vid]> ∅). split; [|apply lookup_insert_eq].
  apply list_elem_of_In in Hs, Hw, Hh. simpl in Hs, Hw, Hh.
  destruct Hs as [<-|[<-|[<-|[]]]], Hw as [<-|[<-|[]]], Hh as [<-|[<-|[]]];
    repeat (rewrite sapp_cons || rewrite sapp_nil_l);
    unfold re_match; simpl; by rewrite Hg.
Qed.

(** X10: Whatever [extract_video_id] returns is a non-empty string of
    letters, digits, [_] and [-]. *)
Theorem extract_video_id_well_formed (url vid : string) :
  extract_video_id url = Some vid →
  vid ≠ "" ∧ all_chars id_char vid = true.
Proof.
  unfold extract_video_id.
  destruct (re_search pattern1 url) as [m|] eqn:H1.
  { apply search_group_nonempty in H1 as (v & -> & ? & ?). by intros [= <-]. }
  destruct (re_search pattern2 url) as [m|] eqn:H2; [|done].
  apply search_group_nonempty in H2 as (v & -> & ? & ?). by intros [= <-].
Qed.

Lemma extract_video_id_well_formed_witness :
  Url.extract_video_id "https://www.youtube.com/watch?v=dQw4w9WgXcQ&t=10"
    = Some "dQw4w9WgXcQ"
  ∧ "dQw4w9WgXcQ" ≠ "" ∧ Url.all_chars Url.id_char "dQw4w9WgXcQ" = true.
Proof.
  assert (Url.extract_video_id "https://www.youtube.com/watch?v=dQw4w9WgXcQ&t=10"
          = Some "dQw4w9WgXcQ") as Hid by reflexivity.
  split; [exact Hid|].
  exact (extract_video_id_well_formed _ _ Hid).
Defined.

(** X11: The URL [get_video_info_by_id] and the download branch build
    from a video id, [https://youtu.be/<id>], is accepted by
    [is_valid_youtube_url], and [extract_video_id] gives back the id,
    for every non-empty id of letters, digits, [_] and [-]. *)
Theorem short_url_round_trip (vid : string) :
  vid ≠ "" → all_chars id_char vid = true →
  is_valid_youtube_url ("https://youtu.be/" +:+ vid) = true
  ∧ extract_video_id ("https://youtu.be/" +:+ vid) = Some vid.
Proof.
  intros Hne Hall.
  destruct (re_match_canonical "youtu.be/" "https://" "" vid "")
    as (m & Hm & Hg); [list_mem | list_mem | list_mem | done | done | done |].
  rewrite sapp_nil_r in Hm. change ("https://" +:+ "" +:+ "youtu.be/" +:+ vid)
    with ("https://youtu.be/" +:+ vid) in Hm.
  split.
  - unfold is_valid_youtube_url.
    assert (is_Some (re_match youtube_regex ("https://youtu.be/" +:+ vid))) as [? ->];
      [|done].
    apply re_match_iff. exists ("https://youtu.be/" +:+ vid), "".
    split; [by rewrite sapp_nil_r|].
    apply matches_youtube_regex. exists "https://", "", "youtu.be/", vid.
    split_and!; try done; list_mem.
  - unfold extract_video_id.
    rewrite pattern1_needs_equals.
    + by rewrite (re_search_head pattern2 _ m Hm).
    + rewrite has_char_app.
      by rewrite (all_chars_has_char id_char "=" vid Hall eq_refl).
Qed.

Lemma short_url_round_trip_witness :
  "dQw4w9WgXcQ" ≠ ""
  ∧ Url.all_chars Url.id_char "dQw4w9WgXcQ" = true
  ∧ Url.is_valid_youtube_url ("https://youtu.be/" +:+ "dQw4w9WgXcQ") = true
  ∧ Url.extract_video_id ("https://youtu.be/" +:+ "dQw4w9WgXcQ")
    = Some "dQw4w9WgXcQ".
Proof.
  assert ("dQw4w9WgXcQ" ≠ "") as Hne by discriminate.
  assert (Url.all_chars Url.id_char "dQw4w9WgXcQ" = true) as Hid by reflexivity.
  split; [exact Hne|]. split; [exact Hid|].
  exact (short_url_round_trip "dQw4w9WgXcQ" Hne Hid).
Defined.

(** X12: From a watch URL, with or without scheme and [www.],
    [extract_video_id] returns the whole [v] parameter: the longest run
    of id characters after [watch?v=], up to the end of the URL or the
    first other character. *)
Theorem watch_url_extracts_exact_id (scheme www vid rest : string) :
  scheme ∈ [""; "http://"; "https://"] → www ∈ [""; "www."] →
  vid ≠ "" → all_chars id_char vid = true →
  match rest with EmptyString => true | String c _ => negb (id_char c) end = true →
  extract_video_id (scheme +:+ www +:+ "youtube.com/watch?v=" +:+ vid +:+ rest)
  = Some vid.
Proof.
  intros Hs Hw Hne Hall Hrest.
  destruct (re_match_canonical "youtube.com/watch?v=" scheme www vid rest)
    as (m & Hm & Hg); [done | done | list_mem | done..|].
  unfold extract_video_id.
  by rewrite (re_search_head pattern1 _ m Hm).
Qed.

Lemma watch_url_extracts_exact_id_witness :
  "https://" ∈ [""; "http://"; "https://"]
  ∧ "www." ∈ [""; "www."]
  ∧ Url.extract_video_id
      ("https://" +:+ "www." +:+ "youtube.com/watch?v=" +:+ "dQw4w9WgXcQ"
       +:+ "&t=10")
    = Some "dQw4w9WgXcQ".
Proof.
  assert ("https://" ∈ [""; "http://"; "https://"]) as Hs
    by (apply list_elem_of_In; simpl; auto).
  assert ("www." ∈ [""; "www."]) as Hw
    by (apply list_elem_of_In; simpl; auto).
  split; [exact Hs|]. split; [exact Hw|].
  apply (watch_url_extracts_exact_id "https://" "www." "dQw4w9WgXcQ" "&t=10" Hs Hw);
    [discriminate | reflexivity | reflexivity].
Defined.

(** *** What the search computes *)

Local Abbreviation extraction host :=
  (Seq (Opt (Seq (Lit "http") (Seq (Opt (Lit "s")) (Lit "://"))))
  (Seq (Opt (Lit "www."))
  (Seq (Lit host) (Group 1 (ClassPlus id_char))))).

Lemma leading_id_run (vid rest : string) :
  all_chars id_char vid = true → ends_id rest = true →
  leading_id (vid +:+ rest) = vid.
Proof.
  intros Hall Hend. induction vid as [|c vid IH].
  - rewrite sapp_nil_l. destruct rest as [|d rest]; [done|]. simpl in *.
    apply negb_true_iff in Hend. by rewrite Hend.
  - rewrite sapp_cons. simpl in *.
    apply andb_true_iff in Hall as [Hc Hall]. by rewrite Hc, IH.
Qed.

Lemma leading_id_split (s : string) :
  ∃ rest, s = leading_id s +:+ rest
          ∧ all_chars id_char (leading_id s) = true ∧ ends_id rest = true.
Proof.
  induction s as [|c s (rest & Hs & Hall & Hend)]; [by exists ""|]. simpl.
  destruct (id_char c) eqn:Hc.
  - exists rest. rewrite sapp_cons. simpl. by rewrite Hc, Hall, <- Hs.
  - exists (String c s). simpl. by rewrite Hc.
Qed.

(** Text without [y] before a marker is skipped. *)
Lemma find_id_skip (marker pre s : string) :
  has_char "y" pre = false →
  find_id (String "y" marker) (pre +:+ s) = find_id (String "y" marker) s.
Proof.
  intros Hpre. induction pre as [|c pre IH]; [done|].
  simpl in Hpre. apply orb_false_iff in Hpre as [Hc Hpre].
  rewrite sapp_cons. cbn [find_id strip_prefix].
  rewrite Ascii.eqb_sym, Hc. by apply IH.
Qed.

Lemma find_id_here (marker vid rest : string) :
  vid ≠ "" → all_chars id_char vid = true → ends_id rest = true →
  find_id (String "y" marker) (String "y" marker +:+ vid +:+ rest) = Some vid.
Proof.
  intros Hne Hall Hend. rewrite sapp_cons. cbn [find_id].
  rewrite <- sapp_cons.
  rewrite (proj2 (strip_prefix_spec _ (_ +:+ vid +:+ rest) (vid +:+ rest)) eq_refl).
  rewrite leading_id_run by done. by destruct vid.
Qed.

(** [re.search] with an extraction pattern finds the id after the
    leftmost marker that an id character follows: the optional scheme
    and [www.] play no part in what group 1 holds. *)
Lemma re_search_find_id (marker s : string) :
  (re_search (extraction (String "y" marker)) s ≫= λ m, group m 1)
  = find_id (String "y" marker) s.
Proof.
  induction s as [|c s IH].
  - cbn [re_search].
    destruct (re_match (extraction (String "y" marker)) "") as [m|] eqn:Hm;
      [|done].
    apply re_match_id in Hm as (scheme & www & vid & rest & Hs & Hw & Heq & _).
    exfalso. clear -Hs Hw Heq. list_mem; discriminate Heq.
  - cbn [re_search].
    destruct (re_match (extraction (String "y" marker)) (String c s))
      as [m|] eqn:Hm.
    + apply re_match_id in Hm
        as (scheme & www & vid & rest & Hs & Hw & -> & Hg & Hne & Hall & Hend).
      cbn [mbind option_bind]. rewrite Hg.
      rewrite <- (sapp_assoc scheme www).
      rewrite find_id_skip; [by rewrite find_id_here|].
      rewrite has_char_app. clear -Hs Hw. list_mem.
    + rewrite IH. cbn [find_id].
      destruct (strip_prefix _ (String c s)) as [t|] eqn:Ht; [|done].
      destruct (leading_id t) as [|d vid] eqn:Hl; [done|]. exfalso.
      apply strip_prefix_spec in Ht.
      destruct (leading_id_split t) as (rest & Hsplit & Hall & _).
      assert (is_Some (re_match (extraction (String "y" marker)) (String c s)))
        as [m' Hm']; [|congruence].
      apply re_match_iff.
      exists (String "y" marker +:+ leading_id t), rest.
      split; [by rewrite Ht, Hsplit at 1; rewrite sapp_assoc|].
      apply (matches_shape (λ r, r) (λ r, r) _ (Group 1));
        [done | done | apply matches_group |].
      exists "", "", (String "y" marker), (leading_id t).
      split_and!; [list_mem | list_mem | constructor | by rewrite Hl | done | done].
Qed.

(** [extract_video_id] returns the id after the leftmost watch marker that
    an id character follows and, when there is none, the id after the
    leftmost [youtu.be/] marker that one follows. *)
Lemma extract_video_id_leftmost (url : string) :
  extract_video_id url
  = match find_id "youtube.com/watch?v=" url with
    | Some vid => Some vid
    | None => find_id "youtu.be/" url
    end.
Proof.
  unfold extract_video_id, pattern1, pattern2.
  rewrite <- !re_search_find_id.
  destruct (re_search _ url) as [m|] eqn:H1.
  { apply search_group_id in H1 as (vid & _ & _ & Hg & _). simpl. by rewrite Hg. }
  simpl. by destruct (re_search _ url).
Qed.

(** X13: [extract_video_id] searches, and text before the URL does not
    disturb it: text in which the letter [y] does not occur, put before
    any string, leaves the result exactly as it is for the string alone;
    and whatever text precedes a URL that [is_valid_youtube_url] accepts,
    the result is not [None] but a video id the whole text carries. *)
Theorem extract_video_id_any_position (pre url : string) :
  (has_char "y" pre = false →
   extract_video_id (pre +:+ url) = extract_video_id url)
  ∧ (is_valid_youtube_url url = true →
     ∃ vid, extract_video_id (pre +:+ url) = Some vid
            ∧ carries_id (pre +:+ url) vid).
Proof.
  split.
  - intros Hpre. rewrite !extract_video_id_leftmost.
    by rewrite !find_id_skip.
  - intros Hv.
    assert (is_Some (extract_video_id (pre +:+ url))) as [vid Hvid].
    { assert (is_Some (re_match youtube_regex url)) as Hm.
      { unfold is_valid_youtube_url in Hv.
        by destruct (re_match youtube_regex url). }
      apply re_match_iff in Hm as (x & rest & -> & Hx).
      unfold extract_video_id.
      destruct (re_search pattern1 _) as [m|] eqn:H1.
      { apply search_group_nonempty in H1 as (vid & -> & _). eauto. }
      destruct (re_search pattern2 _) as [m|] eqn:H2.
      { apply search_group_nonempty in H2 as (vid & -> & _). eauto. }
      apply matches_pattern in Hx as [Hx|Hx].
      - assert (is_Some (re_search pattern1 (pre +:+ x +:+ rest))) as [? ?];
          [|congruence].
        apply re_search_app, re_search_of_match, re_match_iff. eauto.
      - assert (is_Some (re_search pattern2 (pre +:+ x +:+ rest))) as [? ?];
          [|congruence].
        apply re_search_app, re_search_of_match, re_match_iff. eauto. }
    exists vid. split; [done|]. by apply extract_video_id_carries.
Qed.

Lemma extract_video_id_any_position_witness :
  has_char "y" "lihat " = false
  ∧ is_valid_youtube_url "https://youtu.be/abc123" = true
  ∧ extract_video_id ("lihat " +:+ "https://youtu.be/abc123")
    = extract_video_id "https://youtu.be/abc123"
  ∧ ∃ vid, extract_video_id ("lihat " +:+ "https://youtu.be/abc123") = Some vid
           ∧ carries_id ("lihat " +:+ "https://youtu.be/abc123") vid.
Proof.
  assert (has_char "y" "lihat " = false) as Hpre by reflexivity.
  assert (is_valid_youtube_url "https://youtu.be/abc123" = true) as Hv
    by reflexivity.
  split; [exact Hpre|]. split; [exact Hv|].
  destruct (extract_video_id_any_position "lihat " "https://youtu.be/abc123")
    as [Hsame Hid].
  split; [exact (Hsame Hpre) | exact (Hid Hv)].
Defined.

End UrlMore.

(** ** Catalog options *)

Section CatalogMore.
Import Provider Catalog.
Variable rank : string → Z.

(** The streams of a provider query are streams of the listing. *)
Lemma desc_order_by_elem (attr : Stream → option string) (l : list Stream)
    (s : Stream) :
  s ∈ desc (order_by rank attr l) → s ∈ l ∧ is_Some (attr s).
Proof.
  unfold desc, order_by. rewrite list_elem_of_In, <- in_rev, <- list_elem_of_In.
  rewrite sort_by_perm, list_elem_of_In, filter_In, <- list_elem_of_In.
  intros [Hs Ha]. split; [done|]. by destruct (attr s).
Qed.

Lemma get_by_itag_elem (l : list Stream) (s : Stream) :
  s ∈ l → is_Some (get_by_itag (itag s) l).
Proof.
  intros Hs. unfold get_by_itag.
  assert (In s (List.filter (λ s0, itag s0 =? itag s) l)) as Hin.
  { apply filter_In. split; [by apply list_elem_of_In | apply Z.eqb_refl]. }
  destruct (List.filter _ l) as [|x xs] using rev_ind; [done|].
  rewrite last_snoc. eauto.
Qed.

Lemma build_audio_options_elem (l : list Stream) (o : StreamOption) :
  o ∈ build_audio_options rank l →
  ∃ s, s ∈ l ∧ o = mkOption (itag s) "audio" (quality o) (subtype s) None
       ∧ abr s = Some (quality o) ∧ quality o ≠ ""
       ∧ includes_audio_track s = true ∧ includes_video_track s = false.
Proof.
  unfold build_audio_options.
  intros (s & Hs & Ho)%list_elem_of_In%in_flat_map.
  apply list_elem_of_In, desc_order_by_elem in Hs as [Hs _].
  unfold only_audio in Hs.
  apply list_elem_of_In, filter_In in Hs as [Hs Hf].
  apply andb_true_iff in Hf as [Ha Hv]. apply negb_true_iff in Hv.
  exists s. unfold audio_option in Ho.
  destruct (abr s) as [q|]; [|done].
  destruct (String.eqb_spec q ""); [done|].
  destruct Ho as [<-|[]]. simpl. by rewrite list_elem_of_In.
Qed.

Lemma allowed_inv (s : Stream) :
  allowed s = true →
  resolution s = Some (res_label s) ∧ res_label s ∈ ALLOWED_VIDEO_RESOLUTIONS.
Proof.
  unfold allowed, res_label. destruct (resolution s) as [r|]; [|done].
  intros Hr%bool_decide_eq_true. done.
Qed.

Lemma build_prog_options_elem (l : list Stream) (o : StreamOption) :
  o ∈ build_prog_options rank l →
  ∃ s, s ∈ l ∧ o = mkOption (itag s) "video" (quality o) "mp4" (Some "prog")
       ∧ resolution s = Some (quality o)
       ∧ quality o ∈ ALLOWED_VIDEO_RESOLUTIONS
       ∧ is_progressive s = true ∧ subtype s = "mp4".
Proof.
  unfold build_prog_options.
  intros (s & Hs & Ho)%list_elem_of_In%in_flat_map.
  apply list_elem_of_In, desc_order_by_elem in Hs as [Hs _].
  unfold progressive_mp4 in Hs.
  apply list_elem_of_In, filter_In in Hs as [Hs Hf].
  apply andb_true_iff in Hf as [Hp Hm]. apply String.eqb_eq in Hm.
  exists s. unfold prog_option in Ho.
  destruct (allowed s) eqn:Hal; [|done].
  apply allowed_inv in Hal as [Hr Hin].
  destruct Ho as [<-|[]]. simpl. rewrite Hm. by rewrite list_elem_of_In.
Qed.

Lemma build_video_options_elem (l : list Stream) (o : StreamOption) :
  o ∈ build_video_options rank l →
  ∃ s, s ∈ l ∧ o_itag o = itag s ∧ o_format o = "video" ∧ extension o = "mp4"
       ∧ resolution s = Some (quality o)
       ∧ quality o ∈ ALLOWED_VIDEO_RESOLUTIONS ∧ subtype s = "mp4"
       ∧ (ptype o = Some "prog" ∧ is_progressive s = true
          ∨ ptype o = Some "adapt" ∧ is_progressive s = false
            ∧ type s = video).
Proof.
  unfold build_video_options.
  destruct (fold_add_adaptive
              (desc (order_by rank resolution (only_video_mp4 l)))
              (build_prog_options rank l)) as (extra & -> & Hsub).
  intros [Ho|Ho]%elem_of_app.
  - apply build_prog_options_elem in Ho as (s & Hs & -> & Hr & Hq & Hp & Hm).
    exists s. simpl in *. split_and!; try done. by left.
  - pose proof (elem_of_sublist _ _ _ Ho Hsub) as Hin.
    apply list_elem_of_In, in_flat_map in Hin as (s & Hs & Hos).
    apply list_elem_of_In, desc_order_by_elem in Hs as [Hs _].
    unfold only_video_mp4 in Hs.
    apply list_elem_of_In, filter_In in Hs as [Hs Hf].
    apply andb_true_iff in Hf as [Hf Hm]. apply String.eqb_eq in Hm.
    apply andb_true_iff in Hf as [Hv Ha]. apply negb_true_iff in Ha.
    unfold includes_audio_track in Ha. unfold includes_video_track in Hv.
    apply orb_false_iff in Ha as [Hp Ha]. rewrite Hp in Hv. simpl in Hv.
    exists s. unfold adapt_option in Hos.
    destruct (allowed s) eqn:Hal; [|done].
    apply allowed_inv in Hal as [Hr Hin].
    destruct Hos as [<-|[]]. simpl.
    split_and!; try done; [by rewrite list_elem_of_In|].
    right. split_and!; [done | done |]. by destruct (type s).
Qed.

Lemma get_video_info_catalog_streams (yt : res YouTube) (c : VideoCatalog) :
  get_video_info rank yt = InfoCatalog c →
  ∃ y l, yt = Ok y ∧ streams y = Ok l
         ∧ audio_options c = take 3 (build_audio_options rank l)
         ∧ video_options c = take 10 (build_video_options rank l)
         ∧ ¬ (build_audio_options rank l = [] ∧ build_video_options rank l = []).
Proof.
  unfold get_video_info, get_video_info_body.
  destruct yt as [y|e]; simpl; [|by destruct e].
  destruct (streams y) as [l|e] eqn:Hl; simpl; [|by destruct e].
  intros H. exists y, l.
  destruct (build_audio_options rank l) as [|a au],
           (build_video_options rank l) as [|v vi]; try done;
    destruct (title y) as [t|e]; simpl in H; try (by destruct e);
    destruct (thumbnail_url y) as [th|e]; simpl in H; try (by destruct e);
    destruct (length y) as [d|e]; simpl in H; try (by destruct e);
    destruct (author y) as [au'|e]; simpl in H; try (by destruct e);
    injection H as <-; simpl; split_and!; try done; by intros [??].
Qed.

(** X14: A catalog [get_video_info] returns offers at least one option;
    every audio option has format ["audio"], a non-empty quality and no
    ['ptype'] key; every video option has format ["video"], extension
    ["mp4"], a quality in [ALLOWED_VIDEO_RESOLUTIONS] and ['ptype']
    ["prog"] or ["adapt"]. *)
Theorem catalog_options_well_formed (yt : res YouTube) (c : VideoCatalog) :
  get_video_info rank yt = InfoCatalog c →
  (audio_options c ≠ [] ∨ video_options c ≠ [])
  ∧ (∀ o, o ∈ audio_options c →
       o_format o = "audio" ∧ quality o ≠ "" ∧ ptype o = None)
  ∧ (∀ o, o ∈ video_options c →
       o_format o = "video" ∧ extension o = "mp4"
       ∧ quality o ∈ ALLOWED_VIDEO_RESOLUTIONS
       ∧ (ptype o = Some "prog" ∨ ptype o = Some "adapt")).
Proof.
  intros (y & l & _ & _ & -> & -> & Hne)%get_video_info_catalog_streams.
  split_and!.
  - destruct (build_audio_options rank l) as [|a au]; [|by left].
    destruct (build_video_options rank l) as [|v vi]; [|by right].
    by destruct Hne.
  - intros o Ho.
    pose proof (elem_of_sublist _ _ _ Ho (sublist_take _ _)) as Hin.
    apply build_audio_options_elem in Hin as (s & _ & -> & _ & Hq & _).
    by simpl in *.
  - intros o Ho.
    pose proof (elem_of_sublist _ _ _ Ho (sublist_take _ _)) as Hin.
    apply build_video_options_elem
      in Hin as (s & _ & _ & Hf & He & _ & Hq & _ & Hp).
    split_and!; try done. destruct Hp as [[? _]|[? _]]; eauto.
Qed.

(** X15: Every option of a catalog can be downloaded: its itag names a
    stream of the listing the catalog was built from, so
    [get_by_itag] finds a stream with that itag. *)
Theorem catalog_options_resolve (y : YouTube) (l : list Stream)
    (c : VideoCatalog) (o : StreamOption) :
  streams y = Ok l →
  get_video_info rank (Ok y) = InfoCatalog c →
  o ∈ audio_options c ++ video_options c →
  ∃ s, get_by_itag (o_itag o) l = Some s ∧ itag s = o_itag o.
Proof.
  intros Hl (y' & l' & [= <-] & Hl' & -> & -> & _)%get_video_info_catalog_streams Ho.
  rewrite Hl in Hl'. injection Hl' as <-.
  assert (∃ s, s ∈ l ∧ o_itag o = itag s) as (s & Hs & Hi).
  { apply elem_of_app in Ho as [Ho|Ho];
      pose proof (elem_of_sublist _ _ _ Ho (sublist_take _ _)) as Hin.
    - apply build_audio_options_elem in Hin as (s & Hs & -> & _). eauto.
    - apply build_video_options_elem in Hin as (s & Hs & Hi & _). eauto. }
  rewrite Hi. destruct (get_by_itag_elem l s Hs) as [s' Hs']. exists s'.
  split; [done|]. unfold get_by_itag in Hs'.
  assert (In s' (List.filter (λ s0, itag s0 =? itag s) l)) as Hin.
  { destruct (List.filter _ l) as [|x xs] using rev_ind; [done|].
    rewrite last_snoc in Hs'. injection Hs' as ->. apply in_app_iff. right. by left. }
  apply filter_In in Hin as [_ Heq]. by apply Z.eqb_eq in Heq.
Qed.

(** X16: [get_video_info] returns [None] exactly when the provider and
    its stream listing answer and neither an audio nor a video option can
    be built: every provider failure gives an error record instead. *)
Theorem get_video_info_none_iff (yt : res YouTube) :
  get_video_info rank yt = InfoNone ↔
  ∃ y l, yt = Ok y ∧ streams y = Ok l
         ∧ build_audio_options rank l = [] ∧ build_video_options rank l = [].
Proof.
  unfold get_video_info, get_video_info_body. split.
  - destruct yt as [y|e]; simpl; [|by destruct e].
    destruct (streams y) as [l|e] eqn:Hl; simpl; [|by destruct e].
    intros H. exists y, l.
    destruct (build_audio_options rank l) as [|a au],
             (build_video_options rank l) as [|v vi]; try done;
      destruct (title y) as [t|e]; simpl in H; try (by destruct e);
      destruct (thumbnail_url y) as [th|e]; simpl in H; try (by destruct e);
      destruct (length y) as [d|e]; simpl in H; try (by destruct e);
      destruct (author y) as [au'|e]; simpl in H; try (by destruct e); done.
  - intros (y & l & -> & Hl & Ha & Hv). simpl. rewrite Hl. simpl. by rewrite Ha, Hv.
Qed.
End CatalogMore.

Lemma catalog_options_resolve_witness :
  let o := Catalog.mkOption 137 "video" "1080p" "mp4" (Some "adapt") in
  Catalog.get_video_info Provider.digit_rank (Provider.Ok Scenario.yt)
    = Catalog.InfoCatalog Scenario.catalog
  ∧ o ∈ Catalog.audio_options Scenario.catalog
        ++ Catalog.video_options Scenario.catalog
  ∧ ∃ s, Provider.get_by_itag 137 Scenario.streams = Some s
         ∧ Provider.itag s = 137.
Proof.
  intros o.
  assert (o ∈ Catalog.audio_options Scenario.catalog
              ++ Catalog.video_options Scenario.catalog) as Ho.
  { apply list_elem_of_In. simpl. auto. }
  split; [reflexivity|]. split; [exact Ho|].
  exact (catalog_options_resolve Provider.digit_rank Scenario.yt
           Scenario.streams Scenario.catalog o eq_refl eq_refl Ho).
Defined.


Lemma catalog_options_well_formed_witness :
  Catalog.get_video_info Provider.digit_rank (Provider.Ok Scenario.yt)
    = Catalog.InfoCatalog Scenario.catalog
  ∧ ∀ o, o ∈ Catalog.video_options Scenario.catalog →
      Catalog.o_format o = "video" ∧ Catalog.extension o = "mp4"
      ∧ Catalog.quality o ∈ Catalog.ALLOWED_VIDEO_RESOLUTIONS
      ∧ (Catalog.ptype o = Some "prog" ∨ Catalog.ptype o = Some "adapt").
Proof.
  split; [reflexivity|].
  apply (catalog_options_well_formed Provider.digit_rank
           (Provider.Ok Scenario.yt) Scenario.catalog).
  reflexivity.
Defined.


(** ** The retry loop in general *)

Section RetryMore.
Import Provider Catalog Retry.
Variable rank : string → Z.
Variable YouTube_new : nat → string → res YouTube.

Local Abbreviation attempt url w k :=
  (get_video_info rank (YouTube_new (calls w + k) url)).

Lemma retry_loop_S (n : nat) (url : string) (info_var : option info) (w : world) :
  retry_loop rank YouTube_new (S n) url info_var w =
  if truthy (attempt url w 0) && error_not_in (attempt url w 0)
  then (Ok (attempt url w 0), mkWorld (S (calls w)) (slept w))
  else retry_loop rank YouTube_new n url (Some (attempt url w 0))
         (mkWorld (S (calls w)) (slept w + 1)).
Proof. by rewrite Nat.add_0_r. Qed.

(** The loop with at least one turn left returns the result of the last
    turn it took: the first success, or the last turn of all. *)
Lemma retry_loop_spec (url : string) (n : nat) :
  ∀ (info_var : option info) (w : world),
    ∃ k, (k ≤ n)%nat
      ∧ (∀ j, (j < k)%nat → failed (attempt url w j) = true)
      ∧ ((k < n)%nat ∧ failed (attempt url w k) = false
           ∧ retry_loop rank YouTube_new (S n) url info_var w =
               (Ok (attempt url w k),
                mkWorld (calls w + S k) (slept w + Z.of_nat k))
         ∨ k = n ∧
           retry_loop rank YouTube_new (S n) url info_var w =
             (Ok (attempt url w n),
              mkWorld (calls w + S n)
                      (slept w + (if failed (attempt url w n)
                                  then Z.of_nat (S n) else Z.of_nat n)))).
Proof.
  induction n as [|n IH]; intros info_var w.
  - exists 0%nat. split; [lia|]. split; [intros j Hj; lia|]. right.
    split; [done|]. rewrite retry_loop_S. unfold failed.
    destruct (truthy _ && error_not_in _); cbn [negb retry_loop return_var];
      do 2 f_equal; lia.
  - rewrite retry_loop_S.
    destruct (truthy (attempt url w 0) && error_not_in (attempt url w 0)) eqn:H0.
    + exists 0%nat. split; [lia|]. split; [intros j Hj; lia|]. left.
      unfold failed. rewrite H0.
      split_and!; [lia | done |]. do 2 f_equal; lia.
    + destruct (IH (Some (attempt url w 0))
                   (mkWorld (S (calls w)) (slept w + 1)))
        as (k & Hk & Hfail & Hres).
      cbn [calls slept] in *.
      assert (∀ j, (S (calls w) + j = calls w + S j)%nat) as Hshift by (intros; lia).
      setoid_rewrite Hshift in Hfail. rewrite !Hshift in Hres.
      exists (S k). split; [lia|]. split.
      { intros [|j] Hj; [|apply Hfail; lia]. unfold failed. by rewrite H0. }
      destruct Hres as [(Hlt & Hok & Hrun)|(-> & Hrun)]; [left|right].
      * split_and!; [lia | done |]. rewrite Hrun. do 2 f_equal; lia.
      * split; [done|]. rewrite Hrun. do 2 f_equal; try lia.
        destruct (failed _); lia.
Qed.

End RetryMore.



(** ** Outcomes of the pipeline *)

Section PipelineMore.
Import Provider Pipeline.
#[local] Set Warnings "-clear-no-such-hyp".

Ltac run_step :=
  cbv beta iota zeta delta [mbind M_bind mret M_ret lift try_except];
  cbn [files dirs db fst snd].

(** [convert_to_mp3] swallows every exception; the path it returns names a
    file that exists whenever the file it was given did, and nothing but
    files changes. *)
Lemma convert_to_mp3_total (E : env) (p : string) (w : world) :
  ∃ q w', convert_to_mp3 E p w = (Ok q, w')
          ∧ (p ∈ files w → q ∈ files w')
          ∧ (q = p ∨ q = fst (splitext p) +:+ ".mp3")
          ∧ dirs w' = dirs w ∧ db w' = db w.
Proof.
  unfold convert_to_mp3.
  destruct (splitext p) as [base ext] eqn:Hsp.
  destruct (String.eqb_spec (lower ext) ".mp3") as [Heq|Hne]; cbn [negb].
  { exists p, w. run_step. by split_and!; [| |left| |]. }
  run_step. unfold from_file.
  case_bool_decide as Hin; [|by exists p, w; split_and!; [| |left| |]].
  destruct (from_file_error E p) as [e|];
    [by exists p, w; split_and!; [| |left| |]|].
  unfold export.
  destruct (export_error E (base +:+ ".mp3")) as [e|];
    [by exists p, w; split_and!; [| |left| |]|].
  unfold os_remove. cbn [files dirs db].
  rewrite bool_decide_eq_true_2 by set_solver.
  eexists _, _. split; [done|]. cbn [files dirs db fst].
  assert (base +:+ ".mp3" ≠ p) as Hdiff.
  { pose proof (mp3_path_differs p) as Hd. rewrite Hsp in Hd. by apply Hd. }
  split_and!; [set_solver | by right | done | done].
Qed.

Lemma sapp_nonempty (c : ascii) (s t : string) : String c s +:+ t ≠ "".
Proof. by rewrite sapp_cons. Qed.

Lemma stream_missing_nonempty (itag : Z) : stream_missing itag ≠ "".
Proof. unfold stream_missing. apply sapp_nonempty. Qed.

Lemma update_log_status_twice (i : Z) (s1 e1 s2 e2 : string) (d : Db.database) :
  Db.update_log_status i s2 e2 (Db.update_log_status i s1 e1 d)
  = Db.update_log_status i s2 e2 d.
Proof.
  unfold Db.update_log_status. simpl. f_equal. rewrite map_map.
  apply map_ext. intros r. destruct (Db.id r =? i) eqn:Hi; simpl; by rewrite Hi.
Qed.

Lemma missing_branch_outcome (E : env) (log_id : Z) (msg : string)
    (w w1 : world) :
  msg ≠ "" → db w1 = db w → mkdtemp_name E ∈ dirs w1 →
  body_outcome E log_id w
    ((update_log_status log_id "failed" msg;;
      rmtree (mkdtemp_name E);; mret (None, None)) w1).
Proof.
  intros Hm Hdb Hd. run_step. unfold update_log_status, rmtree. run_step.
  rewrite bool_decide_eq_true_2 by done. simpl. exists msg. by rewrite Hdb.
Qed.

Lemma download_youtube_body_outcome (E : env) (url : string) (itag : Z)
    (format_type : string) (log_id : Z) (ptype : string) (w : world) :
  body_outcome E log_id w
    (download_youtube_body E url itag format_type log_id ptype w).
Proof.
  unfold download_youtube_body. run_step.
  destruct (YouTube_new E url) as [yt|e]; [|by left].
  unfold mkdtemp. run_step.
  set (w1 := mkWorld (files w) ({[mkdtemp_name E]} ∪ dirs w) (db w)).
  assert (db w1 = db w) as Hdb1 by done.
  assert (mkdtemp_name E ∈ dirs w1) as Hd1 by (cbn [dirs w1]; set_solver).
  destruct (_ && _).
  - destruct (streams yt) as [l|e]; [|by left]. run_step.
    destruct (get_by_itag itag l) as [video_stream|];
      [|by apply missing_branch_outcome; [apply stream_missing_nonempty|..]].
    unfold download at 1.
    destruct (download_error E video_stream) as [e|]; [by left|]. run_step.
    destruct (first _) as [audio_stream|];
      [|by apply missing_branch_outcome].
    unfold download at 1. cbn [files dirs db].
    destruct (download_error E audio_stream) as [e|]; [by left|]. run_step.
    destruct (title yt) as [t|e]; [|by left]. run_step.
    set (video_path := os_path_join _ ("video_" +:+ _)).
    set (audio_path := os_path_join _ ("audio_" +:+ _)).
    set (output_path := os_path_join _ (t +:+ _)).
    unfold merge_video_audio. cbn [files dirs db].
    destruct (_ && _) eqn:Hmerge; [|by left].
    apply andb_true_iff in Hmerge as [Hmerge _].
    apply andb_true_iff in Hmerge as [Hmerge Hoa].
    apply andb_true_iff in Hmerge as [_ Hov].
    apply negb_true_iff, String.eqb_neq in Hoa, Hov.
    clearbody video_path audio_path output_path.
    unfold os_remove. cbn [files dirs db].
    case_bool_decide; [|by left]. cbn [files dirs db].
    case_bool_decide; [|by left]. unfold update_log_status. cbn [files dirs db].
    simpl. split_and!; [done | set_solver | set_solver | done].
  - destruct (streams yt) as [l|e]; [|by left]. run_step.
    destruct (get_by_itag itag l) as [stream|];
      [|by apply missing_branch_outcome; [apply stream_missing_nonempty|..]].
    unfold download at 1.
    destruct (download_error E stream) as [e|]; [by left|]. run_step.
    set (file_path := os_path_join _ _). clearbody file_path.
    destruct (String.eqb format_type "audio").
    + match goal with
      | |- context [convert_to_mp3 E file_path ?w0] =>
          destruct (convert_to_mp3_total E file_path w0)
            as (q & w2 & -> & Hq & _ & Hdirs & Hdb)
      end.
      cbn [files dirs db] in *. unfold update_log_status. simpl.
      rewrite Hdirs, Hdb. split_and!; [done | | set_solver | done].
      apply Hq. set_solver.
    + run_step. unfold update_log_status. simpl.
      split_and!; [done | set_solver | set_solver | done].
Qed.

(** X18: [download_youtube] never raises and ends in one of two ways:
    it returns [(None, None)] and the job's row is marked ["failed"]
    with a non-empty message, or it returns a path and the temporary
    directory, the file at the path exists, the directory exists, and the
    row is marked ["completed"] with an empty message. *)
Theorem download_youtube_outcome (E : env) (url : string)
    (itag user_id log_id : Z) (format_type ptype : string) (w : world) :
  let run := download_youtube E url itag format_type user_id log_id ptype w in
  (fst run = (None, None)
   ∧ ∃ msg, msg ≠ ""
       ∧ db (snd run) = Db.update_log_status log_id "failed" msg (db w))
  ∨ (∃ p, fst run = (Some p, Some (mkdtemp_name E))
       ∧ p ∈ files (snd run)
       ∧ mkdtemp_name E ∈ dirs (snd run)
       ∧ db (snd run) = Db.update_log_status log_id "completed" "" (db w)).
Proof.
  intros run. subst run. unfold download_youtube.
  pose proof (download_youtube_body_outcome E url itag format_type log_id ptype w)
    as Hb.
  destruct (download_youtube_body _ _ _ _ _ _ _) as [[[[p|] [d|]]|e] w'];
    simpl in Hb; try done.
  - right. destruct Hb as (-> & ? & ? & ?). by exists p.
  - left. by split.
  - left.
    assert (∀ pre : string, pre ≠ "" →
              ∃ msg, msg ≠ ""
                ∧ Db.update_log_status log_id "failed" (pre +:+ str_exn e) (db w')
                  = Db.update_log_status log_id "failed" msg (db w)) as Hmsg.
    { intros pre Hpre. exists (pre +:+ str_exn e). split.
      - destruct pre; [done|]. apply sapp_nonempty.
      - destruct Hb as [->|[m ->]]; [done|]. apply update_log_status_twice. }
    destruct e; simpl; split; try done; by apply Hmsg.
Qed.

(** X19: An adaptive download whose video has no audio-only stream
    returns [(None, None)], removes the temporary directory together
    with the video track already downloaded into it, leaves the files
    that were there before, and marks the row ["failed"] with the
    message of that branch. *)
Theorem missing_audio_removes_workspace (E : env) (url : string)
    (itag user_id log_id : Z) (w : world) (yt : YouTube) (l : list Stream)
    (video_stream : Stream) :
  fresh_workspace E w →
  YouTube_new E url = Ok yt →
  streams yt = Ok l →
  get_by_itag itag l = Some video_stream →
  download_error E video_stream = None →
  first (desc (order_by (rank E) abr (only_audio l))) = None →
  let run := download_youtube E url itag "video" user_id log_id "adapt" w in
  fst run = (None, None)
  ∧ (mkdtemp_name E ∉ dirs (snd run))
  ∧ files (snd run) = files w
  ∧ db (snd run)
    = Db.update_log_status log_id "failed"
        "Audio stream tidak tersedia untuk penggabungan adaptive video" (db w).
Proof.
  intros (Hne & Hslash & _ & Hempty) Hyt Hl Hs Hd Ha run. subst run.
  unfold download_youtube, download_youtube_body. run_step.
  rewrite Hyt. unfold mkdtemp. run_step.
  change (String.eqb "video" "video") with true.
  change (String.eqb "adapt" "adapt") with true. cbn [andb].
  rewrite Hl. run_step. rewrite Hs. unfold download. rewrite Hd. run_step.
  rewrite Ha.
  change ("video_" +:+ default_filename video_stream)
    with (String "v" ("ideo_" +:+ default_filename video_stream)).
  rewrite os_path_join_relative by done.
  set (video_path := mkdtemp_name E +:+ "/" +:+ String "v" _).
  assert (inside (mkdtemp_name E) video_path = true) as Hin
    by apply inside_join.
  clearbody video_path.
  unfold update_log_status, rmtree. run_step.
  rewrite bool_decide_eq_true_2 by set_solver.
  cbn [fst snd files dirs db]. split_and!; [done | | | done].
  - rewrite elem_of_filter, elem_of_difference. set_solver.
  - apply set_eq. intros f. rewrite elem_of_filter, elem_of_union, elem_of_singleton.
    split.
    + intros [Hout [->|Hf]]; [congruence | done].
    + intros Hf. split; [by apply Hempty | by right].
Qed.

Lemma missing_audio_removes_workspace_witness :
  let run := Pipeline.download_youtube Scenario.silent
               "https://youtu.be/abc123" 137 "video" 11 7 "adapt"
               Scenario.world0 in
  Pipeline.fresh_workspace Scenario.silent Scenario.world0
  ∧ fst run = (None, None)
  ∧ ("/tmp/tmpk3v9x_1a" ∉ Pipeline.dirs (snd run))
  ∧ Pipeline.files (snd run) = Pipeline.files Scenario.world0.
Proof.
  intros run.
  assert (Pipeline.fresh_workspace Scenario.silent Scenario.world0) as Hfresh.
  { split; [done|]. split; [reflexivity|]. split.
    - apply not_elem_of_empty.
    - intros f Hf. by apply not_elem_of_empty in Hf. }
  split; [exact Hfresh|].
  pose proof (missing_audio_removes_workspace Scenario.silent
                "https://youtu.be/abc123" 137 11 7 Scenario.world0
                Scenario.silent_yt _ _ Hfresh eq_refl eq_refl eq_refl eq_refl
                eq_refl) as (H1 & H2 & H3 & _).
  split; [exact H1|]. split; [exact H2 | exact H3].
Defined.
(** X20: When no stream has the requested itag, in either branch,
    [download_youtube] returns [(None, None)], removes the temporary
    directory, leaves the files as they were and marks the row
    ["failed"] with [Stream dengan itag <itag> tidak tersedia]. *)
Theorem missing_stream_fails_cleanly (E : env) (url : string)
    (itag user_id log_id : Z) (format_type ptype : string) (w : world)
    (yt : YouTube) (l : list Stream) :
  fresh_workspace E w →
  YouTube_new E url = Ok yt →
  streams yt = Ok l →
  get_by_itag itag l = None →
  let run := download_youtube E url itag format_type user_id log_id ptype w in
  fst run = (None, None)
  ∧ (mkdtemp_name E ∉ dirs (snd run))
  ∧ files (snd run) = files w
  ∧ db (snd run)
    = Db.update_log_status log_id "failed" (stream_missing itag) (db w).
Proof.
  intros (_ & _ & _ & Hempty) Hyt Hl Hs run. subst run.
  assert (filter (λ f, inside (mkdtemp_name E) f = false) (files w) = files w)
    as Hfiles.
  { apply set_eq. intros f. rewrite elem_of_filter. naive_solver. }
  unfold download_youtube, download_youtube_body. run_step.
  rewrite Hyt. unfold mkdtemp. run_step.
  destruct (_ && _); rewrite Hl; run_step; rewrite Hs;
    unfold update_log_status, rmtree; run_step;
    (rewrite bool_decide_eq_true_2 by set_solver);
    cbn [fst snd files dirs db]; rewrite Hfiles;
    (split_and!; [done | | done | done]);
    rewrite elem_of_filter, elem_of_difference; set_solver.
Qed.

Lemma missing_stream_fails_cleanly_witness :
  let run := download_youtube (Scenario.collaborators 0 None)
               "https://youtu.be/abc123" 18 "video" 11 7 "prog"
               Scenario.world0 in
  fresh_workspace (Scenario.collaborators 0 None) Scenario.world0
  ∧ get_by_itag 18 Scenario.streams = None
  ∧ fst run = (None, None)
  ∧ ("/tmp/tmpk3v9x_1a" ∉ dirs (snd run))
  ∧ files (snd run) = files Scenario.world0
  ∧ db (snd run)
    = Db.update_log_status 7 "failed" "Stream dengan itag 18 tidak tersedia"
        (db Scenario.world0).
Proof.
  intros run.
  assert (fresh_workspace (Scenario.collaborators 0 None) Scenario.world0)
    as Hfresh.
  { split; [done|]. split; [reflexivity|]. split.
    - apply not_elem_of_empty.
    - intros f Hf. by apply not_elem_of_empty in Hf. }
  assert (get_by_itag 18 Scenario.streams = None) as Hnone by reflexivity.
  split; [exact Hfresh|]. split; [exact Hnone|].
  exact (missing_stream_fails_cleanly (Scenario.collaborators 0 None)
           "https://youtu.be/abc123" 18 11 7 "video" "prog" Scenario.world0
           Scenario.yt Scenario.streams Hfresh eq_refl eq_refl Hnone).
Defined.
End PipelineMore.

(** ** The chat handlers *)

Section BotFacts.
Import Provider Url Catalog Bot.
#[local] Set Warnings "-clear-no-such-hyp".

Ltac bot_step :=
  cbv beta iota zeta delta
    [mbind M_bind mret M_ret lift try_except transport update_log_status
     log_usage Db.log_usage with_db get_user_stats];
  cbn [disk net ticks outbox attempts fst snd
       Pipeline.files Pipeline.dirs Pipeline.db].

Ltac case_transport :=
  match goal with
  | |- context [transport_error ?E ?n ?c] =>
      destruct (transport_error E n c)
  end.

(** The [SELECT] of [save_user] finds no row exactly when the id is not in
    the table. *)
Lemma filter_user_nil (uid : Z) (l : list Db.UserRow) :
  List.filter (λ u, Db.user_id u =? uid) l = [] ↔ uid ∉ map Db.user_id l.
Proof.
  induction l as [|u l IH]; simpl.
  - split; [intros _; apply not_elem_of_nil | done].
  - rewrite not_elem_of_cons. destruct (Z.eqb_spec (Db.user_id u) uid).
    + split; [done | intros [? _]; congruence].
    + rewrite IH. intuition.
Qed.

(** X21: After [/start], whether or not the greeting could be sent,
    the user is in the users table, a user who was there already has
    left the table unchanged, exactly one ["start"] row with status
    ["started"] has been appended to [usage_logs], and neither the disk
    nor the provider has been touched. *)
Theorem start_command_registers (E : env) (user : User) (w : world) :
  let db := Pipeline.db (disk w) in
  let w' := snd (start_command E user w) in
  let db' := Pipeline.db (disk w') in
  id user ∈ map Db.user_id (Db.users db')
  ∧ (id user ∈ map Db.user_id (Db.users db) → Db.users db' = Db.users db)
  ∧ (∃ t, Db.usage_logs db'
          = Db.usage_logs db
            ++ [Db.mkLog (Db.next_id db) (id user) "start" "" "" "" t "started" ""])
  ∧ Pipeline.files (disk w') = Pipeline.files (disk w)
  ∧ Pipeline.dirs (disk w') = Pipeline.dirs (disk w)
  ∧ net w' = net w.
Proof.
  intros db w' db'. subst w' db'. unfold start_command, save_user.
  bot_step. unfold Db.save_user. fold db.
  destruct (List.filter _ (Db.users db)) as [|u l] eqn:Hf; bot_step.
  - unfold Db.log_usage. cbn [Db.users Db.usage_logs].
    case_transport; bot_step; try case_transport;
      cbn [disk net Pipeline.db Pipeline.files Pipeline.dirs fst snd Db.users Db.usage_logs].
    all: split_and!; try done; try (by eexists).
    all: try (rewrite map_app; set_solver).
    all: intros Hin; by apply filter_user_nil in Hf.
  - assert (id user ∈ map Db.user_id (Db.users db)) as Hin.
    { destruct (decide (id user ∈ map Db.user_id (Db.users db))) as [|Hn]; [done|].
      apply filter_user_nil in Hn. congruence. }
    unfold Db.log_usage. cbn [Db.users Db.usage_logs]. fold db.
    case_transport; bot_step; try case_transport;
      cbn [disk net Pipeline.db Pipeline.files Pipeline.dirs fst snd Db.users Db.usage_logs].
    all: split_and!; try done; by eexists.
Qed.

(** [split] never returns the empty list. *)
Lemma split_cons (sep : ascii) (s : string) : ∃ h t, split sep s = h :: t.
Proof.
  destruct s as [|c s]; simpl; [by eexists _, _|].
  destruct (Ascii.eqb c sep); [by eexists _, _|].
  destruct (split sep s); by eexists _, _.
Qed.

Lemma split_no_sep (sep : ascii) (s : string) :
  has_char sep s = false → split sep s = [s].
Proof.
  induction s as [|c s IH]; [done|]. simpl.
  intros [Hc Hs]%orb_false_iff. by rewrite Hc, IH.
Qed.

(** A field without the separator, followed by the separator, is the first
    element of the split. *)
Lemma split_field (sep : ascii) (a b : string) :
  has_char sep a = false →
  split sep (a +:+ String sep b) = a :: split sep b.
Proof.
  induction a as [|c a IH]; intros Ha.
  - rewrite sapp_nil_l. simpl. by rewrite Ascii.eqb_refl.
  - simpl in Ha. apply orb_false_iff in Ha as [Hc Ha].
    rewrite sapp_cons. simpl. by rewrite Hc, IH.
Qed.

(** A decimal numeral holds no [|]. *)
Lemma uint_no_bar (d : Decimal.uint) :
  has_char "|" (NilEmpty.string_of_uint d) = false.
Proof. induction d; simpl; done. Qed.

Lemma str_of_Z_no_bar (z : Z) : has_char "|" (str_of_Z z) = false.
Proof.
  unfold str_of_Z, NilZero.string_of_int, NilZero.string_of_uint.
  destruct (Z.to_int z) as [d|d]; [destruct d|destruct d]; simpl; try done;
    apply uint_no_bar.
Qed.


Lemma id_chars_no_bar (s : string) :
  all_chars id_char s = true → has_char "|" s = false.
Proof. intros H. by apply (all_chars_has_char id_char). Qed.

(** X22: The buttons [button_handler] builds for a catalog parse back:
    split at ['|'], the callback data of every button is [cancel], or
    [download], the video id, the decimal itag, [audio] and the quality of
    an audio option, or the same with [video] and the ['ptype'] of a
    video option as sixth field, provided the id and the audio
    qualities contain no ['|'] (the video qualities and ptypes of a
    catalog never do). *)
Theorem option_keyboard_parses_back (rank : string → Z) (yt : res YouTube)
    (c : VideoCatalog) (vid choice : string) :
  get_video_info rank yt = InfoCatalog c →
  has_char "|" vid = false →
  (∀ a, a ∈ audio_options c → has_char "|" (quality a) = false) →
  ∀ row b, row ∈ option_keyboard vid choice c → b ∈ row →
    split "|" (callback_data b) = ["cancel"]
    ∨ (∃ a, a ∈ audio_options c ∧ choice = "audio"
          ∧ split "|" (callback_data b)
            = ["download"; vid; str_of_Z (o_itag a); "audio"; quality a])
    ∨ (∃ v p, v ∈ video_options c ∧ choice = "video" ∧ ptype v = Some p
          ∧ split "|" (callback_data b)
            = ["download"; vid; str_of_Z (o_itag v); "video"; quality v; p]).
Proof.
  intros Hc Hvid Haudio row b Hrow Hb.
  unfold option_keyboard in Hrow.
  apply elem_of_app in Hrow as [Hrow|Hrow].
  2:{ left. apply list_elem_of_In in Hrow as [<-|[]].
      apply list_elem_of_In in Hb as [<-|[]]. done. }
  right.
  destruct (String.eqb_spec choice "audio") as [->|Hna].
  - left. apply list_elem_of_fmap in Hrow as (a & -> & Ha).
    apply list_elem_of_In in Hb as [<-|[]]. exists a. split_and!; [done..|].
    cbn [callback_data].
    change (split "|" ("download" +:+ String "|" (vid +:+ String "|"
              (str_of_Z (o_itag a) +:+ String "|" ("audio" +:+ String "|"
                 (quality a)))))
            = ["download"; vid; str_of_Z (o_itag a); "audio"; quality a]).
    rewrite !split_field by (done || apply str_of_Z_no_bar).
    by rewrite split_no_sep by auto.
  - destruct (String.eqb_spec choice "video") as [->|Hnv];
      [|by apply elem_of_nil in Hrow].
    right. apply list_elem_of_fmap in Hrow as (v & -> & Hv).
    apply list_elem_of_In in Hb as [<-|[]].
    apply get_video_info_catalog_streams in Hc as (y & l & _ & _ & _ & Hvo & _).
    assert (v ∈ build_video_options rank l) as Hin.
    { eapply elem_of_sublist; [|apply (sublist_take _ 10)]. by rewrite <- Hvo. }
    apply build_video_options_elem
      in Hin as (s & _ & _ & _ & _ & _ & Hq & _ & Hp).
    assert (has_char "|" (quality v) = false) as Hbar.
    { revert Hq. generalize (quality v). intros q Hq.
      unfold ALLOWED_VIDEO_RESOLUTIONS in Hq.
      repeat (apply elem_of_union in Hq as [Hq|Hq]);
        apply elem_of_singleton in Hq as ->; done. }
    assert (∃ p, ptype v = Some p ∧ has_char "|" p = false) as (p & Hpv & Hpb).
    { destruct Hp as [[Hp _]|[Hp _]]; rewrite Hp; by eexists. }
    exists v, p. split_and!; [done..|]. cbn [callback_data]. rewrite Hpv.
    cbn [default].
    change (split "|" ("download" +:+ String "|" (vid +:+ String "|"
              (str_of_Z (o_itag v) +:+ String "|" ("video" +:+ String "|"
                 (quality v +:+ String "|" p)))))
            = ["download"; vid; str_of_Z (o_itag v); "video"; quality v; p]).
    rewrite !split_field by (done || apply str_of_Z_no_bar).
    by rewrite split_no_sep by auto.
Qed.

Lemma option_keyboard_parses_back_witness :
  get_video_info digit_rank (Ok Scenario.yt) = InfoCatalog Scenario.catalog
  ∧ has_char "|" "abc123" = false
  ∧ (∀ a, a ∈ audio_options Scenario.catalog → has_char "|" (quality a) = false)
  ∧ ∀ row b, row ∈ option_keyboard "abc123" "video" Scenario.catalog → b ∈ row →
      split "|" (callback_data b) = ["cancel"]
      ∨ (∃ a, a ∈ audio_options Scenario.catalog ∧ "video" = "audio"
            ∧ split "|" (callback_data b)
              = ["download"; "abc123"; str_of_Z (o_itag a); "audio"; quality a])
      ∨ (∃ v p, v ∈ video_options Scenario.catalog ∧ "video" = "video"
            ∧ ptype v = Some p
            ∧ split "|" (callback_data b)
              = ["download"; "abc123"; str_of_Z (o_itag v); "video";
                 quality v; p]).
Proof.
  assert (get_video_info digit_rank (Ok Scenario.yt)
          = InfoCatalog Scenario.catalog) as Hc by reflexivity.
  assert (has_char "|" "abc123" = false) as Hvid by reflexivity.
  assert (∀ a, a ∈ audio_options Scenario.catalog →
               has_char "|" (quality a) = false) as Haudio.
  { intros a Ha. apply list_elem_of_In in Ha. simpl in Ha.
    destruct Ha as [<-|[<-|[]]]; reflexivity. }
  split; [exact Hc|]. split; [exact Hvid|]. split; [exact Haudio|].
  exact (option_keyboard_parses_back digit_rank (Ok Scenario.yt)
           Scenario.catalog "abc123" "video" Hc Hvid Haudio).
Defined.

(** An update of the id of the row just appended rewrites that row only. *)
Lemma update_fresh_row (db : Db.database) (us : list Db.UserRow)
    (uid : Z) (act url fmt q t st err st' err' : string) :
  Db.update_log_status (Db.next_id db) st' err'
    (Db.mkDb us (Db.usage_logs db
                 ++ [Db.mkLog (Db.next_id db) uid act url fmt q t st err]))
  = Db.mkDb us (Db.usage_logs db
                ++ [Db.mkLog (Db.next_id db) uid act url fmt q t st' err']).
Proof.
  unfold Db.update_log_status. simpl. f_equal.
  rewrite map_app. simpl. rewrite Z.eqb_refl. f_equal.
  apply map_id_on. intros r Hr. apply next_id_above in Hr.
  destruct (Z.eqb_spec (Db.id r) (Db.next_id db)); [lia | done].
Qed.

(** A row of another action than [download], with no error message, changes
    none of the statistics. *)
Lemma log_usage_other_action (uid : Z) (act url fmt qual now st : string)
    (db : Db.database) :
  act ≠ "download" →
  Db.get_user_stats (snd (Db.log_usage uid act url fmt qual now st "" db))
  = Db.get_user_stats db.
Proof.
  intros Hact%String.eqb_neq. unfold Db.get_user_stats, Db.grouped, Db.joined.
  simpl. rewrite !filter_snoc_false; [done | done | |].
  - unfold Db.completed_download. simpl. by rewrite Hact.
  - simpl. by rewrite Hact.
Qed.

(** X23: [/stats] from a user other than the administrator changes
    nothing in the store, reads no clock and calls no provider; the only
    message it can send is the refusal, or the apology when the refusal
    could not be sent. *)
Theorem stats_command_denies_others (E : env) (user : User) (w : world) :
  id user ≠ 1390557485 →
  let w' := snd (stats_command E user w) in
  disk w' = disk w ∧ net w' = net w ∧ ticks w' = ticks w
  ∧ (outbox w' = outbox w
     ∨ outbox w'
       = outbox w ++ [reply_text
           "Maaf, Anda tidak memiliki izin untuk mengakses statistik."
           None None]
     ∨ outbox w'
       = outbox w ++ [reply_text
           "Terjadi kesalahan saat mengambil statistik. Silakan coba lagi."
           None None]).
Proof.
  intros Hid w'. subst w'. unfold stats_command, ADMIN_IDS.
  rewrite bool_decide_eq_false_2
    by (rewrite list_elem_of_In; simpl; intuition).
  cbn [negb]. bot_step. case_transport; bot_step; try case_transport;
    cbn [disk net ticks outbox snd]; split_and!; auto.
Qed.

Lemma stats_command_denies_others_witness :
  let w' := snd (stats_command (Scenario.handlers None) Scenario.ani
                   Scenario.chat0) in
  id Scenario.ani ≠ 1390557485
  ∧ disk w' = disk Scenario.chat0
  ∧ outbox w'
    = [reply_text "Maaf, Anda tidak memiliki izin untuk mengakses statistik."
         None None].
Proof.
  intros w'.
  assert (id Scenario.ani ≠ 1390557485) as Hid by (simpl; lia).
  split; [exact Hid|]. split; [|reflexivity].
  exact (proj1 (stats_command_denies_others (Scenario.handlers None)
                  Scenario.ani Scenario.chat0 Hid)).
Defined.

(** X24: [/stats] from the administrator appends one ["stats"] row to
    [usage_logs], and the figures it reports are those of the store as
    the request found it: the request's own row changes none of them. *)
Theorem stats_command_reports_store (E : env) (user : User) (w : world) :
  id user = 1390557485 →
  let db := Pipeline.db (disk w) in
  let w' := snd (stats_command E user w) in
  Pipeline.db (disk w')
  = Db.mkDb (Db.users db)
      (Db.usage_logs db
       ++ [Db.mkLog (Db.next_id db) (id user) "stats" "" "" ""
             (now E (ticks w)) "started" ""])
  ∧ (outbox w' = outbox w
     ∨ outbox w'
       = outbox w ++ [reply_text
           (escape_markdown E (stats_message (Db.get_user_stats db)))
           None (Some "MarkdownV2")]
     ∨ outbox w'
       = outbox w ++ [reply_text
           "Terjadi kesalahan saat mengambil statistik. Silakan coba lagi."
           None None]).
Proof.
  intros Hid db w'. subst w'. unfold stats_command, ADMIN_IDS.
  rewrite bool_decide_eq_true_2
    by (rewrite list_elem_of_In; simpl; auto).
  cbn [negb]. bot_step. fold db.
  pose proof (log_usage_other_action (id user) "stats" "" "" ""
                (now E (ticks w)) "started" db) as Hsame.
  unfold Db.log_usage in Hsame. cbn [snd] in Hsame. rewrite Hsame by done.
  case_transport; bot_step; try case_transport;
    cbn [disk net ticks outbox snd Pipeline.db]; split_and!; auto.
Qed.

Lemma stats_command_reports_store_witness :
  let w' := snd (stats_command (Scenario.handlers None) Scenario.admin
                   Scenario.chat0) in
  id Scenario.admin = 1390557485
  ∧ Pipeline.db (disk w')
    = Db.mkDb (Db.users Scenario.store)
        (Db.usage_logs Scenario.store
         ++ [Db.mkLog 6 1390557485 "stats" "" "" "" "2025-01-03 10:00:00"
               "started" ""]).
Proof.
  intros w'.
  assert (id Scenario.admin = 1390557485) as Hid by reflexivity.
  split; [exact Hid|].
  exact (proj1 (stats_command_reports_store (Scenario.handlers None)
                  Scenario.admin Scenario.chat0 Hid)).
Defined.

(** Three attempts always return a result, after one to three calls of the
    builder. *)
Lemma retry_three (rank : string → Z) (P : nat → string → res YouTube)
    (url : string) (w : Retry.world) :
  ∃ i w', Retry.get_video_info_with_retry rank P url 3 w = (Ok i, w')
          ∧ (Retry.calls w < Retry.calls w' ≤ Retry.calls w + 3)%nat.
Proof.
  unfold Retry.get_video_info_with_retry.
  change (Z.to_nat 3) with 3%nat.
  destruct (retry_loop_spec rank P url 2 None w)
    as (k & Hk & _ & [(_ & _ & ->)|(-> & ->)]);
    eexists _, _; (split; [done|]); simpl; lia.
Qed.

Ltac case_retry :=
  match goal with
  | |- context [Retry.get_video_info_with_retry ?r ?P ?u 3 ?w] =>
      let i := fresh "i" in
      let n := fresh "n" in
      let Hrun := fresh "Hrun" in
      let Hcalls := fresh "Hcalls" in
      destruct (retry_three r P u w) as (i & n & Hrun & Hcalls);
      rewrite Hrun
  end.

(** X25: Every message handled by [url_handler] appends exactly one
    ["url_check"] row to [usage_logs], whose status is in the end one of
    [invalid_url], [failed_to_get_info], [error_getting_info],
    [info_retrieved] and [unexpected_error] (never still [started]); the
    users table and the disk are untouched; the builder is called at most
    three times, and not at all for a text [is_valid_youtube_url]
    rejects. *)
Theorem url_handler_logs_one_row (E : env) (user : User) (url : string)
    (w : world) :
  let db := Pipeline.db (disk w) in
  let w' := snd (url_handler E user url w) in
  (∃ st err,
     Pipeline.db (disk w')
     = Db.mkDb (Db.users db)
         (Db.usage_logs db
          ++ [Db.mkLog (Db.next_id db) (id user) "url_check" url "" ""
                (now E (ticks w)) st err])
     ∧ st ∈ ["invalid_url"; "failed_to_get_info"; "error_getting_info";
             "info_retrieved"; "unexpected_error"]
     ∧ (is_valid_youtube_url url = false →
        st ∈ ["invalid_url"; "unexpected_error"] ∧ net w' = net w))
  ∧ Pipeline.files (disk w') = Pipeline.files (disk w)
  ∧ Pipeline.dirs (disk w') = Pipeline.dirs (disk w)
  ∧ (Retry.calls (net w) ≤ Retry.calls (net w') ≤ Retry.calls (net w) + 3)%nat.
Proof.
  intros db w'. subst w'. unfold url_handler. bot_step. fold db.
  destruct (is_valid_youtube_url url) eqn:Hvalid; cbn [negb]; bot_step.
  - case_transport; bot_step.
    { rewrite update_fresh_row.
      case_transport; cbn [disk net snd Pipeline.db Pipeline.files Pipeline.dirs];
        (split_and!; [|done|done|lia|lia]); eexists _, _;
        (split_and!; [done| |done]); list_mem. }
    unfold get_video_info_with_retry. cbn [net]. case_retry. bot_step.
    destruct i as [|error|c]; bot_step; rewrite update_fresh_row;
      case_transport; bot_step; rewrite ?update_fresh_row;
      try case_transport;
      cbn [disk net snd Pipeline.db Pipeline.files Pipeline.dirs];
      (split_and!; [|done|done|lia|lia]); eexists _, _;
      (split_and!; [done| |done]); list_mem.
  - rewrite update_fresh_row. case_transport; bot_step;
      rewrite ?update_fresh_row; try case_transport;
      cbn [disk net snd Pipeline.db Pipeline.files Pipeline.dirs];
      (split_and!; [|done|done|lia|lia]); eexists _, _;
      (split_and!; [done| |intros _; split; [|done]]); list_mem.
Qed.

(** A download ends with the row of the job marked failed or completed. *)
Lemma download_youtube_status (P : Pipeline.env) (url : string)
    (itag user_id log_id : Z) (format_type ptype : string)
    (w : Pipeline.world) :
  let run := Pipeline.download_youtube P url itag format_type user_id log_id
               ptype w in
  ∃ st msg, st ∈ ["failed"; "completed"]
    ∧ Pipeline.db (snd run)
      = Db.update_log_status log_id st msg (Pipeline.db w).
Proof.
  intros run. subst run. unfold Pipeline.download_youtube.
  pose proof (download_youtube_body_outcome P url itag format_type log_id ptype w)
    as Hb.
  destruct (Pipeline.download_youtube_body _ _ _ _ _ _ _)
    as [[[[p|] [d|]]|e] w']; simpl in Hb; cbn [snd]; try done.
  - destruct Hb as (_ & _ & _ & ->). exists "completed", "". split; [list_mem|done].
  - destruct Hb as (m & _ & ->). exists "failed", m. split; [list_mem|done].
  - assert (∀ m, ∃ st msg, st ∈ ["failed"; "completed"]
               ∧ Db.update_log_status log_id "failed" m (Pipeline.db w')
                 = Db.update_log_status log_id st msg (Pipeline.db w)) as Hm.
    { intros m. exists "failed", m. split; [list_mem|].
      destruct Hb as [->|[m' ->]]; [done|]. apply update_log_status_twice. }
    destruct e; simpl; apply Hm.
Qed.

Lemma bot_download_youtube_spec (E : env) (url : string) (itag : Z)
    (format_type : string) (user_id log_id : Z) (ptype : string) (w : world) :
  ∃ r d, download_youtube E url itag format_type user_id log_id ptype w
         = (Ok r, mkWorld d (net w) (ticks w) (outbox w) (attempts w))
    ∧ ∃ st msg, st ∈ ["failed"; "completed"]
        ∧ Pipeline.db d
          = Db.update_log_status log_id st msg (Pipeline.db (disk w)).
Proof.
  unfold download_youtube.
  pose proof (download_youtube_status (pipeline E) url itag user_id log_id
                format_type ptype (disk w)) as Hst.
  destruct (Pipeline.download_youtube _ _ _ _ _ _ _ _) as [r d].
  by exists r, d.
Qed.

(** The handler of a failed delivery marks the row and touches nothing
    else. *)
Lemma delivery_failed_spec (E : env) (log_id : Z) (e : exn) (w : world) :
  let w' := snd (delivery_failed E log_id e w) in
  disk w'
  = Pipeline.mkWorld (Pipeline.files (disk w)) (Pipeline.dirs (disk w))
      (Db.update_log_status log_id "failed_to_send"
         ("Error mengirim file: " +:+ str_exn e) (Pipeline.db (disk w)))
  ∧ net w' = net w ∧ ticks w' = ticks w.
Proof.
  unfold delivery_failed. bot_step.
  destruct (contains _ _); case_transport; cbn [snd disk net ticks]; done.
Qed.

Lemma send_and_clean_db (E : env) (user : User)
    (format_type quality p : string) (temp_dir : option string) (w : world) :
  let w' := snd (send_and_clean E user format_type quality p temp_dir w) in
  Pipeline.db (disk w') = Pipeline.db (disk w)
  ∧ net w' = net w ∧ ticks w' = ticks w.
Proof.
  unfold send_and_clean, open_rb, os_remove, Pipeline.os_remove, rmtree,
    Pipeline.rmtree.
  destruct (String.eqb format_type "audio"); bot_step;
    (case_bool_decide; [|done]); bot_step;
    (case_transport; [done|]); bot_step;
    (rewrite bool_decide_eq_true_2 by done); bot_step;
    (destruct temp_dir as [d|]; [destruct (nonempty d && _)|]);
    try case_bool_decide; bot_step; try case_transport; done.
Qed.

Lemma deliver_spec (E : env) (user : User) (format_type quality p : string)
    (temp_dir : option string) (log_id : Z) (w : world) :
  let w' := snd (deliver E user format_type quality p temp_dir log_id w) in
  (Pipeline.db (disk w') = Pipeline.db (disk w)
   ∨ ∃ msg, Pipeline.db (disk w')
            = Db.update_log_status log_id "failed_to_send" msg
                (Pipeline.db (disk w)))
  ∧ net w' = net w ∧ ticks w' = ticks w.
Proof.
  intros w'. subst w'. unfold deliver, try_except.
  pose proof (send_and_clean_db E user format_type quality p temp_dir w)
    as (Hdb & Hnet & Hticks).
  destruct (send_and_clean _ _ _ _ _ _ _) as [[[]|e] w1]; cbn [snd] in *.
  - split; [by left | done].
  - destruct (delivery_failed_spec E log_id e w1) as (Hd & Hn & Ht).
    rewrite Hd, Hn, Ht. cbn [Pipeline.db]. rewrite Hdb.
    split; [right; by eexists | done].
Qed.

(** X26: When the upload of a finished download raises, the row is
    marked ["failed_to_send"] with [Error mengirim file: ] and the
    exception's text, and neither the file nor the temporary directory is
    removed. *)
Theorem refused_upload_keeps_workspace (E : env) (user : User)
    (format_type quality p : string) (temp_dir : option string) (log_id : Z)
    (w : world) (e : exn) :
  p ∈ Pipeline.files (disk w) →
  (∀ c, transport_error E (attempts w) c = Some e) →
  let w' := snd (deliver E user format_type quality p temp_dir log_id w) in
  Pipeline.files (disk w') = Pipeline.files (disk w)
  ∧ Pipeline.dirs (disk w') = Pipeline.dirs (disk w)
  ∧ Pipeline.db (disk w')
    = Db.update_log_status log_id "failed_to_send"
        ("Error mengirim file: " +:+ str_exn e) (Pipeline.db (disk w)).
Proof.
  intros Hp He w'. subst w'. unfold deliver, try_except.
  assert (send_and_clean E user format_type quality p temp_dir w
          = (Raise e, mkWorld (disk w) (net w) (ticks w) (outbox w)
                              (S (attempts w)))) as ->.
  { unfold send_and_clean, open_rb.
    destruct (String.eqb format_type "audio"); bot_step;
      rewrite bool_decide_eq_true_2 by done; bot_step; by rewrite He. }
  destruct (delivery_failed_spec E log_id e
              (mkWorld (disk w) (net w) (ticks w) (outbox w) (S (attempts w))))
    as (-> & _ & _). done.
Qed.

Lemma refused_upload_keeps_workspace_witness :
  let e := OtherException "Request Entity Too Large" in
  let E := Scenario.handlers (Some e) in
  let p := "/tmp/tmpk3v9x_1a/clip.mp4" in
  let w' := snd (deliver E Scenario.ani "video" "720p" p
                   (Some "/tmp/tmpk3v9x_1a") 3 Scenario.downloaded) in
  p ∈ Pipeline.files (disk Scenario.downloaded)
  ∧ (∀ c, transport_error E (attempts Scenario.downloaded) c = Some e)
  ∧ Pipeline.files (disk w') = Pipeline.files (disk Scenario.downloaded)
  ∧ Pipeline.dirs (disk w') = Pipeline.dirs (disk Scenario.downloaded)
  ∧ Pipeline.db (disk w')
    = Db.update_log_status 3 "failed_to_send"
        "Error mengirim file: Request Entity Too Large" Scenario.store.
Proof.
  intros e E p w'.
  assert (p ∈ Pipeline.files (disk Scenario.downloaded)) as Hp
    by (unfold Scenario.downloaded; simpl; set_solver).
  assert (∀ c, transport_error E (attempts Scenario.downloaded) c = Some e)
    as He by (intros; reflexivity).
  split; [exact Hp|]. split; [exact He|].
  exact (refused_upload_keeps_workspace E Scenario.ani "video" "720p" p
           (Some "/tmp/tmpk3v9x_1a") 3 Scenario.downloaded e Hp He).
Defined.

(** X27: When the transport works, delivering a finished download
    sends the file and then the confirmation, removes the file and the
    temporary directory with everything inside it, creates no file, and
    leaves the store as it was. *)
Theorem delivery_cleans_up (E : env) (user : User)
    (format_type quality p d : string) (log_id : Z) (w : world) :
  p ∈ Pipeline.files (disk w) → d ∈ Pipeline.dirs (disk w) → d ≠ "" →
  (∀ n c, transport_error E n c = None) →
  let w' := snd (deliver E user format_type quality p (Some d) log_id w) in
  (p ∉ Pipeline.files (disk w'))
  ∧ (d ∉ Pipeline.dirs (disk w'))
  ∧ (∀ f, f ∈ Pipeline.files (disk w') →
       f ∈ Pipeline.files (disk w) ∧ Pipeline.inside d f = false)
  ∧ Pipeline.db (disk w') = Pipeline.db (disk w)
  ∧ ∃ upload,
      upload ∈ [send_audio (id user) p ("🎵 Audio " +:+ quality);
                send_video (id user) p ("🎬 Video " +:+ quality)]
      ∧ outbox w'
        = outbox w
          ++ [upload;
              edit_message_text
                "✅ File berhasil dikirim! Kirim URL lain untuk mengunduh video/audio lainnya."
                None None].
Proof.
  intros Hp Hd Hne Hok w'. subst w'.
  unfold deliver, try_except, send_and_clean, open_rb, os_remove,
    Pipeline.os_remove, rmtree, Pipeline.rmtree, os_path_exists, nonempty.
  apply String.eqb_neq in Hne.
  destruct (String.eqb format_type "audio"); bot_step;
    rewrite bool_decide_eq_true_2 by done; bot_step; rewrite Hok; bot_step;
    rewrite bool_decide_eq_true_2 by done; bot_step; rewrite Hne;
    rewrite (bool_decide_eq_true_2 (d ∈ Pipeline.dirs (disk w))) by done;
    cbn [negb andb orb]; bot_step; rewrite Hok;
    cbn [snd disk outbox Pipeline.files Pipeline.dirs Pipeline.db];
    (split_and!;
     [ rewrite elem_of_filter; set_solver
     | rewrite elem_of_filter; set_solver
     | intros f [Hin Hf]%elem_of_filter; set_solver
     | done
     | eexists; split; [|by rewrite <- app_assoc]; list_mem ]).
Qed.

Lemma delivery_cleans_up_witness :
  let E := Scenario.handlers None in
  let p := "/tmp/tmpk3v9x_1a/clip.mp4" in
  let d := "/tmp/tmpk3v9x_1a" in
  let w' := snd (deliver E Scenario.ani "video" "720p" p (Some d) 3
                   Scenario.downloaded) in
  p ∈ Pipeline.files (disk Scenario.downloaded)
  ∧ d ∈ Pipeline.dirs (disk Scenario.downloaded)
  ∧ (p ∉ Pipeline.files (disk w'))
  ∧ (d ∉ Pipeline.dirs (disk w'))
  ∧ Pipeline.db (disk w') = Scenario.store.
Proof.
  intros E p d w'.
  assert (p ∈ Pipeline.files (disk Scenario.downloaded)) as Hp
    by (unfold Scenario.downloaded; simpl; set_solver).
  assert (d ∈ Pipeline.dirs (disk Scenario.downloaded)) as Hd
    by (unfold Scenario.downloaded; simpl; set_solver).
  assert (d ≠ "") as Hne by discriminate.
  assert (∀ n c, transport_error E n c = None) as Hok by (intros; reflexivity).
  split; [exact Hp|]. split; [exact Hd|].
  pose proof (delivery_cleans_up E Scenario.ani "video" "720p" p d 3
                Scenario.downloaded Hp Hd Hne Hok) as (H1 & H2 & _ & H4 & _).
  split; [exact H1|]. split; [exact H2 | exact H4].
Defined.

(** X28: [button_handler] never raises, whatever the callback data,
    the provider and the transport do. *)
Theorem button_handler_never_raises (E : env) (user : User) (data : string)
    (w : world) :
  fst (button_handler E user data w) = Ok ().
Proof.
  unfold button_handler.
  match goal with
  | |- fst (try_except ?m ?h w) = _ => generalize m; intros body
  end.
  unfold try_except. destruct (body w) as [[[]|e] w1]; [done|].
  bot_step. by case_transport.
Qed.

(** A handler that leaves the disk alone can be ignored when the disk is
    what matters. *)
Lemma try_except_disk {A : Type} (m : M A) (h : exn → M A) (w : world) :
  (∀ e w1, disk (snd (h e w1)) = disk w1) →
  disk (snd (try_except m h w)) = disk (snd (m w)).
Proof.
  intros Hh. unfold try_except. destruct (m w) as [[a|e] w1]; [done|].
  apply Hh.
Qed.

Lemma download_row_update (db0 : Db.database) (uid : Z)
    (url fmt q t st err : string) (d : Db.database) :
  download_row db0 uid url fmt q t d →
  st ∈ ["started"; "completed"; "failed"; "failed_to_send"] →
  download_row db0 uid url fmt q t
    (Db.update_log_status (Db.next_id db0) st err d).
Proof.
  intros (st0 & err0 & -> & _) Hst. exists st, err.
  by rewrite update_fresh_row.
Qed.

(** The download branch appends the row of the request and from then on
    only updates it. *)
Lemma download_request_row (E : env) (user : User) (vid : string) (itag : Z)
    (fmt q ptype : string) (w : world) :
  download_row (Pipeline.db (disk w)) (id user) ("https://youtu.be/" +:+ vid)
    fmt q (now E (ticks w))
    (Pipeline.db (disk (snd (download_request E user vid itag fmt q ptype w)))).
Proof.
  unfold download_request. bot_step.
  set (db := Pipeline.db (disk w)).
  assert (download_row db (id user) ("https://youtu.be/" +:+ vid) fmt q
            (now E (ticks w))
            (Db.mkDb (Db.users db)
               (Db.usage_logs db
                ++ [Db.mkLog (Db.next_id db) (id user) "download"
                      ("https://youtu.be/" +:+ vid) fmt q (now E (ticks w))
                      "started" ""]))) as Hrow.
  { exists "started", "". split; [done|list_mem]. }
  case_transport; [done|]. bot_step.
  match goal with
  | |- context [download_youtube E ?u ?i ?f ?uid ?l ?p ?w0] =>
      destruct (bot_download_youtube_spec E u i f uid l p w0)
        as ([fp td] & d & -> & st & msg & Hst & Hdb)
  end.
  cbn [disk net ticks outbox attempts Pipeline.db] in Hdb.
  assert (download_row db (id user) ("https://youtu.be/" +:+ vid) fmt q
            (now E (ticks w)) (Pipeline.db d)) as Hrow'.
  { rewrite Hdb. apply download_row_update; [done|list_mem]. }
  clear Hdb. bot_step.
  destruct fp as [p|]; [destruct (nonempty p)|]; bot_step;
    case_transport; try done.
  match goal with
  | |- context [deliver E ?u ?f ?q0 ?p0 ?t ?l ?w0] =>
      destruct (deliver_spec E u f q0 p0 t l w0) as [[->|[m ->]] _]
  end; cbn [disk Pipeline.db]; [done|].
  apply download_row_update; [done|list_mem].
Qed.

(** X29: A button press leaves the store as it was, or, only when the
    callback data is [download] followed by at least four fields,
    appends exactly one ["download"] row for [https://youtu.be/<id>]
    with the format and quality of the data, whose status is in the end
    [started], [completed], [failed] or [failed_to_send]; no other row
    and no user changes. *)
Theorem button_handler_logs_download (E : env) (user : User) (data : string)
    (w : world) :
  let db := Pipeline.db (disk w) in
  let w' := snd (button_handler E user data w) in
  Pipeline.db (disk w') = db
  ∨ ∃ vid itag fmt q rest,
      split "|" data = "download" :: vid :: itag :: fmt :: q :: rest
      ∧ download_row db (id user) ("https://youtu.be/" +:+ vid) fmt q
          (now E (ticks w)) (Pipeline.db (disk w')).
Proof.
  intros db w'. subst w'. unfold button_handler.
  rewrite try_except_disk
    by (intros e w1; bot_step; by case_transport).
  bot_step. case_transport; [by left|]. bot_step.
  destruct (split_cons "|" data) as (d0 & fields & Hsplit). rewrite Hsplit.
  cbn [item lookup list_lookup]. bot_step.
  destruct (String.eqb_spec d0 "cancel") as [->|_].
  { case_transport; by left. }
  destruct (String.eqb_spec d0 "option") as [->|_].
  { destruct (item _ 1) as [vid|e]; [|by left].
    destruct (item _ 2) as [choice|e]; [|by left].
    unfold get_video_info_by_id, get_video_info_with_retry. cbn [net].
    case_retry. bot_step.
    destruct i as [|error|c]; bot_step; case_transport; by left. }
  destruct (String.eqb_spec d0 "download") as [->|_]; [|by left].
  destruct fields as [|vid [|itag_text [|fmt [|q rest]]]];
    cbn [item lookup list_lookup]; bot_step; try (by left);
    try (destruct (int E itag_text); by left).
  destruct (int E itag_text) as [itag|e]; [|by left].
  right. exists vid, itag_text, fmt, q, rest. split; [done|].
  destruct rest as [|p rest]; cbn [List.length Nat.ltb Nat.leb];
    apply (download_request_row E user vid itag fmt q _
             (mkWorld (disk w) (net w) (ticks w) (outbox w ++ [answer])
                      (S (attempts w)))).
Qed.

(** An accepted URL has a video id, of id characters. *)
Lemma valid_url_id (url : string) :
  is_valid_youtube_url url = true →
  ∃ vid, extract_video_id url = Some vid
         ∧ vid ≠ "" ∧ all_chars id_char vid = true.
Proof.
  intros Hv.
  assert (is_Some (re_match youtube_regex url)) as Hm.
  { unfold is_valid_youtube_url in Hv. by destruct (re_match youtube_regex url). }
  apply re_match_iff in Hm as (x & rest & -> & Hx).
  unfold extract_video_id.
  destruct (re_search pattern1 (x +:+ rest)) as [m|] eqn:H1.
  { apply search_group_nonempty in H1 as (vid & -> & Hne & Hall). eauto. }
  destruct (re_search pattern2 (x +:+ rest)) as [m|] eqn:H2.
  { apply search_group_nonempty in H2 as (vid & -> & Hne & Hall). eauto. }
  apply matches_pattern in Hx as [Hx|Hx].
  - assert (is_Some (re_search pattern1 (x +:+ rest))) as [? ?]; [|congruence].
    apply re_search_of_match, re_match_iff. eauto.
  - assert (is_Some (re_search pattern2 (x +:+ rest))) as [? ?]; [|congruence].
    apply re_search_of_match, re_match_iff. eauto.
Qed.

(** X30: For an accepted URL whose catalog is retrieved, with a
    transport that works, [url_handler] sends the notice and then one
    message with the keyboard built on the id [extract_video_id] finds;
    and [button_handler]'s [split('|')] reads every button of that
    keyboard back as [cancel] or as [option], that id, and [audio] or
    [video]. *)
Theorem url_handler_offers_formats (E : env) (user : User) (url : string)
    (w : world) (c : VideoCatalog) :
  is_valid_youtube_url url = true →
  (∀ n call, transport_error E n call = None) →
  fst (Retry.get_video_info_with_retry (Pipeline.rank (pipeline E))
         (provider E) url 3 (net w))
  = Ok (InfoCatalog c) →
  ∃ vid text,
    extract_video_id url = Some vid
    ∧ outbox (snd (url_handler E user url w))
      = outbox w
        ++ [reply_text "🔍 Mengambil informasi video... Mohon tunggu sebentar."
              None None;
            reply_text text (Some (format_keyboard (Some vid)))
              (Some "Markdown")]
    ∧ ∀ row b, row ∈ format_keyboard (Some vid) → b ∈ row →
        split "|" (callback_data b) = ["cancel"]
        ∨ ∃ choice, choice ∈ ["audio"; "video"]
            ∧ split "|" (callback_data b) = ["option"; vid; choice].
Proof.
  intros Hvalid Hok Hinfo.
  destruct (valid_url_id url Hvalid) as (vid & Hvid & Hne & Hall).
  apply id_chars_no_bar in Hall.
  exists vid. eexists. split; [done|]. split.
  - unfold url_handler. bot_step. rewrite Hvalid. cbn [negb]. bot_step.
    rewrite Hok. bot_step. unfold get_video_info_with_retry. cbn [net].
    destruct (Retry.get_video_info_with_retry _ _ _ _ _) as [r n].
    cbn [fst] in Hinfo. subst r. bot_step. rewrite Hok.
    cbn [snd outbox]. rewrite Hvid, <- app_assoc. reflexivity.
  - intros row b Hrow Hb. unfold format_keyboard in Hrow.
    apply list_elem_of_In in Hrow. simpl in Hrow.
    destruct Hrow as [<-|[<-|[<-|[]]]];
      apply list_elem_of_In in Hb as [<-|[]]; cbn [callback_data Pipeline.str_opt default].
    + right. exists "audio". split; [list_mem|].
      change (split "|" ("option" +:+ String "|" (vid +:+ String "|" "audio"))
              = ["option"; vid; "audio"]).
      by rewrite !split_field by done.
    + right. exists "video". split; [list_mem|].
      change (split "|" ("option" +:+ String "|" (vid +:+ String "|" "video"))
              = ["option"; vid; "video"]).
      by rewrite !split_field by done.
    + by left.
Qed.

Lemma url_handler_offers_formats_witness :
  let E := Scenario.handlers None in
  let url := "https://youtu.be/abc123" in
  is_valid_youtube_url url = true
  ∧ (∀ n call, transport_error E n call = None)
  ∧ fst (Retry.get_video_info_with_retry (Pipeline.rank (pipeline E))
           (provider E) url 3 (net Scenario.chat0))
    = Ok (InfoCatalog Scenario.catalog)
  ∧ ∃ vid text,
      extract_video_id url = Some vid
      ∧ outbox (snd (url_handler E Scenario.ani url Scenario.chat0))
        = outbox Scenario.chat0
          ++ [reply_text
                "🔍 Mengambil informasi video... Mohon tunggu sebentar."
                None None;
              reply_text text (Some (format_keyboard (Some vid)))
                (Some "Markdown")]
      ∧ ∀ row b, row ∈ format_keyboard (Some vid) → b ∈ row →
          split "|" (callback_data b) = ["cancel"]
          ∨ ∃ choice, choice ∈ ["audio"; "video"]
              ∧ split "|" (callback_data b) = ["option"; vid; choice].
Proof.
  intros E url.
  assert (is_valid_youtube_url url = true) as Hvalid by reflexivity.
  assert (∀ n call, transport_error E n call = None) as Hok
    by (intros; reflexivity).
  assert (fst (Retry.get_video_info_with_retry (Pipeline.rank (pipeline E))
                 (provider E) url 3 (net Scenario.chat0))
          = Ok (InfoCatalog Scenario.catalog)) as Hinfo by reflexivity.
  split; [exact Hvalid|]. split; [exact Hok|]. split; [exact Hinfo|].
  exact (url_handler_offers_formats E Scenario.ani url Scenario.chat0
           Scenario.catalog Hvalid Hok Hinfo).
Defined.
End BotFacts.
